(** * Tour finalization service: a shallow embedding and its properties

    The development follows [TourFinalizationService] (the class that
    owns [finalizeTour], the six workflow handlers, the order builders and
    [generateInstructionGuide]).  Asynchronous code is written in a small
    state-and-exception monad: the state carries the chronological trace of
    the requests sent to the collaborators, the environment carries what the
    collaborators answer. *)

From Stdlib Require Import String Ascii List Arith Bool Lia Permutation.
From Stdlib Require Import Decimal DecimalNat DecimalString.
Import ListNotations.
Open Scope list_scope.
Open Scope string_scope.

Set Implicit Arguments.

(* ================================================================== *)
(** ** JavaScript primitives used by the service *)

Module JS.

(** [n.toString()] and [`${n}`] for a non-negative integer. *)
Definition toString (n : nat) : string :=
  NilEmpty.string_of_uint (Nat.to_uint n).

(** Truthiness of a possibly missing string: [undefined], [null] and the
    empty string are falsy. *)
Definition truthy (o : option string) : bool :=
  match o with
  | Some EmptyString => false
  | Some _ => true
  | None => false
  end.

(** [a || b] where [b] may itself be missing. *)
Definition or (a b : option string) : option string :=
  if truthy a then a else b.

(** [a || "default"]. *)
Definition orElse (a : option string) (d : string) : string :=
  match a with
  | Some s => if truthy a then s else d
  | None => d
  end.

(** [xs.includes(x)] for an array of strings. *)
Fixpoint includes (xs : list string) (x : string) : bool :=
  match xs with
  | [] => false
  | y :: ys => if String.eqb y x then true else includes ys x
  end.

(** [xs.slice(0, n)]. *)
Definition slice0 {A} (n : nat) (xs : list A) : list A := firstn n xs.

(** [xs.join(sep)]. *)
Fixpoint join (sep : string) (xs : list string) : string :=
  match xs with
  | [] => ""
  | [x] => x
  | x :: rest => x ++ sep ++ join sep rest
  end.

Definition lowerChar (c : ascii) : ascii :=
  let n := nat_of_ascii c in
  if Nat.leb 65 n && Nat.leb n 90 then ascii_of_nat (n + 32) else c.

(** [s.toLowerCase()] on ASCII text, for the sample run time: bytes
    outside A-Z are left as they are. *)
Fixpoint toLowerCase (s : string) : string :=
  match s with
  | EmptyString => EmptyString
  | String c r => String (lowerChar c) (toLowerCase r)
  end.

Definition isSpace (c : ascii) : bool :=
  let n := nat_of_ascii c in
  Nat.eqb n 32 || (Nat.leb 9 n && Nat.leb n 13).

(** [s.replace(/\s/g, '')] on ASCII text, for the sample run time. *)
Fixpoint stripSpaces (s : string) : string :=
  match s with
  | EmptyString => EmptyString
  | String c r => if isSpace c then stripSpaces r else String c (stripSpaces r)
  end.

Fixpoint trimStart (s : string) : string :=
  match s with
  | EmptyString => EmptyString
  | String c r => if isSpace c then trimStart r else s
  end.

Fixpoint rev_string (s acc : string) : string :=
  match s with
  | EmptyString => acc
  | String c r => rev_string r (String c acc)
  end.

(** [s.trim()] on ASCII text, for the sample run time. *)
Definition trim (s : string) : string :=
  rev_string (trimStart (rev_string (trimStart s) "")) "".

(** [s.slice(0, n)] and [s.substring(0, n)]. *)
Definition prefix (n : nat) (s : string) : string := String.substring 0 n s.

End JS.

(** The double quote character, for the quoted talking points of the guide. *)
Definition dq : string := String (ascii_of_nat 34) EmptyString.
(** The line feed. *)
Definition nl : string := String (ascii_of_nat 10) EmptyString.

(* ================================================================== *)
(** ** Amounts

    The order requests carry their amounts as strings: line prices are
    written ["15.00"], the order totals are [(quantity * 15).toString()].
    [amount] reads such a string as a number of cents, which is what the
    order-management system does with it. *)

Fixpoint splitDot (s : string) : string * option string :=
  match s with
  | EmptyString => (EmptyString, None)
  | String c r =>
      if Ascii.eqb c "."%char then (EmptyString, Some r)
      else let (a, b) := splitDot r in (String c a, b)
  end.

Definition digits (s : string) : option nat :=
  option_map Nat.of_uint (NilZero.uint_of_string s).

Definition amount (s : string) : option nat :=
  match splitDot s with
  | (whole, None) => option_map (fun n => 100 * n) (digits whole)
  | (whole, Some frac) =>
      if Nat.eqb (String.length frac) 2 then
        match digits whole, digits frac with
        | Some a, Some b => Some (100 * a + b)
        | _, _ => None
        end
      else None
  end.

(* ================================================================== *)
(** ** Data model *)

(** [WorkflowOption]: the six workflow names. *)
Inductive WorkflowOption :=
| receive_to_light
| pack_to_light
| standard_receiving
| bulk_shipping
| single_item_batch
| multi_item_batch.

Definition WorkflowOption_eqb (a b : WorkflowOption) : bool :=
  match a, b with
  | receive_to_light, receive_to_light
  | pack_to_light, pack_to_light
  | standard_receiving, standard_receiving
  | bulk_shipping, bulk_shipping
  | single_item_batch, single_item_batch
  | multi_item_batch, multi_item_batch => true
  | _, _ => false
  end.

(** The string each option is in the source and in the [tours] table. *)
Definition workflowName (w : WorkflowOption) : string :=
  match w with
  | receive_to_light => "receive_to_light"
  | pack_to_light => "pack_to_light"
  | standard_receiving => "standard_receiving"
  | bulk_shipping => "bulk_shipping"
  | single_item_batch => "single_item_batch"
  | multi_item_batch => "multi_item_batch"
  end.

(** [selectedOptions.includes(w)] on the typed argument of [finalizeTour]. *)
Definition selects (selectedOptions : list WorkflowOption) (w : WorkflowOption) : bool :=
  existsb (WorkflowOption_eqb w) selectedOptions.

Module Host.
Record t := mk {
  id : string;
  name : option string;
  first_name : option string;
  last_name : option string
}.
End Host.

Module Participant.
Record t := mk {
  id : string;
  name : option string;
  first_name : option string;
  last_name : option string;
  email : option string;
  company : option string;
  title : option string
}.
End Participant.

(** The [address] column of a warehouse is free-form JSON; these are the
    keys the service reads, each possibly absent. *)
Module WarehouseAddress.
Record t := mk {
  address1 : option string;
  address : option string;
  address2 : option string;
  city : option string;
  state : option string;
  zip : option string;
  country : option string;
  phone : option string
}.
End WarehouseAddress.

Module Warehouse.
Record t := mk {
  id : string;
  name : string;
  address : option WarehouseAddress.t;
  shiphero_warehouse_id : string
}.
End Warehouse.

Module TourData.
Record t := mk {
  id : string;
  host : Host.t;
  participants : list Participant.t;
  warehouse : Warehouse.t;
  selected_workflows : list string;
  selected_skus : list string
}.
End TourData.

(** A line item of a sales order. *)
Module LineItem.
Record t := mk {
  sku : string;
  quantity : nat;
  price : string;
  product_name : string;
  partner_line_item_id : string;
  fulfillment_status : string;
  quantity_pending_fulfillment : nat;
  warehouse_id : string
}.
End LineItem.

Module ShippingLines.
Record t := mk {
  title : string;
  price : string;
  carrier : string;
  method : string
}.
End ShippingLines.

(** A shipping or billing address block.  [state_code] and [country_code]
    are copied from the warehouse shipping address, which has no such
    keys, hence always missing. *)
Module Address.
Record t := mk {
  first_name : string;
  last_name : string;
  company : string;
  address1 : string;
  address2 : string;
  city : string;
  state : string;
  state_code : option string;
  zip : string;
  country : string;
  country_code : option string;
  phone : string;
  email : string
}.
End Address.

Module SalesOrder.
Record t := mk {
  order_number : string;
  shop_name : string;
  fulfillment_status : string;
  order_date : string;
  total_tax : string;
  subtotal : string;
  total_discounts : string;
  total_price : string;
  shipping_lines : ShippingLines.t;
  shipping_address : Address.t;
  billing_address : Address.t;
  line_items : list LineItem.t;
  required_ship_date : string;
  tags : list string
}.
End SalesOrder.

(** A line item of a purchase order. *)
Module POLineItem.
Record t := mk {
  sku : string;
  quantity : nat;
  expected_weight_in_lbs : string;
  vendor_id : string;
  quantity_received : nat;
  quantity_rejected : nat;
  price : string;
  product_name : string;
  fulfillment_status : string;
  sell_ahead : nat
}.
End POLineItem.

Module PurchaseOrder.
Record t := mk {
  po_number : string;
  po_date : string;
  vendor_id : string;
  warehouse_id : string;
  subtotal : string;
  tax : string;
  shipping_price : string;
  total_price : string;
  fulfillment_status : string;
  discount : string;
  line_items : list POLineItem.t
}.
End PurchaseOrder.

(** What [getWarehouseShippingAddress] returns. *)
Module ShipTo.
Record t := mk {
  first_name : string;
  last_name : string;
  address1 : string;
  address2 : string;
  city : string;
  state : string;
  zip : string;
  country : string;
  phone : string
}.
End ShipTo.

(** An entry of [getCelebrityNames]. *)
Module Celebrity.
Record t := mk { first : string; last : string }.
End Celebrity.

(* ================================================================== *)
(** ** Collaborators *)

(** What the code throws and catches: every [throw] of the service is a
    [new Error(message)], so [error instanceof Error ? error.message : ...]
    always takes the first branch. *)
Inductive Thrown := Error (message : string).

Definition messageOf (error : Thrown) : string :=
  match error with Error m => m end.

(** A settled promise, and the outcome of a computation that may throw. *)
Inductive Settled (A : Type) :=
| Rejected (error : Thrown)
| Fulfilled (value : A).
Arguments Rejected {A} error.
Arguments Fulfilled {A} value.

(** The order object the order-management system returns. *)
Definition CreatedOrder := string.

(** The JSON body answered by [/api/shiphero/orders], read through
    [data?.order_create?.order], [data?.purchase_order_create?.purchase_order]
    and [errors?.[0]?.message]. *)
Module OrdersJson.
Record t := mk {
  order : option CreatedOrder;
  purchase_order : option CreatedOrder;
  first_error_message : option string
}.
End OrdersJson.

Module Response.
Record t := mk {
  ok : bool;
  status : nat;
  text : string;
  json : OrdersJson.t
}.
End Response.

Module TokenResponse.
Record t := mk { ok : bool; access_token : string }.
End TokenResponse.

(** The result of a Supabase query: [{ data, error }]. *)
Inductive Query (A : Type) :=
| QueryError (message : string)
| QueryData (data : A).
Arguments QueryError {A} message.
Arguments QueryData {A} data.

Module TourRow.
Record t := mk {
  id : string;
  warehouse_id : string;
  host_id : string;
  selected_workflows : option (list string);
  selected_skus : option (list string)
}.
End TourRow.

(** The tables as the service queries them.  The rows may change, and a
    query may fail, from one load of a tour to the next: the first
    argument of a table is the number of the load that queries it.
    [update_tours_status] is the [error] answered to the update of the
    status. *)
Module Supabase.
Record t := mk {
  tours : nat -> string -> Query TourRow.t;
  warehouses : nat -> string -> Query Warehouse.t;
  team_members : nat -> string -> Query Host.t;
  tour_participants : nat -> string -> Query (option (list Participant.t));
  update_tours_status : string -> string -> option string
}.
End Supabase.

(** [new Date()] in the formats the service prints.  One finalization
    reads one clock value. *)
Module Clock.
Record t := mk {
  toISOString : string;
  plus7days_toISOString : string;
  toLocaleDateString : string;
  toLocaleString : string
}.
End Clock.

(** Everything outside the service.  [orders_endpoint n] is the answer to
    the [n]-th POST of orders since the service object was created,
    [math_random n] the [n]-th raw draw of [Math.random].  The answers to
    the orders of a batch arrive in an order the service does not
    control: [race n] tells which of the rejections, if there are
    several, reaches the [Promise.all] awaited after [n] posts first.
    [getCelebrityNames] is imported from a module that is not among these
    sources; the service only indexes the array it returns.
    [toLowerCase], [removeWhiteSpace] and [trim] are the run time's
    [String.prototype.toLowerCase], [replace(/\s/g, '')] and
    [String.prototype.trim]. *)
Module Env.
Record t := mk {
  window_defined : bool;
  shiphero_refresh_token : option string;
  refresh_token_endpoint : Settled TokenResponse.t;
  supabase : Supabase.t;
  orders_endpoint : nat -> Settled Response.t;
  race : nat -> nat;
  math_random : nat -> nat;
  getCelebrityNames : nat -> list Celebrity.t;
  toLowerCase : string -> string;
  removeWhiteSpace : string -> string;
  trim : string -> string;
  clock : Clock.t
}.
End Env.

(** The requests the service sends, in the order it sends them. *)
Inductive Event :=
| RefreshTokenRequest (refresh_token : string)
| SalesOrderRequest (orderData : SalesOrder.t)
| PurchaseOrderRequest (poData : PurchaseOrder.t)
| TourStatusUpdate (tourId status : string).

(** The mutable state: the [shipHero] field of the service object, the
    [errors] array of the running [finalizeTour], and how many answers
    were consumed from the random generator, from the orders endpoint
    and from the tables. *)
Module State.
Record t := mk {
  shipHero : option string;
  errors : list string;
  draws : nat;
  posts : nat;
  reads : nat
}.
End State.

(* ================================================================== *)
(** ** The monad of the service *)

Module Run.
Record t (A : Type) := mk {
  outcome : Settled A;
  final : State.t;
  events : list Event
}.
Arguments mk {A} outcome final events.
Arguments outcome {A} t.
Arguments final {A} t.
Arguments events {A} t.
End Run.

Definition M (A : Type) : Type := Env.t -> State.t -> Run.t A.

Definition ret {A} (a : A) : M A :=
  fun _ st => Run.mk (Fulfilled a) st [].

Definition throw {A} (error : Thrown) : M A :=
  fun _ st => Run.mk (Rejected error) st [].

Definition bind {A B} (c : M A) (k : A -> M B) : M B :=
  fun env st =>
    let r := c env st in
    match Run.outcome r with
    | Rejected error => Run.mk (Rejected error) (Run.final r) (Run.events r)
    | Fulfilled a =>
        let r' := k a env (Run.final r) in
        Run.mk (Run.outcome r') (Run.final r') (Run.events r ++ Run.events r')%list
    end.

(** [try { c } catch (error) { handler error }]. *)
Definition try_catch {A} (c : M A) (handler : Thrown -> M A) : M A :=
  fun env st =>
    let r := c env st in
    match Run.outcome r with
    | Rejected error =>
        let r' := handler error env (Run.final r) in
        Run.mk (Run.outcome r') (Run.final r') (Run.events r ++ Run.events r')%list
    | Fulfilled a => r
    end.

Declare Scope service_scope.
Delimit Scope service_scope with service.
Notation "x <- c ;; k" := (bind c (fun x => k))
  (at level 61, c at next level, right associativity) : service_scope.
Notation "c ;; k" := (bind c (fun _ => k))
  (at level 61, right associativity) : service_scope.
Open Scope service_scope.

Definition emit (e : Event) : M unit :=
  fun _ st => Run.mk (Fulfilled tt) st [e].

Definition ask : M Env.t :=
  fun env st => Run.mk (Fulfilled env) st [].

Definition get : M State.t :=
  fun _ st => Run.mk (Fulfilled st) st [].

Definition put (st : State.t) : M unit :=
  fun _ _ => Run.mk (Fulfilled tt) st [].

(** [await p]. *)
Definition await {A} (p : Settled A) : M A :=
  match p with
  | Rejected error => throw error
  | Fulfilled a => ret a
  end.

(** The rejections and the values among settled promises, in the order
    of the array. *)
Definition rejections {A} (ps : list (Settled A)) : list Thrown :=
  flat_map (fun p => match p with Rejected error => [error] | Fulfilled _ => [] end)
           ps.

Definition values {A} (ps : list (Settled A)) : list A :=
  flat_map (fun p => match p with Rejected _ => [] | Fulfilled a => [a] end) ps.

(** [Promise.all(ps)]: fulfilled with the values in order when no promise
    is rejected; otherwise rejected with the rejection that arrives
    first, which is any of them: [first] picks it. *)
Definition Promise_all {A} (first : nat) (ps : list (Settled A))
  : Settled (list A) :=
  match rejections ps with
  | [] => Fulfilled (values ps)
  | error :: others =>
      Rejected (nth (first mod S (length others)) (error :: others) error)
  end.

(** A loop that pushes one result per element. *)
Fixpoint forEach {A B} (xs : list A) (body : A -> M B) : M (list B) :=
  match xs with
  | [] => ret []
  | x :: rest =>
      b <- body x ;;
      bs <- forEach rest body ;;
      ret (b :: bs)
  end.

(** [xs.map((x, index) => ...)]: the elements with their indices. *)
Definition indexed {A} (xs : list A) : list (nat * A) :=
  combine (seq 0 (length xs)) xs.

(** [Math.floor(Math.random() * n)]: an integer of [0, n). *)
Definition randomBelow (n : nat) : M nat :=
  env <- ask ;;
  st <- get ;;
  put (State.mk (State.shipHero st) (State.errors st)
                (S (State.draws st)) (State.posts st) (State.reads st)) ;;
  ret (Env.math_random env (State.draws st) mod n).

(** [errors.push(errorMsg)]. *)
Definition pushError (errorMsg : string) : M unit :=
  st <- get ;;
  put (State.mk (State.shipHero st) (State.errors st ++ [errorMsg])%list
                (State.draws st) (State.posts st) (State.reads st)).

(** [fetch('/api/shiphero/orders', ...)]: the request leaves, and the
    promise settles with the endpoint's next answer. *)
Definition fetchOrders (request : Event) : M (Settled Response.t) :=
  env <- ask ;;
  st <- get ;;
  emit request ;;
  put (State.mk (State.shipHero st) (State.errors st)
                (State.draws st) (S (State.posts st)) (State.reads st)) ;;
  ret (Env.orders_endpoint env (State.posts st)).

(* ================================================================== *)
(** ** Session, transport and data loading *)

(** [initializeShipHero]: get a fresh access token. *)
Definition initializeShipHero : M unit :=
  env <- ask ;;
  if negb (Env.window_defined env) then
    throw (Error "Tour finalization service must be used in browser environment.")
  else
    let refreshToken := Env.shiphero_refresh_token env in
    if negb (JS.truthy refreshToken) then
      throw (Error "ShipHero refresh token is required. Please configure it in Settings → ShipHero tab.")
    else
      emit (RefreshTokenRequest (JS.orElse refreshToken "")) ;;
      tokenResponse <- await (Env.refresh_token_endpoint env) ;;
      if negb (TokenResponse.ok tokenResponse) then
        throw (Error "Failed to get ShipHero access token. Please check your refresh token in Settings.")
      else
        st <- get ;;
        put (State.mk (Some (TokenResponse.access_token tokenResponse))
                      (State.errors st) (State.draws st) (State.posts st) (State.reads st)).

(** What an [async] transport helper makes of the endpoint's answer. *)
Definition settleResponse (what : string) (response : Settled Response.t)
  : Settled OrdersJson.t :=
  match response with
  | Rejected error => Rejected error
  | Fulfilled response =>
      if negb (Response.ok response) then
        Rejected (Error ("Failed to create " ++ what ++ ": "
                         ++ JS.toString (Response.status response) ++ " "
                         ++ Response.text response))
      else Fulfilled (Response.json response)
  end.

(** [createSalesOrderViaAPI]: the call sends the request and returns the
    promise of the JSON body; the promise is rejected when the response
    is not ok. *)
Definition createSalesOrderViaAPI (orderData : SalesOrder.t)
  : M (Settled OrdersJson.t) :=
  st <- get ;;
  match State.shipHero st with
  | None =>
      ret (Rejected (Error "Cannot read properties of undefined (reading 'accessToken')"))
  | Some _ =>
      response <- fetchOrders (SalesOrderRequest orderData) ;;
      ret (settleResponse "sales order" response)
  end.

(** [createPurchaseOrderViaAPI]. *)
Definition createPurchaseOrderViaAPI (poData : PurchaseOrder.t)
  : M (Settled OrdersJson.t) :=
  st <- get ;;
  match State.shipHero st with
  | None =>
      ret (Rejected (Error "Cannot read properties of undefined (reading 'accessToken')"))
  | Some _ =>
      response <- fetchOrders (PurchaseOrderRequest poData) ;;
      ret (settleResponse "purchase order" response)
  end.

(** [xs || []]. *)
Definition orEmpty {A} (xs : option (list A)) : list A :=
  match xs with Some l => l | None => [] end.

(** [getTourDetails]: the tour with its warehouse, host and participants. *)
Definition getTourDetails (tourId : string) : M TourData.t :=
  env <- ask ;;
  st <- get ;;
  put (State.mk (State.shipHero st) (State.errors st) (State.draws st)
                (State.posts st) (S (State.reads st))) ;;
  let db := Env.supabase env in
  let load := State.reads st in
  match Supabase.tours db load tourId with
  | QueryError m => throw (Error ("Failed to fetch tour: " ++ m))
  | QueryData tour =>
  match Supabase.warehouses db load (TourRow.warehouse_id tour) with
  | QueryError m => throw (Error ("Failed to fetch warehouse: " ++ m))
  | QueryData warehouse =>
  match Supabase.team_members db load (TourRow.host_id tour) with
  | QueryError m => throw (Error ("Failed to fetch host: " ++ m))
  | QueryData host =>
  match Supabase.tour_participants db load tourId with
  | QueryError m => throw (Error ("Failed to fetch participants: " ++ m))
  | QueryData participants =>
      ret (TourData.mk (TourRow.id tour)
             (Host.mk (Host.id host) (Host.name host)
                      (Host.first_name host) (Host.last_name host))
             (orEmpty participants)
             (Warehouse.mk (Warehouse.id warehouse) (Warehouse.name warehouse)
                           (Warehouse.address warehouse)
                           (Warehouse.shiphero_warehouse_id warehouse))
             (orEmpty (TourRow.selected_workflows tour))
             (orEmpty (TourRow.selected_skus tour)))
  end end end end.

(** [updateTourStatus]. *)
Definition updateTourStatus (tourId status : string) : M unit :=
  env <- ask ;;
  emit (TourStatusUpdate tourId status) ;;
  match Supabase.update_tours_status (Env.supabase env) tourId status with
  | Some m => throw (Error ("Failed to update tour status: " ++ m))
  | None => ret tt
  end.

(* ================================================================== *)
(** ** Order payloads *)

(** A missing column read in a template string. *)
Definition template (o : option string) : string :=
  match o with Some s => s | None => "null" end.

(** [address?.key] *)
Definition key (address : option WarehouseAddress.t)
  (k : WarehouseAddress.t -> option string) : option string :=
  match address with Some a => k a | None => None end.

(** [getWarehouseShippingAddress]. *)
Definition getWarehouseShippingAddress (tourData : TourData.t) : ShipTo.t :=
  let address := Warehouse.address (TourData.warehouse tourData) in
  ShipTo.mk "Warehouse" "Demo"
    (JS.orElse (JS.or (key address WarehouseAddress.address1)
                      (key address WarehouseAddress.address))
               "123 Warehouse St")
    (JS.orElse (key address WarehouseAddress.address2) "")
    (JS.orElse (key address WarehouseAddress.city) "Demo City")
    (JS.orElse (key address WarehouseAddress.state) "CA")
    (JS.orElse (key address WarehouseAddress.zip) "90210")
    (JS.orElse (key address WarehouseAddress.country) "US")
    (JS.orElse (key address WarehouseAddress.phone) "555-0123").

(** The [shipping_lines] literal every sales order carries. *)
Definition standardShipping : ShippingLines.t :=
  ShippingLines.mk "Standard Shipping" "0.00" "Demo Carrier" "Standard".

(** The shape shared by [shipping_address] and [billing_address]. *)
Definition addressBlock (first last company email : string)
  (warehouseAddress : ShipTo.t) : Address.t :=
  Address.mk first last company
    (ShipTo.address1 warehouseAddress) (ShipTo.address2 warehouseAddress)
    (ShipTo.city warehouseAddress) (ShipTo.state warehouseAddress) None
    (ShipTo.zip warehouseAddress) (ShipTo.country warehouseAddress) None
    (ShipTo.phone warehouseAddress) email.

(** [new Date().toISOString().slice(0, 10)]. *)
Definition today (clock : Clock.t) : string :=
  JS.prefix 10 (Clock.toISOString clock).

(** [new Date(Date.now() + 7 days).toISOString().slice(0, 10)]. *)
Definition shipBy (clock : Clock.t) : string :=
  JS.prefix 10 (Clock.plus7days_toISOString clock).

(** The purchase order of [createStandardReceivingPO], given the drawn
    quantities [poLineItems]. *)
Definition standardReceivingPOData (tourData : TourData.t) (clock : Clock.t)
  (workflowName : string) (poLineItems : list (string * nat)) : PurchaseOrder.t :=
  PurchaseOrder.mk
    (workflowName ++ "-" ++ template (Host.name (TourData.host tourData))
       ++ "-" ++ today clock)
    (today clock)
    "1076735"
    (Warehouse.shiphero_warehouse_id (TourData.warehouse tourData))
    "0.00" "0.00" "0.00" "0.00" "pending" "0.00"
    (map (fun item : string * nat =>
            POLineItem.mk (fst item) (snd item) "1" "1076735" 0 0 "0.00"
                          (fst item) "pending" 0)
         poLineItems).

(** The line items of the order of participant number [i]. *)
Definition participantLineItems (tourData : TourData.t) (i : nat)
  : list LineItem.t :=
  map (fun p : nat * string =>
         let (index, sku) := p in
         LineItem.mk sku 1 "10.00" ("Product " ++ sku)
           ("participant-line-" ++ JS.toString (i + 1) ++ "-"
              ++ JS.toString (index + 1))
           "pending" 1
           (Warehouse.shiphero_warehouse_id (TourData.warehouse tourData)))
      (indexed (JS.slice0 3 (TourData.selected_skus tourData))).

(** The sales order of [createParticipantOrders] for participant [i]. *)
Definition participantOrderData (tourData : TourData.t) (clock : Clock.t)
  (orderPrefix : string) (i : nat) (participant : Participant.t) : SalesOrder.t :=
  let warehouseAddress := getWarehouseShippingAddress tourData in
  let lineItems := participantLineItems tourData i in
  let block :=
    addressBlock
      (JS.orElse (Participant.first_name participant) "Participant")
      (JS.orElse (Participant.last_name participant) (JS.toString (i + 1)))
      (JS.orElse (Participant.company participant) "")
      (JS.orElse (Participant.email participant)
                 ("participant" ++ JS.toString (i + 1) ++ "@demo.com"))
      warehouseAddress in
  SalesOrder.mk
    (orderPrefix ++ "-PARTICIPANT-" ++ JS.toString (i + 1))
    "Touring App" "pending" (Clock.toISOString clock)
    "0.00" (JS.toString (length lineItems * 10))
    "0.00" (JS.toString (length lineItems * 10))
    standardShipping block block lineItems (shipBy clock)
    ["participant"; "tour"].

(** [selected_skus[index]]; the callers guard against the empty list and
    reduce the index modulo the length. *)
Definition skuAt (tourData : TourData.t) (index : nat) : string :=
  nth index (TourData.selected_skus tourData) "undefined".

(** The one line item of a single-line demo order: [quantity] and
    [pending] are the two draws, in the order the literal evaluates them. *)
Definition singleLineItem (tourData : TourData.t) (linePrefix : string)
  (i quantity pending : nat) : LineItem.t :=
  let selectedSkuIndex := i mod length (TourData.selected_skus tourData) in
  LineItem.mk (skuAt tourData selectedSkuIndex) quantity "15.00"
    ("Product " ++ skuAt tourData selectedSkuIndex)
    (linePrefix ++ JS.toString (i + 1))
    "pending" pending
    (Warehouse.shiphero_warehouse_id (TourData.warehouse tourData)).

(** The order shared by the three single-line variants, which differ in
    the customer, the line prefix and the tags. *)
Definition singleLineOrderData (tourData : TourData.t) (clock : Clock.t)
  (orderPrefix linePrefix : string) (i quantity pending : nat)
  (first last email : string) (tags : list string) : SalesOrder.t :=
  let warehouseAddress := getWarehouseShippingAddress tourData in
  let lineItems := [singleLineItem tourData linePrefix i quantity pending] in
  let block := addressBlock first last "" email warehouseAddress in
  SalesOrder.mk
    (orderPrefix ++ "-" ++ JS.toString (i + 1))
    "Touring App" "pending" (Clock.toISOString clock)
    "0.00" (JS.toString (quantity * 15))
    "0.00" (JS.toString (quantity * 15))
    standardShipping block block lineItems (shipBy clock) tags.

(** [celebrities[i] || { first: "Demo", last: `Customer ${i + 1}` }]. *)
Definition celebrityAt (celebrities : list Celebrity.t) (i : nat) : Celebrity.t :=
  match nth_error celebrities i with
  | Some c => c
  | None => Celebrity.mk "Demo" ("Customer " ++ JS.toString (i + 1))
  end.

(** The e-mail address made of a celebrity's name, lowercased by the
    run time and with the white space of the last name removed. *)
Definition celebrityEmail (env : Env.t) (celebrity : Celebrity.t) : string :=
  Env.toLowerCase env (Celebrity.first celebrity) ++ "."
    ++ Env.removeWhiteSpace env (Env.toLowerCase env (Celebrity.last celebrity))
    ++ "@demo.com".

(** The order of [createDemoOrders] number [i]. *)
Definition demoOrderData (tourData : TourData.t) (env : Env.t)
  (orderPrefix : string) (i : nat) (celebrity : Celebrity.t)
  (quantity pending : nat) : SalesOrder.t :=
  singleLineOrderData tourData (Env.clock env) orderPrefix "line-" i
    quantity pending
    (Celebrity.first celebrity) (Celebrity.last celebrity)
    (celebrityEmail env celebrity) ["demo"; "celebrity"; "tour"].

(** The order of [createSimpleDemoOrders] number [i]. *)
Definition simpleDemoOrderData (tourData : TourData.t) (clock : Clock.t)
  (orderPrefix : string) (i quantity pending : nat) : SalesOrder.t :=
  singleLineOrderData tourData clock orderPrefix "line-" i quantity pending
    "Demo" ("Customer " ++ JS.toString (i + 1))
    ("demo.customer" ++ JS.toString (i + 1) ++ "@example.com")
    ["demo"; "simple"; "tour"].

(** The order of [createHostDemoOrders] number [i]. *)
Definition hostDemoOrderData (tourData : TourData.t) (clock : Clock.t)
  (orderPrefix : string) (i quantity pending : nat) : SalesOrder.t :=
  let host := TourData.host tourData in
  singleLineOrderData tourData clock orderPrefix "host-line-" i quantity pending
    (JS.orElse (Host.first_name host) "Host")
    (JS.orElse (JS.or (Host.last_name host) (Host.name host)) "Demo")
    ("host.demo" ++ JS.toString (i + 1) ++ "@example.com")
    ["demo"; "host"; "tour"].

(** Line [j] of multi-item demo order [i]. *)
Definition multiLineItem (tourData : TourData.t) (i j quantity pending : nat)
  : LineItem.t :=
  let skuIndex := (i + j) mod length (TourData.selected_skus tourData) in
  LineItem.mk (skuAt tourData skuIndex) quantity "12.00"
    ("Product " ++ skuAt tourData skuIndex)
    ("multi-line-" ++ JS.toString (i + 1) ++ "-" ++ JS.toString (j + 1))
    "pending" pending
    (Warehouse.shiphero_warehouse_id (TourData.warehouse tourData)).

(** [lineItems.reduce((sum, item) => sum + (item.quantity * 12), 0)]. *)
Definition reduceTimes12 (lineItems : list LineItem.t) : nat :=
  fold_left (fun sum item => sum + LineItem.quantity item * 12) lineItems 0.

(** The order of [createMultiItemDemoOrders] number [i]. *)
Definition multiItemOrderData (tourData : TourData.t) (env : Env.t)
  (orderPrefix : string) (i : nat) (celebrity : Celebrity.t)
  (lineItems : list LineItem.t) : SalesOrder.t :=
  let warehouseAddress := getWarehouseShippingAddress tourData in
  let clock := Env.clock env in
  let block :=
    addressBlock (Celebrity.first celebrity) (Celebrity.last celebrity) ""
                 (celebrityEmail env celebrity) warehouseAddress in
  SalesOrder.mk
    (orderPrefix ++ "-" ++ JS.toString (i + 1))
    "Touring App" "pending" (Clock.toISOString clock)
    "0.00" (JS.toString (reduceTimes12 lineItems))
    "0.00" (JS.toString (reduceTimes12 lineItems))
    standardShipping block block lineItems (shipBy clock)
    ["multi-item"; "celebrity"; "tour"].

(* ================================================================== *)
(** ** Batches and workflow handlers *)

Definition hasOrder (result : OrdersJson.t) : bool :=
  match OrdersJson.order result with Some _ => true | None => false end.

(** [results.filter(result => !result.data?.order_create?.order)]. *)
Definition failures (results : list OrdersJson.t) : list OrdersJson.t :=
  filter (fun result => negb (hasOrder result)) results.

(** [results.filter(result => result.data?.order_create?.order)]. *)
Definition successful (results : list OrdersJson.t) : list OrdersJson.t :=
  filter hasOrder results.

(** [successful.map(result => result.data.order_create.order)]. *)
Definition createdOrders (results : list OrdersJson.t) : list CreatedOrder :=
  flat_map (fun result =>
              match OrdersJson.order result with
              | Some order => [order]
              | None => []
              end)
           (successful results).

(** The end of every sales-order batch: wait for all the promises, keep
    the orders that were created. *)
Definition collectBatch (orderPromises : list (Settled OrdersJson.t))
  : M (list CreatedOrder) :=
  env <- ask ;;
  st <- get ;;
  results <- await (Promise_all (Env.race env (State.posts st))
                                orderPromises) ;;
  ret (createdOrders results).

Definition noSkus (tourData : TourData.t) : bool :=
  Nat.eqb (length (TourData.selected_skus tourData)) 0.

(** [createStandardReceivingPO]; the source's default for [workflowName]
    is ["STANDARD-RECEIVING"]. *)
Definition createStandardReceivingPO (tourData : TourData.t)
  (workflowName : string) : M unit :=
  if noSkus tourData then
    throw (Error ("No SKUs selected for " ++ workflowName
                  ++ " PO. Please select SKUs when creating the tour."))
  else
    env <- ask ;;
    let skusToUse := JS.slice0 6 (TourData.selected_skus tourData) in
    poLineItems <- forEach skusToUse
                     (fun sku => r <- randomBelow 10 ;; ret (sku, r + 5)) ;;
    let poData :=
      standardReceivingPOData tourData (Env.clock env) workflowName poLineItems in
    promise <- createPurchaseOrderViaAPI poData ;;
    data <- await promise ;;
    match OrdersJson.purchase_order data with
    | Some _ => ret tt
    | None =>
        throw (Error ("Failed to create " ++ workflowName ++ " PO: "
                      ++ JS.orElse (OrdersJson.first_error_message data)
                                   "Unknown error"))
    end.

(** [createParticipantOrders]. *)
Definition createParticipantOrders (tourData : TourData.t)
  (orderPrefix : string) : M (list CreatedOrder) :=
  if Nat.eqb (length (TourData.participants tourData)) 0 then ret []
  else if noSkus tourData then
    throw (Error "No SKUs selected for orders. Please select SKUs when creating the tour.")
  else
    env <- ask ;;
    orderPromises <-
      forEach (indexed (TourData.participants tourData))
        (fun p : nat * Participant.t =>
           createSalesOrderViaAPI
             (participantOrderData tourData (Env.clock env) orderPrefix
                                   (fst p) (snd p))) ;;
    collectBatch orderPromises.

(** [createDemoOrders]. *)
Definition createDemoOrders (tourData : TourData.t) (orderPrefix : string)
  (count : nat) : M (list CreatedOrder) :=
  if noSkus tourData then
    throw (Error "No SKUs selected for orders. Please select SKUs when creating the tour.")
  else
    env <- ask ;;
    let celebrities := Env.getCelebrityNames env count in
    orderPromises <-
      forEach (seq 0 count)
        (fun i =>
           let celebrity := celebrityAt celebrities i in
           quantity <- randomBelow 3 ;;
           pending <- randomBelow 3 ;;
           createSalesOrderViaAPI
             (demoOrderData tourData env orderPrefix i celebrity
                            (quantity + 1) (pending + 1))) ;;
    collectBatch orderPromises.

(** [createSimpleDemoOrders]; no handler calls it. *)
Definition createSimpleDemoOrders (tourData : TourData.t) (orderPrefix : string)
  (count : nat) : M (list CreatedOrder) :=
  if noSkus tourData then
    throw (Error "No SKUs selected for orders. Please select SKUs when creating the tour.")
  else
    env <- ask ;;
    orderPromises <-
      forEach (seq 0 count)
        (fun i =>
           quantity <- randomBelow 3 ;;
           pending <- randomBelow 3 ;;
           createSalesOrderViaAPI
             (simpleDemoOrderData tourData (Env.clock env) orderPrefix i
                                  (quantity + 1) (pending + 1))) ;;
    collectBatch orderPromises.

(** [createHostDemoOrders]. *)
Definition createHostDemoOrders (tourData : TourData.t) (orderPrefix : string)
  (count : nat) : M (list CreatedOrder) :=
  if noSkus tourData then
    throw (Error "No SKUs selected for orders. Please select SKUs when creating the tour.")
  else
    env <- ask ;;
    orderPromises <-
      forEach (seq 0 count)
        (fun i =>
           quantity <- randomBelow 3 ;;
           pending <- randomBelow 3 ;;
           createSalesOrderViaAPI
             (hostDemoOrderData tourData (Env.clock env) orderPrefix i
                                (quantity + 1) (pending + 1))) ;;
    collectBatch orderPromises.

(** [createMultiItemDemoOrders]. *)
Definition createMultiItemDemoOrders (tourData : TourData.t)
  (orderPrefix : string) (count : nat) : M (list CreatedOrder) :=
  if noSkus tourData then
    throw (Error "No SKUs selected for Multi-Item Demo Orders. Please select SKUs when creating the tour.")
  else
    env <- ask ;;
    let celebrities := Env.getCelebrityNames env count in
    orderPromises <-
      forEach (seq 0 count)
        (fun i =>
           let celebrity := celebrityAt celebrities i in
           r <- randomBelow 3 ;;
           let numItems :=
             Nat.min (r + 2) (length (TourData.selected_skus tourData)) in
           lineItems <-
             forEach (seq 0 numItems)
               (fun j =>
                  quantity <- randomBelow 3 ;;
                  pending <- randomBelow 3 ;;
                  ret (multiLineItem tourData i j (quantity + 1) (pending + 1))) ;;
           createSalesOrderViaAPI
             (multiItemOrderData tourData env orderPrefix i
                                 celebrity lineItems)) ;;
    collectBatch orderPromises.

(** MODULE 1: [createReceiveToLightWorkflowOrders], a purchase order only. *)
Definition createReceiveToLightWorkflowOrders (tourData : TourData.t) : M unit :=
  createStandardReceivingPO tourData "R2L".

(** MODULE 1b: [createPackToLightWorkflowOrders]. *)
Definition createPackToLightWorkflowOrders (tourData : TourData.t) : M unit :=
  participantOrders <- createParticipantOrders tourData "P2L" ;;
  (if Nat.eqb (length participantOrders) 0 then
     createHostDemoOrders tourData "P2L-HOST" 3 ;; ret tt
   else ret tt) ;;
  createStandardReceivingPO tourData "P2L".

(** MODULE 3: [createBulkShippingSOs]. *)
Definition createBulkShippingSOs (tourData : TourData.t) : M unit :=
  participantOrders <- createParticipantOrders tourData "BULK" ;;
  demoOrders <- createDemoOrders tourData "BULK-DEMO" 10 ;;
  ret tt.

(** MODULE 4: [createSingleItemBatchSOs]. *)
Definition createSingleItemBatchSOs (tourData : TourData.t) : M unit :=
  participantOrders <- createParticipantOrders tourData "SINGLE" ;;
  demoOrders <- createDemoOrders tourData "SINGLE-DEMO" 5 ;;
  ret tt.

(** MODULE 5: [createMultiItemBatchSOs]. *)
Definition createMultiItemBatchSOs (tourData : TourData.t) : M unit :=
  participantOrders <- createParticipantOrders tourData "MULTI" ;;
  demoOrders <- createMultiItemDemoOrders tourData "MULTI-DEMO" 5 ;;
  ret tt.

(* ================================================================== *)
(** ** The instruction guide

    [generateInstructionGuide] appends to [guide] one group of lines
    after the other; a group is a section of the guide.  The model keeps
    the sections apart and concatenates their texts at the end. *)

Inductive GuideSection :=
| TourOverview
| Welcome
| WarehouseOverview
| Demonstration (workflowCounter : nat) (w : WorkflowOption)
| DashboardDemo
| WrapUp
| FollowUp
| SuccessMetrics
| Products
| Footer.

Definition lines (ls : list string) : string := String.concat "" ls.

(** The text of the demonstration of workflow [w], numbered
    [workflowCounter].  The template has no demonstration for
    [standard_receiving]. *)
Definition demonstrationText (workflowCounter : nat) (w : WorkflowOption)
  : string :=
  match w with
  | receive_to_light =>
      lines
        [ "## 📦 DEMONSTRATION " ++ JS.toString workflowCounter ++ ": RECEIVE-TO-LIGHT (R2L)" ++ nl;
          "**Time:** 10 minutes | **Location:** Receiving area" ++ nl ++ nl;
          "### What to show:" ++ nl;
          "- **Light-guided receiving** - how lights direct workers to correct locations" ++ nl;
          "- **Accuracy improvements** - reduced errors with visual guidance" ++ nl;
          "- **Speed benefits** - faster putaway with directed workflows" ++ nl;
          "- **Real-time updates** - inventory updates as items are received" ++ nl ++ nl;
          "### Key talking points:" ++ nl;
          "- " ++ dq ++ "This system eliminates guesswork in receiving" ++ dq ++ nl;
          "- " ++ dq ++ "Lights guide workers to exact locations, reducing training time" ++ dq ++ nl;
          "- " ++ dq ++ "Real-time inventory updates prevent stock discrepancies" ++ dq ++ nl ++ nl ]
  | pack_to_light =>
      lines
        [ "## 📋 DEMONSTRATION " ++ JS.toString workflowCounter ++ ": PACK-TO-LIGHT (P2L)" ++ nl;
          "**Time:** 12 minutes | **Location:** Packing stations" ++ nl ++ nl;
          "### What to show:" ++ nl;
          "- **Order picking process** - how orders are selected and routed" ++ nl;
          "- **Light-guided packing** - lights indicate items and quantities" ++ nl;
          "- **Quality control** - built-in verification steps" ++ nl;
          "- **Shipping integration** - automatic label generation" ++ nl ++ nl;
          "### Key talking points:" ++ nl;
          "- " ++ dq ++ "Pack-to-Light reduces picking errors by up to 99.9%" ++ dq ++ nl;
          "- " ++ dq ++ "Workers can focus on speed while lights ensure accuracy" ++ dq ++ nl;
          "- " ++ dq ++ "Orders are automatically verified before shipping" ++ dq ++ nl ++ nl ]
  | multi_item_batch =>
      lines
        [ "## 🛒 DEMONSTRATION " ++ JS.toString workflowCounter ++ ": MULTI-ITEM BATCH PICKING" ++ nl;
          "**Time:** 10 minutes | **Location:** Pick zones" ++ nl ++ nl;
          "### What to show:" ++ nl;
          "- **Batch optimization** - multiple orders picked simultaneously" ++ nl;
          "- **Route efficiency** - optimal path through warehouse" ++ nl;
          "- **Order consolidation** - how items are sorted by destination" ++ nl;
          "- **Productivity metrics** - real-time performance tracking" ++ nl;
          "- **Random demonstration orders** - use system-generated sample orders" ++ nl ++ nl;
          "### Key talking points:" ++ nl;
          "- " ++ dq ++ "Batch picking increases productivity by 3-5x" ++ dq ++ nl;
          "- " ++ dq ++ "Smart routing reduces travel time by up to 50%" ++ dq ++ nl;
          "- " ++ dq ++ "System optimizes batches based on item locations" ++ dq ++ nl;
          "- " ++ dq ++ "Demonstration orders show real-world batch scenarios" ++ dq ++ nl ++ nl ]
  | single_item_batch =>
      lines
        [ "## 📦 DEMONSTRATION " ++ JS.toString workflowCounter ++ ": SINGLE-ITEM BATCH PICKING" ++ nl;
          "**Time:** 8 minutes | **Location:** High-volume pick area" ++ nl ++ nl;
          "### What to show:" ++ nl;
          "- **High-volume items** - how popular products are handled" ++ nl;
          "- **Dedicated workflows** - specialized processes for single SKUs" ++ nl;
          "- **Bulk handling** - efficient processing of large quantities" ++ nl;
          "- **Quality assurance** - verification for high-value items" ++ nl;
          "- **Random demonstration orders** - use system-generated sample orders" ++ nl ++ nl;
          "### Key talking points:" ++ nl;
          "- " ++ dq ++ "Single-item batching perfect for high-volume SKUs" ++ dq ++ nl;
          "- " ++ dq ++ "Reduces handling time for popular products" ++ dq ++ nl;
          "- " ++ dq ++ "Specialized workflow ensures consistency" ++ dq ++ nl;
          "- " ++ dq ++ "Sample orders demonstrate real batching scenarios" ++ dq ++ nl ++ nl ]
  | bulk_shipping =>
      lines
        [ "## 🚛 DEMONSTRATION " ++ JS.toString workflowCounter ++ ": BULK SHIPPING" ++ nl;
          "**Time:** 10 minutes | **Location:** Shipping dock" ++ nl ++ nl;
          "### What to show:" ++ nl;
          "- **Large order processing** - how big shipments are handled" ++ nl;
          "- **Carrier integration** - automatic shipping calculations" ++ nl;
          "- **Loading optimization** - efficient truck loading" ++ nl;
          "- **Tracking systems** - real-time shipment visibility" ++ nl;
          "- **Random demonstration orders** - use system-generated sample orders" ++ nl ++ nl;
          "### Key talking points:" ++ nl;
          "- " ++ dq ++ "Bulk shipping optimizes for large B2B orders" ++ dq ++ nl;
          "- " ++ dq ++ "System calculates best shipping methods automatically" ++ dq ++ nl;
          "- " ++ dq ++ "Real-time tracking keeps customers informed" ++ dq ++ nl;
          "- " ++ dq ++ "Sample orders show various shipping scenarios" ++ dq ++ nl ++ nl ]
  | standard_receiving => ""
  end.

Definition sectionText (tourData : TourData.t) (clock : Clock.t)
  (s : GuideSection) : string :=
  match s with
  | TourOverview =>
      lines
        [ "# 🎯 WAREHOUSE TOUR GUIDE" ++ nl ++ nl;
          "## 📋 Tour Overview" ++ nl;
          "**Date:** " ++ Clock.toLocaleDateString clock ++ nl;
          "**Warehouse:** " ++ Warehouse.name (TourData.warehouse tourData) ++ nl;
          "**Host:** " ++ template (Host.name (TourData.host tourData)) ++ nl;
          "**Participants:** " ++ JS.toString (length (TourData.participants tourData)) ++ nl;
          "**Duration:** Approximately 45-60 minutes" ++ nl ++ nl ]
  | Welcome =>
      lines
        [ "## 🚀 WELCOME & INTRODUCTION (5 minutes)" ++ nl;
          "1. **Welcome participants** and introduce yourself" ++ nl;
          "2. **Safety briefing** - warehouse safety rules and procedures" ++ nl;
          "3. **Tour overview** - explain what they'll see and experience" ++ nl;
          "4. **Q&A expectations** - encourage questions throughout" ++ nl ++ nl ]
  | WarehouseOverview =>
      lines
        [ "## 🏢 WAREHOUSE OVERVIEW (10 minutes)" ++ nl;
          "1. **Facility tour** - show the physical layout" ++ nl;
          "2. **Technology stack** - introduce ShipHero and warehouse systems" ++ nl;
          "3. **Daily operations** - explain typical workflow and volume" ++ nl;
          "4. **Team structure** - roles and responsibilities" ++ nl ++ nl ]
  | Demonstration workflowCounter w => demonstrationText workflowCounter w
  | DashboardDemo =>
      lines
        [ "## 💻 SHIPHERO DASHBOARD DEMO (8 minutes)" ++ nl;
          "**Location:** Office area or mobile device" ++ nl ++ nl;
          "### What to show:" ++ nl;
          "- **Real-time inventory** - live stock levels and locations" ++ nl;
          "- **Order management** - from receipt to fulfillment" ++ nl;
          "- **Analytics dashboard** - performance metrics and insights" ++ nl;
          "- **Mobile integration** - warehouse operations on mobile devices" ++ nl ++ nl;
          "### Key talking points:" ++ nl;
          "- " ++ dq ++ "Complete visibility into all warehouse operations" ++ dq ++ nl;
          "- " ++ dq ++ "Data-driven decisions with real-time analytics" ++ dq ++ nl;
          "- " ++ dq ++ "Mobile-first design for modern workforce" ++ dq ++ nl ++ nl ]
  | WrapUp =>
      lines
        [ "## 🤝 Q&A AND WRAP-UP (5-10 minutes)" ++ nl;
          "1. **Open discussion** - answer specific questions" ++ nl;
          "2. **Next steps** - how to get started with ShipHero" ++ nl;
          "3. **Contact information** - provide follow-up resources" ++ nl;
          "4. **Thank participants** - appreciate their time" ++ nl ++ nl ]
  | FollowUp =>
      lines
        [ "## 📞 FOLLOW-UP ACTIONS" ++ nl;
          "- [ ] Send thank you email with tour summary" ++ nl;
          "- [ ] Provide pricing and implementation timeline" ++ nl;
          "- [ ] Schedule follow-up demo if requested" ++ nl;
          "- [ ] Connect with technical team for detailed questions" ++ nl ++ nl ]
  | SuccessMetrics =>
      lines
        [ "## 🎯 KEY SUCCESS METRICS TO HIGHLIGHT" ++ nl;
          "- **99.9% accuracy** with light-guided systems" ++ nl;
          "- **50% reduction** in training time for new workers" ++ nl;
          "- **3-5x productivity** increase with batch picking" ++ nl;
          "- **Real-time visibility** into all operations" ++ nl;
          "- **Seamless integration** with existing systems" ++ nl ++ nl ]
  | Products =>
      lines
        [ "## 📦 PRODUCTS FOR DEMONSTRATION" ++ nl;
          "**Selected SKUs:** " ++ JS.join ", " (TourData.selected_skus tourData) ++ nl;
          "*Use these products throughout all demonstrations for consistency*" ++ nl ++ nl ]
  | Footer =>
      lines
        [ "---" ++ nl;
          "*Generated on: " ++ Clock.toLocaleString clock ++ "*" ++ nl;
          "*Tour ID: " ++ TourData.id tourData ++ "*" ++ nl ]
  end.

(** The two variables the template threads: the guide so far and the
    number of the next demonstration. *)
Module Guide.
Record t := mk {
  guide : list GuideSection;
  workflowCounter : nat
}.
End Guide.

(** One [if (selectedWorkflows.includes(w)) { guide += ...; workflowCounter++ }]. *)
Definition demonstrate (selectedWorkflows : list string) (w : WorkflowOption)
  (g : Guide.t) : Guide.t :=
  if JS.includes selectedWorkflows (workflowName w) then
    Guide.mk (Guide.guide g ++ [Demonstration (Guide.workflowCounter g) w])%list
             (S (Guide.workflowCounter g))
  else g.

(** The sections of the guide of [tourData], in the order of the text. *)
Definition guideSections (tourData : TourData.t) : list GuideSection :=
  let selectedWorkflows := TourData.selected_workflows tourData in
  let g := Guide.mk [TourOverview; Welcome; WarehouseOverview] 1 in
  let g := demonstrate selectedWorkflows receive_to_light g in
  let g := demonstrate selectedWorkflows pack_to_light g in
  let g := demonstrate selectedWorkflows multi_item_batch g in
  let g := demonstrate selectedWorkflows single_item_batch g in
  let g := demonstrate selectedWorkflows bulk_shipping g in
  (Guide.guide g
     ++ [DashboardDemo; WrapUp; FollowUp; SuccessMetrics; Products; Footer])%list.

Definition guideText (tourData : TourData.t) (clock : Clock.t) : string :=
  lines (map (sectionText tourData clock) (guideSections tourData)).

(** [generateInstructionGuide]: loads the tour again and renders it. *)
Definition generateInstructionGuide (tourId : string) : M string :=
  tourData <- getTourDetails tourId ;;
  env <- ask ;;
  ret (guideText tourData (Env.clock env)).

(** The demonstrations among the sections of a guide, with their numbers. *)
Definition demonstrations (sections : list GuideSection)
  : list (nat * WorkflowOption) :=
  flat_map (fun s => match s with
                     | Demonstration n w => [(n, w)]
                     | _ => []
                     end) sections.

(* ================================================================== *)
(** ** The orchestrator *)

Module SalesOrderSummary.
Record t := mk {
  order_number : string;
  workflow : string;
  customer_name : string;
  items : list (string * nat)
}.
End SalesOrderSummary.

Module PurchaseOrderSummary.
Record t := mk {
  po_number : string;
  workflow : string;
  items : list (string * nat)
}.
End PurchaseOrderSummary.

Module Finalization.
Record t := mk {
  tourId : string;
  tourDate : string;
  tourTime : string;
  warehouseName : string;
  warehouseAddress : string;
  hostName : string;
  selectedWorkflows : list WorkflowOption;
  selectedSkus : list string;
  participantCount : nat;
  sales_orders : list SalesOrderSummary.t;
  purchase_orders : list PurchaseOrderSummary.t;
  instructions : string
}.
End Finalization.

(** What [finalizeTour] resolves to. *)
Module FinalizeResult.
Record t := mk {
  success : bool;
  message : string;
  errors : list string;
  instructionGuide : option string;
  finalizationResult : option Finalization.t
}.
End FinalizeResult.

(** [s.split('T')[0]]. *)
Fixpoint beforeT (s : string) : string :=
  match s with
  | EmptyString => EmptyString
  | String c r => if Ascii.eqb c "T"%char then EmptyString else String c (beforeT r)
  end.

(** The [warehouseAddress] line of the finalization result. *)
Definition warehouseAddressLine (env : Env.t) (tourData : TourData.t)
  : string :=
  let address := Warehouse.address (TourData.warehouse tourData) in
  let line :=
    Env.trim env
            (JS.orElse (key address WarehouseAddress.address1) "" ++ " "
             ++ JS.orElse (key address WarehouseAddress.city) "" ++ " "
             ++ JS.orElse (key address WarehouseAddress.state) "" ++ " "
             ++ JS.orElse (key address WarehouseAddress.zip) "") in
  JS.orElse (Some line) "Address not available".

(** [const errors: string[] = []]. *)
Definition newErrors : M unit :=
  st <- get ;;
  put (State.mk (State.shipHero st) [] (State.draws st) (State.posts st) (State.reads st)).

(** One "Logic Block" of [finalizeTour]: the handler of a selected
    workflow is called inside its own try/catch, which turns what the
    handler throws into an entry of [errors]. *)
Definition logicBlock (selectedOptions : list WorkflowOption)
  (w : WorkflowOption) (label : string) (handler : M unit) : M unit :=
  if selects selectedOptions w then
    try_catch handler
              (fun error => pushError (label ++ " failed: " ++ messageOf error))
  else ret tt.

(** [successMessage]. *)
Definition successMessage (errors : list string) : string :=
  if Nat.ltb 0 (length errors) then
    "Tour finalized with " ++ JS.toString (length errors)
      ++ " workflow error(s). Instruction guide generated."
  else
    "Tour finalized successfully with all selected workflows. Instruction guide generated.".

(** [finalizeTour]: the main controller. *)
Definition finalizeTour (tourId : string) (selectedOptions : list WorkflowOption)
  : M FinalizeResult.t :=
  newErrors ;;
  try_catch
    (initializeShipHero ;;
     tourData <- getTourDetails tourId ;;
     logicBlock selectedOptions receive_to_light "Receive-to-Light Workflow"
       (createReceiveToLightWorkflowOrders tourData) ;;
     logicBlock selectedOptions pack_to_light "Pack-to-Light Workflow"
       (createPackToLightWorkflowOrders tourData) ;;
     logicBlock selectedOptions standard_receiving "Standard Receiving PO"
       (createStandardReceivingPO tourData "STANDARD-RECEIVING") ;;
     logicBlock selectedOptions bulk_shipping "Bulk Shipping SOs"
       (createBulkShippingSOs tourData) ;;
     logicBlock selectedOptions single_item_batch "Single-Item Batch SOs"
       (createSingleItemBatchSOs tourData) ;;
     logicBlock selectedOptions multi_item_batch "Multi-Item Batch SOs"
       (createMultiItemBatchSOs tourData) ;;
     instructionGuide <- generateInstructionGuide tourId ;;
     updateTourStatus tourId "finalized" ;;
     env <- ask ;;
     st <- get ;;
     let errors := State.errors st in
     let finalizationResult :=
       Finalization.mk
         (TourData.id tourData)
         (beforeT (Clock.toISOString (Env.clock env)))
         "10:00"
         (Warehouse.name (TourData.warehouse tourData))
         (warehouseAddressLine env tourData)
         (template (Host.first_name (TourData.host tourData)) ++ " "
            ++ template (Host.last_name (TourData.host tourData)))
         selectedOptions
         (TourData.selected_skus tourData)
         (length (TourData.participants tourData))
         [] []
         instructionGuide in
     ret (FinalizeResult.mk (Nat.eqb (length errors) 0)
                            (successMessage errors)
                            errors
                            (Some instructionGuide)
                            (Some finalizationResult)))
    (fun error =>
       let errorMsg := "Tour finalization failed: " ++ messageOf error in
       st <- get ;;
       ret (FinalizeResult.mk false errorMsg (errorMsg :: State.errors st)
                              None None)).

(* ================================================================== *)
(** ** Notions used by the statements *)

(** The writes of the tour status. *)
Definition statusWrites (events : list Event) : list (string * string) :=
  flat_map (fun e => match e with
                     | TourStatusUpdate tourId status => [(tourId, status)]
                     | _ => []
                     end) events.

(** The sales orders submitted. *)
Definition salesOrders (events : list Event) : list SalesOrder.t :=
  flat_map (fun e => match e with SalesOrderRequest d => [d] | _ => [] end) events.

(** The purchase orders submitted. *)
Definition purchaseOrders (events : list Event) : list PurchaseOrder.t :=
  flat_map (fun e => match e with PurchaseOrderRequest d => [d] | _ => [] end) events.

(** The order of the logic blocks of [finalizeTour]. *)
Definition executionOrder : list WorkflowOption :=
  [receive_to_light; pack_to_light; standard_receiving;
   bulk_shipping; single_item_batch; multi_item_batch].

(** The order of the demonstrations in the guide template. *)
Definition guideOrder : list WorkflowOption :=
  [receive_to_light; pack_to_light; multi_item_batch;
   single_item_batch; bulk_shipping].

(** Whether the session and the tour data are there, so that the logic
    blocks run. *)
Definition handlersRun (tourId : string) (env : Env.t) (st : State.t) : bool :=
  match Run.outcome (initializeShipHero env st),
        Run.outcome (getTourDetails tourId env st) with
  | Fulfilled _, Fulfilled _ => true
  | _, _ => false
  end.

(** Sum over the line items of quantity times unit price, in cents. *)
Fixpoint salesLinesTotal (lineItems : list LineItem.t) : option nat :=
  match lineItems with
  | [] => Some 0
  | item :: rest =>
      match amount (LineItem.price item), salesLinesTotal rest with
      | Some p, Some t => Some (LineItem.quantity item * p + t)
      | _, _ => None
      end
  end.

Fixpoint purchaseLinesTotal (lineItems : list POLineItem.t) : option nat :=
  match lineItems with
  | [] => Some 0
  | item :: rest =>
      match amount (POLineItem.price item), purchaseLinesTotal rest with
      | Some p, Some t => Some (POLineItem.quantity item * p + t)
      | _, _ => None
      end
  end.

(** [subtotal] and [total_price] are the same string, and read as the
    sum of the lines. *)
Definition salesTotalsConsistent (d : SalesOrder.t) : Prop :=
  SalesOrder.subtotal d = SalesOrder.total_price d /\
  exists total,
    amount (SalesOrder.subtotal d) = Some total /\
    amount (SalesOrder.total_price d) = Some total /\
    salesLinesTotal (SalesOrder.line_items d) = Some total.

Definition purchaseTotalsConsistent (d : PurchaseOrder.t) : Prop :=
  PurchaseOrder.subtotal d = PurchaseOrder.total_price d /\
  exists total,
    amount (PurchaseOrder.subtotal d) = Some total /\
    amount (PurchaseOrder.total_price d) = Some total /\
    purchaseLinesTotal (PurchaseOrder.line_items d) = Some total.

Definition totalsConsistent (e : Event) : Prop :=
  match e with
  | SalesOrderRequest d => salesTotalsConsistent d
  | PurchaseOrderRequest d => purchaseTotalsConsistent d
  | _ => True
  end.

(** The fixed part of a purchase-order line. *)
Definition fixedPOLine (item : POLineItem.t) : Prop :=
  POLineItem.price item = "0.00" /\
  POLineItem.product_name item = POLineItem.sku item /\
  POLineItem.quantity_received item = 0 /\
  POLineItem.quantity_rejected item = 0 /\
  POLineItem.vendor_id item = "1076735".

(** The fixed part of a purchase order. *)
Definition fixedPO (d : PurchaseOrder.t) : Prop :=
  PurchaseOrder.subtotal d = "0.00" /\
  PurchaseOrder.tax d = "0.00" /\
  PurchaseOrder.shipping_price d = "0.00" /\
  PurchaseOrder.total_price d = "0.00" /\
  PurchaseOrder.discount d = "0.00" /\
  PurchaseOrder.vendor_id d = "1076735" /\
  Forall fixedPOLine (PurchaseOrder.line_items d).

(** The answers of the orders endpoint to a batch of [n] sales orders
    submitted from state [st] on, as the transport helper settles them. *)
Definition batchAnswers (env : Env.t) (st : State.t) (n : nat)
  : list (Settled OrdersJson.t) :=
  map (fun k => settleResponse "sales order"
                  (Env.orders_endpoint env (State.posts st + k)))
      (seq 0 n).

(** What a sales-order batch resolves to, given the settled answers and
    which rejection arrives first. *)
Definition batchOutcome (first : nat) (answers : list (Settled OrdersJson.t))
  : Settled (list CreatedOrder) :=
  match Promise_all first answers with
  | Rejected error => Rejected error
  | Fulfilled results => Fulfilled (createdOrders results)
  end.

(** What the batch of [n] sales orders submitted from state [st] on
    resolves to. *)
Definition batchOf (env : Env.t) (st : State.t) (n : nat)
  : Settled (list CreatedOrder) :=
  batchOutcome (Env.race env (State.posts st + n)) (batchAnswers env st n).

(** The [k]-th draw of [Math.floor(Math.random() * 3) + 1] after [st]. *)
Definition draw3 (env : Env.t) (st : State.t) (k : nat) : nat :=
  Env.math_random env (State.draws st + k) mod 3 + 1.

(** [c] sends only requests that satisfy [P]. *)
Definition emits {A} (P : Event -> Prop) (c : M A) : Prop :=
  forall env st, Forall P (Run.events (c env st)).


(** [r] with [evs] sent before it. *)
Definition after {A} (evs : list Event) (r : Run.t A) : Run.t A :=
  Run.mk (Run.outcome r) (Run.final r) (evs ++ Run.events r)%list.

(** The body of the loop of the three single-line batches. *)
Definition singleLineBody (build : nat -> nat -> nat -> SalesOrder.t) (i : nat)
  : M (Settled OrdersJson.t) :=
  quantity <- randomBelow 3 ;;
  pending <- randomBelow 3 ;;
  createSalesOrderViaAPI (build i (quantity + 1) (pending + 1)).

(** The requests of a single-line batch of [n] orders sent from [st] on:
    order [k] takes the draws number [2k] and [2k+1]. *)
Definition singleLineRequests (build : nat -> nat -> nat -> SalesOrder.t)
  (env : Env.t) (st : State.t) (n : nat) : list Event :=
  map (fun k => SalesOrderRequest
                  (build k (draw3 env st (2 * k)) (draw3 env st (2 * k + 1))))
      (seq 0 n).

(** What [c] returns, when it returns, satisfies [Q]. *)
Definition returns {A} (Q : A -> Prop) (c : M A) : Prop :=
  forall env st a, Run.outcome (c env st) = Fulfilled a -> Q a.

(** [P] holds of every order the payload builders can produce. *)
Definition payloadsSatisfy (P : Event -> Prop) : Prop :=
  (forall tourData clock workflowName poLineItems,
      P (PurchaseOrderRequest
           (standardReceivingPOData tourData clock workflowName poLineItems))) /\
  (forall tourData clock orderPrefix i participant,
      P (SalesOrderRequest
           (participantOrderData tourData clock orderPrefix i participant))) /\
  (forall tourData clock orderPrefix linePrefix i quantity pending
          first last email tags,
      P (SalesOrderRequest
           (singleLineOrderData tourData clock orderPrefix linePrefix i
                                quantity pending first last email tags))) /\
  (forall tourData env orderPrefix i celebrity lineItems,
      Forall (fun item => LineItem.price item = "12.00") lineItems ->
      P (SalesOrderRequest
           (multiItemOrderData tourData env orderPrefix i celebrity lineItems))).

(** [P] holds of the requests that carry no order. *)
Definition controlSatisfy (P : Event -> Prop) : Prop :=
  (forall refresh_token, P (RefreshTokenRequest refresh_token)) /\
  (forall tourId status, P (TourStatusUpdate tourId status)).

(** The purchase orders among the requests are of the fixed shape. *)
Definition fixedPurchaseOrder (e : Event) : Prop :=
  match e with
  | PurchaseOrderRequest d => fixedPO d
  | _ => True
  end.

(** The requests of the session setup. *)
Definition sessionEvent (e : Event) : Prop :=
  match e with
  | RefreshTokenRequest _ => True
  | _ => False
  end.

(** What [finalizeTour] returns when it fails fast on [error]. *)
Definition failedFast (error : Thrown) : FinalizeResult.t :=
  FinalizeResult.mk false
    ("Tour finalization failed: " ++ messageOf error)
    ["Tour finalization failed: " ++ messageOf error]
    None None.

(** [c] submits one sales order: it returns the promise settled by the
    endpoint's next answer and keeps the session. *)
Definition submitsOne (token : string) (c : M (Settled OrdersJson.t)) : Prop :=
  forall env st,
    State.shipHero st = Some token ->
    Run.outcome (c env st)
    = Fulfilled (settleResponse "sales order"
                   (Env.orders_endpoint env (State.posts st))) /\
    State.posts (Run.final (c env st)) = S (State.posts st) /\
    State.shipHero (Run.final (c env st)) = Some token.

(** [c] only draws random numbers: it returns, sends nothing and touches
    no other part of the state. *)
Definition drawsOnly {A} (c : M A) : Prop :=
  forall env st,
  exists a draws,
    c env st
    = Run.mk (Fulfilled a)
             (State.mk (State.shipHero st) (State.errors st) draws
                       (State.posts st) (State.reads st))
             [].

(** What the purchase-order handler makes of the endpoint's answer. *)
Definition purchaseOutcome (workflowName : string)
  (answer : Settled OrdersJson.t) : Settled unit :=
  match answer with
  | Rejected error => Rejected error
  | Fulfilled data =>
      match OrdersJson.purchase_order data with
      | Some _ => Fulfilled tt
      | None =>
          Rejected (Error ("Failed to create " ++ workflowName ++ " PO: "
                           ++ JS.orElse (OrdersJson.first_error_message data)
                                        "Unknown error"))
      end
  end.

(** The demonstrations numbered from 1. *)
Definition numbered (ws : list WorkflowOption) : list (nat * WorkflowOption) :=
  combine (seq 1 (length ws)) ws.

(** Whether the guide of [tourData] demonstrates [w] as selected. *)
Definition selectedInTour (tourData : TourData.t) (w : WorkflowOption) : bool :=
  JS.includes (TourData.selected_workflows tourData) (workflowName w).

(* ================================================================== *)
(** ** A sample tour, for the concrete runs *)

Definition sampleClock : Clock.t :=
  Clock.mk "2025-09-14T23:13:35.000Z" "2025-09-21T23:13:35.000Z"
           "9/14/2025" "9/14/2025, 11:13:35 PM".

Definition sampleHost : Host.t :=
  Host.mk "h1" (Some "Ada Host") (Some "Ada") (Some "Host").

Definition sampleWarehouse : Warehouse.t :=
  Warehouse.mk "w1" "Main Warehouse" None "V2FyZWhvdXNlOjE=".

Definition sampleParticipants : list Participant.t :=
  [ Participant.mk "p1" (Some "Grace Hopper") (Some "Grace") (Some "Hopper")
                   (Some "grace@example.com") (Some "Navy") None;
    Participant.mk "p2" (Some "Alan Turing") (Some "Alan") (Some "Turing")
                   (Some "alan@example.com") None None ].

Definition sampleTour (workflows skus : list string)
  (participants : list Participant.t) : TourData.t :=
  TourData.mk "tour-1" sampleHost participants sampleWarehouse workflows skus.

(** Tables that hold the sample tour; [updateError] is what the update of
    the status answers. *)
Definition sampleSupabase (workflows skus : list string)
  (participants : list Participant.t) (updateError : option string)
  : Supabase.t :=
  Supabase.mk
    (fun _ id => QueryData (TourRow.mk id "w1" "h1" (Some workflows) (Some skus)))
    (fun _ _ => QueryData sampleWarehouse)
    (fun _ _ => QueryData sampleHost)
    (fun _ _ => QueryData (Some participants))
    (fun _ _ => updateError).

(** Three answers of the orders endpoint. *)
Definition orderCreated : Settled Response.t :=
  Fulfilled (Response.mk true 200 ""
               (OrdersJson.mk (Some "order") (Some "purchase order") None)).

Definition noOrderCreated : Settled Response.t :=
  Fulfilled (Response.mk true 200 ""
               (OrdersJson.mk None None (Some "Invalid SKU"))).

Definition serverError : Settled Response.t :=
  Fulfilled (Response.mk false 500 "Internal Server Error"
               (OrdersJson.mk None None None)).

Definition sampleEnv (refreshToken : option string) (db : Supabase.t)
  (orders_endpoint : nat -> Settled Response.t) : Env.t :=
  Env.mk true refreshToken (Fulfilled (TokenResponse.mk true "access")) db
         orders_endpoint (fun _ => 0) (fun n => n)
         (fun count => firstn count [Celebrity.mk "Tom" "Hanks";
                                     Celebrity.mk "Emma" "Stone"])
         JS.toLowerCase JS.stripSpaces JS.trim
         sampleClock.

(** A service object before its first finalization, and one in session. *)
Definition newService : State.t := State.mk None [] 0 0 0.
Definition inSession : State.t := State.mk (Some "access") [] 0 0 0.

Definition sampleSkus : list string := ["A"; "B"; "C"].

(** The sample tour with bulk shipping selected and two participants. *)
Definition bulkTour : TourData.t :=
  sampleTour ["bulk_shipping"] sampleSkus sampleParticipants.

Definition bulkEnv (orders_endpoint : nat -> Settled Response.t)
  (updateError : option string) : Env.t :=
  sampleEnv (Some "refresh")
    (sampleSupabase ["bulk_shipping"] sampleSkus sampleParticipants updateError)
    orders_endpoint.

(** An endpoint that creates every order, one that answers 500 to the
    request number [k] only, and one that answers 500 to all. *)
Definition alwaysCreated : nat -> Settled Response.t := fun _ => orderCreated.

Definition failsAt (k : nat) : nat -> Settled Response.t :=
  fun n => if Nat.eqb n k then serverError else orderCreated.

Definition alwaysFails : nat -> Settled Response.t := fun _ => serverError.



(** Tables in which the selected workflows of the tour are edited after
    the first load. *)
Definition editedSupabase : Supabase.t :=
  Supabase.mk
    (fun load id =>
       QueryData (TourRow.mk id "w1" "h1"
                    (Some (if Nat.eqb load 0 then ["bulk_shipping"]
                           else ["receive_to_light"]))
                    (Some sampleSkus)))
    (fun _ _ => QueryData sampleWarehouse)
    (fun _ _ => QueryData sampleHost)
    (fun _ _ => QueryData (Some sampleParticipants))
    (fun _ _ => None).

Definition editedEnv : Env.t :=
  sampleEnv (Some "refresh") editedSupabase alwaysCreated.

(** Two create calls that fail, the first with a 500 answer and the
    second on the way, and the environment in which the rejection
    number [first] arrives first. *)
Definition twoFailures : nat -> Settled Response.t :=
  fun n => if Nat.eqb n 0 then serverError
           else if Nat.eqb n 1 then Rejected (Error "network down")
           else orderCreated.

Definition racingEnv (first : nat) : Env.t :=
  Env.mk true (Some "refresh") (Fulfilled (TokenResponse.mk true "access"))
         (sampleSupabase ["bulk_shipping"] sampleSkus sampleParticipants None)
         twoFailures (fun _ => first) (fun n => n)
         (fun count => firstn count [Celebrity.mk "Tom" "Hanks";
                                     Celebrity.mk "Emma" "Stone"])
         JS.toLowerCase JS.stripSpaces JS.trim
         sampleClock.

(** A tour whose workflows were selected in an order of their own. *)
Definition mixedTour : TourData.t :=
  sampleTour ["bulk_shipping"; "multi_item_batch"; "standard_receiving"]
             sampleSkus sampleParticipants.

(** The quantity and the pending quantity of each line of an order. *)
Definition quantities (d : SalesOrder.t) : list (nat * nat) :=
  map (fun item => (LineItem.quantity item,
                    LineItem.quantity_pending_fulfillment item))
      (SalesOrder.line_items d).

(** The number of lines of an order. *)
Definition lineCount (d : SalesOrder.t) : nat :=
  length (SalesOrder.line_items d).

(** [env] with another random generator. *)
Definition withRandom (env : Env.t) (math_random : nat -> nat) : Env.t :=
  Env.mk (Env.window_defined env) (Env.shiphero_refresh_token env)
         (Env.refresh_token_endpoint env) (Env.supabase env)
         (Env.orders_endpoint env) (Env.race env) math_random
         (Env.getCelebrityNames env)
         (Env.toLowerCase env) (Env.removeWhiteSpace env) (Env.trim env)
         (Env.clock env).

(* ================================================================== *)
(** ** Notions for the further properties of the service *)

(** The six logic blocks of [finalizeTour], in a row. *)
Definition logicBlocks (tourData : TourData.t)
  (selectedOptions : list WorkflowOption) : M unit :=
  logicBlock selectedOptions receive_to_light "Receive-to-Light Workflow"
    (createReceiveToLightWorkflowOrders tourData) ;;
  logicBlock selectedOptions pack_to_light "Pack-to-Light Workflow"
    (createPackToLightWorkflowOrders tourData) ;;
  logicBlock selectedOptions standard_receiving "Standard Receiving PO"
    (createStandardReceivingPO tourData "STANDARD-RECEIVING") ;;
  logicBlock selectedOptions bulk_shipping "Bulk Shipping SOs"
    (createBulkShippingSOs tourData) ;;
  logicBlock selectedOptions single_item_batch "Single-Item Batch SOs"
    (createSingleItemBatchSOs tourData) ;;
  logicBlock selectedOptions multi_item_batch "Multi-Item Batch SOs"
    (createMultiItemBatchSOs tourData).

(** The label under which [finalizeTour] reports the failure of a workflow. *)
Definition workflowLabel (w : WorkflowOption) : string :=
  match w with
  | receive_to_light => "Receive-to-Light Workflow"
  | pack_to_light => "Pack-to-Light Workflow"
  | standard_receiving => "Standard Receiving PO"
  | bulk_shipping => "Bulk Shipping SOs"
  | single_item_batch => "Single-Item Batch SOs"
  | multi_item_batch => "Multi-Item Batch SOs"
  end.

(** The [finalizationResult] literal of [finalizeTour]. *)
Definition finalizationOf (tourData : TourData.t) (env : Env.t)
  (selectedOptions : list WorkflowOption) (instructionGuide : string)
  : Finalization.t :=
  Finalization.mk
    (TourData.id tourData)
    (beforeT (Clock.toISOString (Env.clock env)))
    "10:00"
    (Warehouse.name (TourData.warehouse tourData))
    (warehouseAddressLine env tourData)
    (template (Host.first_name (TourData.host tourData)) ++ " "
       ++ template (Host.last_name (TourData.host tourData)))
    selectedOptions
    (TourData.selected_skus tourData)
    (length (TourData.participants tourData))
    [] []
    instructionGuide.

(** What the outer [catch] of [finalizeTour] returns for [error], with
    [errors] collected so far. *)
Definition failedWith (error : Thrown) (errors : list string)
  : FinalizeResult.t :=
  FinalizeResult.mk false
    ("Tour finalization failed: " ++ messageOf error)
    (("Tour finalization failed: " ++ messageOf error) :: errors)
    None None.

(** What [finalizeTour] returns after the logic blocks left [errors] and
    the tour was loaded again as [reloaded] for the guide, according to
    what the update of the status answered. *)
Definition finalized (tourId : string) (tourData reloaded : TourData.t)
  (env : Env.t) (selectedOptions : list WorkflowOption)
  (errors : list string) : FinalizeResult.t :=
  match Supabase.update_tours_status (Env.supabase env) tourId "finalized" with
  | None =>
      FinalizeResult.mk (Nat.eqb (length errors) 0) (successMessage errors)
        errors
        (Some (guideText reloaded (Env.clock env)))
        (Some (finalizationOf tourData env selectedOptions
                 (guideText reloaded (Env.clock env))))
  | Some m =>
      failedWith (Error ("Failed to update tour status: " ++ m)) errors
  end.

(** What [finalizeTour] returns after the logic blocks, according to what
    loading the tour again gave. *)
Definition concluded (tourId : string) (tourData : TourData.t)
  (again : Settled TourData.t) (env : Env.t)
  (selectedOptions : list WorkflowOption) (errors : list string)
  : FinalizeResult.t :=
  match again with
  | Rejected error => failedWith error errors
  | Fulfilled reloaded =>
      finalized tourId tourData reloaded env selectedOptions errors
  end.

(** The update of the status is requested when the guide was generated. *)
Definition statusRequest (tourId : string) (again : Settled TourData.t)
  : list Event :=
  match again with
  | Rejected _ => []
  | Fulfilled _ => [TourStatusUpdate tourId "finalized"]
  end.

(** The state of the service after one more load of a tour. *)
Definition nextLoad (st : State.t) : State.t :=
  State.mk (State.shipHero st) (State.errors st) (State.draws st)
           (State.posts st) (S (State.reads st)).

(** What loading the tour a second time gives, after a first load from
    [st]: this is the load of [generateInstructionGuide]. *)
Definition reload (tourId : string) (env : Env.t) (st : State.t)
  : Settled TourData.t :=
  Run.outcome (getTourDetails tourId env (nextLoad st)).

(** The handler that [finalizeTour] calls for the workflow [w]. *)
Definition handlerOf (tourData : TourData.t) (w : WorkflowOption) : M unit :=
  match w with
  | receive_to_light => createReceiveToLightWorkflowOrders tourData
  | pack_to_light => createPackToLightWorkflowOrders tourData
  | standard_receiving => createStandardReceivingPO tourData "STANDARD-RECEIVING"
  | bulk_shipping => createBulkShippingSOs tourData
  | single_item_batch => createSingleItemBatchSOs tourData
  | multi_item_batch => createMultiItemBatchSOs tourData
  end.

(** The entry of [errors] for the handler of [w], by what the handler
    did: none when it returned. *)
Definition entryOf (w : WorkflowOption) (outcome : Settled unit)
  : list string :=
  match outcome with
  | Rejected error => [workflowLabel w ++ " failed: " ++ messageOf error]
  | Fulfilled _ => []
  end.

(** The state after the try/catch around the handler of [w], which ran
    as [r]. *)
Definition afterBlock (w : WorkflowOption) (r : Run.t unit) : State.t :=
  match Run.outcome r with
  | Rejected error =>
      State.mk (State.shipHero (Run.final r))
               (State.errors (Run.final r)
                  ++ [(workflowLabel w ++ " failed: " ++ messageOf error)%string])%list
               (State.draws (Run.final r)) (State.posts (Run.final r))
               (State.reads (Run.final r))
  | Fulfilled _ => Run.final r
  end.

(** The handlers of the workflows [ws] run one after the other, each from
    the state the try/catch of the one before left: their runs, in that
    order, and the state after the last. *)
Fixpoint handlerRuns (tourData : TourData.t) (ws : list WorkflowOption)
  (env : Env.t) (st : State.t) : list (WorkflowOption * Run.t unit) :=
  match ws with
  | [] => []
  | w :: rest =>
      (w, handlerOf tourData w env st)
        :: handlerRuns tourData rest env
             (afterBlock w (handlerOf tourData w env st))
  end.

Fixpoint afterBlocks (tourData : TourData.t) (ws : list WorkflowOption)
  (env : Env.t) (st : State.t) : State.t :=
  match ws with
  | [] => st
  | w :: rest =>
      afterBlocks tourData rest env
        (afterBlock w (handlerOf tourData w env st))
  end.

(** The requests and the error entries of a sequence of handler runs. *)
Definition requestsOf (runs : list (WorkflowOption * Run.t unit))
  : list Event :=
  flat_map (fun run => Run.events (snd run)) runs.

Definition entriesOf (runs : list (WorkflowOption * Run.t unit))
  : list string :=
  flat_map (fun run => entryOf (fst run) (Run.outcome (snd run))) runs.

(** The workflows [finalizeTour] runs for [selectedOptions], in the order
    of its logic blocks. *)
Definition selectedHandlers (selectedOptions : list WorkflowOption)
  : list WorkflowOption :=
  filter (selects selectedOptions) executionOrder.

(** The access token that the session setup stores. *)
Definition accessToken (env : Env.t) : string :=
  match Env.refresh_token_endpoint env with
  | Rejected _ => ""
  | Fulfilled tokenResponse => TokenResponse.access_token tokenResponse
  end.

(** The state in which the first logic block runs, once the session is
    set up and the tour is loaded: no error yet, the new token, one more
    load. *)
Definition atHandlers (env : Env.t) (st : State.t) : State.t :=
  State.mk (Some (accessToken env)) [] (State.draws st) (State.posts st)
           (S (State.reads st)).

(** The logic blocks of the workflows [ws], in a row. *)
Fixpoint runBlocks (tourData : TourData.t)
  (selectedOptions : list WorkflowOption) (ws : list WorkflowOption)
  : M unit :=
  match ws with
  | [] => ret tt
  | w :: rest =>
      logicBlock selectedOptions w (workflowLabel w) (handlerOf tourData w) ;;
      runBlocks tourData selectedOptions rest
  end.

(** The handler runs of a finalization: those of the selected workflows
    when the session and the tour data are there, none otherwise. *)
Definition ranHandlers (tourId : string) (selectedOptions : list WorkflowOption)
  (env : Env.t) (st : State.t) : list (WorkflowOption * Run.t unit) :=
  match Run.outcome (initializeShipHero env st),
        Run.outcome (getTourDetails tourId env st) with
  | Fulfilled _, Fulfilled tourData =>
      handlerRuns tourData (selectedHandlers selectedOptions) env
                  (atHandlers env st)
  | _, _ => []
  end.

(** What a finalization requests after the logic blocks. *)
Definition statusTail (tourId : string) (env : Env.t) (st : State.t)
  : list Event :=
  if handlersRun tourId env st then statusRequest tourId (reload tourId env st)
  else [].

(** The state after [n] more create calls. *)
Definition posted (n : nat) (st : State.t) : State.t :=
  State.mk (State.shipHero st) (State.errors st) (State.draws st)
           (State.posts st + n) (State.reads st).

(** What a handler with two batches in a row makes of them: it throws
    what the first rejected batch throws. *)
Definition twoBatches (participantOrders demoOrders : Settled (list CreatedOrder))
  : Settled unit :=
  match participantOrders with
  | Rejected error => Rejected error
  | Fulfilled _ =>
      match demoOrders with
      | Rejected error => Rejected error
      | Fulfilled _ => Fulfilled tt
      end
  end.

(** What the pack-to-light handler makes of the batch of its [n]
    participant orders, of the batch of host orders that it sends when
    no participant order was created, and of its purchase order. *)
Definition packToLightOutcome (env : Env.t) (st : State.t) (n : nat)
  : Settled unit :=
  match batchOf env st n with
  | Rejected error => Rejected error
  | Fulfilled participantOrders =>
      if Nat.eqb (length participantOrders) 0 then
        match batchOf env (posted n st) 3 with
        | Rejected error => Rejected error
        | Fulfilled _ =>
            purchaseOutcome "P2L"
              (settleResponse "purchase order"
                 (Env.orders_endpoint env (State.posts st + n + 3)))
        end
      else
        purchaseOutcome "P2L"
          (settleResponse "purchase order"
             (Env.orders_endpoint env (State.posts st + n)))
  end.

(** [c] leaves the part [f] of the state as it was. *)
Definition keeps {A X} (f : State.t -> X) (c : M A) : Prop :=
  forall env st, f (Run.final (c env st)) = f st.

(** The session token, the error list and the number of loads. *)
Definition session (st : State.t) : option string * list string * nat :=
  (State.shipHero st, State.errors st, State.reads st).

(** The message of the handler of [w] when no SKU is selected. *)
Definition noSkuCause (tourData : TourData.t) (w : WorkflowOption) : string :=
  match w with
  | receive_to_light =>
      "No SKUs selected for R2L PO. Please select SKUs when creating the tour."
  | standard_receiving =>
      "No SKUs selected for STANDARD-RECEIVING PO. Please select SKUs when creating the tour."
  | multi_item_batch =>
      match TourData.participants tourData with
      | [] => "No SKUs selected for Multi-Item Demo Orders. Please select SKUs when creating the tour."
      | _ => "No SKUs selected for orders. Please select SKUs when creating the tour."
      end
  | _ => "No SKUs selected for orders. Please select SKUs when creating the tour."
  end.

(** In session [token], [c] returns and leaves the session and the error
    list as they were. *)
Definition quiet {A} (env : Env.t) (token : string) (c : M A) : Prop :=
  forall st,
    State.shipHero st = Some token ->
    session (Run.final (c env st)) = session st /\
    exists a, Run.outcome (c env st) = Fulfilled a.

(** Every answer of the orders endpoint is an ok response, and carries a
    purchase order. *)
Definition answersOk (env : Env.t) : Prop :=
  forall n, exists response po,
    Env.orders_endpoint env n = Fulfilled response /\
    Response.ok response = true /\
    OrdersJson.purchase_order (Response.json response) = Some po.

(** The sample tour with no SKU selected, and the tables that hold it. *)
Definition noSkuTour : TourData.t :=
  sampleTour ["bulk_shipping"] [] sampleParticipants.

Definition noSkuEnv : Env.t :=
  sampleEnv (Some "refresh")
    (sampleSupabase ["bulk_shipping"] [] sampleParticipants None)
    alwaysCreated.

(** Tables in which the tour row cannot be read. *)
Definition missingTourEnv : Env.t :=
  sampleEnv (Some "refresh")
    (Supabase.mk (fun _ _ => QueryError "Row not found")
                 (fun _ _ => QueryData sampleWarehouse)
                 (fun _ _ => QueryData sampleHost)
                 (fun _ _ => QueryData (Some sampleParticipants))
                 (fun _ _ => None))
    alwaysCreated.

(** An endpoint whose answers are ok but carry no sales order. *)
Definition onlyPurchaseOrders : nat -> Settled Response.t :=
  fun _ => Fulfilled (Response.mk true 200 ""
                        (OrdersJson.mk None (Some "purchase order") None)).

(** A line of a sales order of the tour [tourData]: one of the selected
    SKUs, from the tour's warehouse, in quantities the handlers draw. *)
Definition wellFormedLine (tourData : TourData.t) (item : LineItem.t) : Prop :=
  In (LineItem.sku item) (TourData.selected_skus tourData) /\
  1 <= LineItem.quantity item <= 3 /\
  1 <= LineItem.quantity_pending_fulfillment item <= 3 /\
  LineItem.product_name item = "Product " ++ LineItem.sku item /\
  LineItem.fulfillment_status item = "pending" /\
  LineItem.warehouse_id item
  = Warehouse.shiphero_warehouse_id (TourData.warehouse tourData).

(** The address block [a] carries the street address [w]. *)
Definition shipsTo (a : Address.t) (w : ShipTo.t) : Prop :=
  Address.address1 a = ShipTo.address1 w /\
  Address.address2 a = ShipTo.address2 w /\
  Address.city a = ShipTo.city w /\
  Address.state a = ShipTo.state w /\
  Address.zip a = ShipTo.zip w /\
  Address.country a = ShipTo.country w /\
  Address.phone a = ShipTo.phone w.

Definition wellFormedSalesOrder (tourData : TourData.t) (d : SalesOrder.t)
  : Prop :=
  1 <= lineCount d <= 4 /\
  Forall (wellFormedLine tourData) (SalesOrder.line_items d) /\
  SalesOrder.billing_address d = SalesOrder.shipping_address d /\
  shipsTo (SalesOrder.shipping_address d)
          (getWarehouseShippingAddress tourData).

Definition wellFormedPOLine (tourData : TourData.t) (item : POLineItem.t)
  : Prop :=
  In (POLineItem.sku item) (TourData.selected_skus tourData) /\
  5 <= POLineItem.quantity item <= 14.

Definition wellFormedPurchaseOrder (tourData : TourData.t)
  (d : PurchaseOrder.t) : Prop :=
  1 <= length (PurchaseOrder.line_items d) <= 6 /\
  map POLineItem.sku (PurchaseOrder.line_items d)
  = firstn 6 (TourData.selected_skus tourData) /\
  Forall (wellFormedPOLine tourData) (PurchaseOrder.line_items d) /\
  PurchaseOrder.warehouse_id d
  = Warehouse.shiphero_warehouse_id (TourData.warehouse tourData).

(** The orders among the requests are well formed for [tourData]. *)
Definition wellFormed (tourData : TourData.t) (e : Event) : Prop :=
  match e with
  | SalesOrderRequest d => wellFormedSalesOrder tourData d
  | PurchaseOrderRequest d => wellFormedPurchaseOrder tourData d
  | _ => True
  end.

(** The fields of a street address that the carrier needs are filled in. *)
Definition complete (w : ShipTo.t) : Prop :=
  ShipTo.address1 w <> "" /\
  ShipTo.city w <> "" /\
  ShipTo.state w <> "" /\
  ShipTo.zip w <> "" /\
  ShipTo.country w <> "" /\
  ShipTo.phone w <> "".

(** A column of the warehouse row is blank when it is missing, null or
    the empty string. *)
Definition blank (column : option string) : Prop :=
  column = None \/ column = Some "".

(** [value] is what the column holds, or [default] when it is blank. *)
Definition takes (column : option string) (default value : string) : Prop :=
  (forall s, column = Some s -> s <> "" -> value = s) /\
  (blank column -> value = default).

(** The SKUs of the lines of a sales order, in line order. *)
Definition lineSkus (d : SalesOrder.t) : list string :=
  map LineItem.sku (SalesOrder.line_items d).

(** [n] consecutive selected SKUs, counted round from position [i]. *)
Definition roundFrom (tourData : TourData.t) (i n : nat) : list string :=
  map (fun j => skuAt tourData
                  ((i + j) mod length (TourData.selected_skus tourData)))
      (seq 0 n).

(** The shape of a multi-item demo order: numbered from the prefix, with
    two to four lines as far as the selection goes, for consecutive
    SKUs, each at 12.00. *)
Definition multiItemShape (tourData : TourData.t) (orderPrefix : string)
  (d : SalesOrder.t) : Prop :=
  Nat.min 2 (length (TourData.selected_skus tourData)) <= lineCount d /\
  lineCount d <= Nat.min 4 (length (TourData.selected_skus tourData)) /\
  Forall (fun item => LineItem.price item = "12.00")
         (SalesOrder.line_items d) /\
  exists i,
    SalesOrder.order_number d = orderPrefix ++ "-" ++ JS.toString (i + 1) /\
    lineSkus d = roundFrom tourData i (lineCount d).

(** The sales orders among the requests satisfy [P]. *)
Definition salesSatisfy (P : SalesOrder.t -> Prop) (e : Event) : Prop :=
  match e with
  | SalesOrderRequest d => P d
  | _ => True
  end.

(** A warehouse row whose address has only empty strings. *)
Definition blankAddress : WarehouseAddress.t :=
  WarehouseAddress.mk (Some "") (Some "") None (Some "") None (Some "") None
                      (Some "").

(** The sample tour with the address columns blank. *)
Definition blankAddressTour : TourData.t :=
  TourData.mk "tour-1" sampleHost sampleParticipants
    (Warehouse.mk "w1" "Main Warehouse" (Some blankAddress) "V2FyZWhvdXNlOjE=")
    ["bulk_shipping"] sampleSkus.

(* ================================================================== *)
(** ** Order numbers *)

(** [l] is [L] with some of its elements left out. *)
Inductive Subseq {A : Type} : list A -> list A -> Prop :=
| Subseq_nil : Subseq [] []
| Subseq_skip (x : A) (l L : list A) : Subseq l L -> Subseq l (x :: L)
| Subseq_take (x : A) (l L : list A) : Subseq l L -> Subseq (x :: l) (x :: L).

(** The number of the sales order, or of the purchase order, that a
    request carries. *)
Definition salesNumber (e : Event) : list string :=
  match e with
  | SalesOrderRequest d => [SalesOrder.order_number d]
  | _ => []
  end.

Definition purchaseNumber (e : Event) : list string :=
  match e with
  | PurchaseOrderRequest d => [PurchaseOrder.po_number d]
  | _ => []
  end.

(** The numbers of the orders [c] sends in [env] are among [L], in that
    order. *)
Definition within {A} (env : Env.t) (key : Event -> list string)
  (L : list string) (c : M A) : Prop :=
  forall st, Subseq (flat_map key (Run.events (c env st))) L.

(** The numbers [createParticipantOrders] gives under [orderPrefix], and
    those of a demo batch of [count] orders. *)
Definition participantNumbers (tourData : TourData.t) (orderPrefix : string)
  : list string :=
  map (fun i => orderPrefix ++ "-PARTICIPANT-" ++ JS.toString (i + 1))
      (seq 0 (length (TourData.participants tourData))).

Definition demoNumbers (orderPrefix : string) (count : nat) : list string :=
  map (fun i => orderPrefix ++ "-" ++ JS.toString (i + 1)) (seq 0 count).

(** All the sales-order numbers a finalization of [tourData] can send,
    in the order of the handlers. *)
Definition salesNumbers (tourData : TourData.t) : list string :=
  (participantNumbers tourData "P2L" ++ demoNumbers "P2L-HOST" 3
   ++ participantNumbers tourData "BULK" ++ demoNumbers "BULK-DEMO" 10
   ++ participantNumbers tourData "SINGLE" ++ demoNumbers "SINGLE-DEMO" 5
   ++ participantNumbers tourData "MULTI" ++ demoNumbers "MULTI-DEMO" 5)%list.

(** The purchase-order number of workflow [workflowName]. *)
Definition purchaseNumberOf (tourData : TourData.t) (clock : Clock.t)
  (workflowName : string) : string :=
  workflowName ++ "-" ++ template (Host.name (TourData.host tourData))
    ++ "-" ++ today clock.

Definition purchaseNumbers (tourData : TourData.t) (clock : Clock.t)
  : list string :=
  map (purchaseNumberOf tourData clock) ["R2L"; "P2L"; "STANDARD-RECEIVING"].

(* ================================================================== *)
(** ** The list of tours: pages *)

Definition ITEMS_PER_PAGE : nat := 10.

(** [xs.slice(start, end)] for indices that are not negative. *)
Definition slice {A} (start end_ : nat) (xs : list A) : list A :=
  firstn (end_ - start) (skipn start xs).

(** [Math.ceil(filteredTours.length / ITEMS_PER_PAGE)]. *)
Definition totalPages {T} (filteredTours : list T) : nat :=
  (length filteredTours + (ITEMS_PER_PAGE - 1)) / ITEMS_PER_PAGE.

Definition startIndex (currentPage : nat) : nat :=
  (currentPage - 1) * ITEMS_PER_PAGE.

Definition endIndex (currentPage : nat) : nat :=
  startIndex currentPage + ITEMS_PER_PAGE.

Definition currentTours {T} (filteredTours : list T) (currentPage : nat)
  : list T :=
  slice (startIndex currentPage) (endIndex currentPage) filteredTours.

(** The two numbers of the line [Showing a to b of n tours]. *)
Definition showingFrom (currentPage : nat) : nat := startIndex currentPage + 1.

Definition showingTo {T} (filteredTours : list T) (currentPage : nat) : nat :=
  Nat.min (endIndex currentPage) (length filteredTours).

(** The buttons of the pagination bar. *)
Inductive Click :=
| Previous
| Next
| PageButton (page : nat).

(** The bar is rendered when [totalPages > 1]; Previous is disabled on
    page 1, Next on the last page, and there is one numbered button for
    each of the pages 1 to [totalPages]. *)
Definition enabled {T} (filteredTours : list T) (currentPage : nat)
  (c : Click) : bool :=
  Nat.ltb 1 (totalPages filteredTours) &&
  match c with
  | Previous => negb (Nat.eqb currentPage 1)
  | Next => negb (Nat.eqb currentPage (totalPages filteredTours))
  | PageButton page =>
      Nat.leb 1 page && Nat.leb page (totalPages filteredTours)
  end.

(** [currentPage] after a click; a button that is not there or is
    disabled does nothing. *)
Definition click {T} (filteredTours : list T) (currentPage : nat) (c : Click)
  : nat :=
  if enabled filteredTours currentPage c then
    match c with
    | Previous => currentPage - 1
    | Next => currentPage + 1
    | PageButton page => page
    end
  else currentPage.

(* ================================================================== *)
(** ** The order-details route *)

(** [s.replace(pattern, replacement)] for a string pattern: the first
    occurrence only. *)
Fixpoint dropPrefix (pattern s : string) : option string :=
  match pattern with
  | EmptyString => Some s
  | String a pattern' =>
      match s with
      | EmptyString => None
      | String b s' => if Ascii.eqb a b then dropPrefix pattern' s' else None
      end
  end.

Fixpoint replaceFirst (pattern replacement s : string) : string :=
  match dropPrefix pattern s with
  | Some rest => replacement ++ rest
  | None =>
      match s with
      | EmptyString => EmptyString
      | String c s' => String c (replaceFirst pattern replacement s')
      end
  end.

(** A JSON member that may be absent or null. *)
Inductive Member (A : Type) :=
| Absent
| Null
| Present (a : A).
Arguments Absent {A}.
Arguments Null {A}.
Arguments Present {A} a.

Module GraphQLError.
Record t := mk { message : option string }.
End GraphQLError.

(** The answer of the GraphQL endpoint, a JSON object: [errors] and
    [data], and in [data] the order, serialized. *)
Module GraphQLResult.
Record t := mk {
  errors : option (list GraphQLError.t);
  data : Member (option string)
}.
End GraphQLResult.

Module Upstream.
Record t := mk {
  ok : bool;
  status : nat;
  statusText : string;
  json : Settled GraphQLResult.t
}.
End Upstream.

(** [headers.get] gives a header value without the white space (tab,
    line feed, carriage return, space) at its two ends. *)
Definition isHTTPWhitespace (c : ascii) : bool :=
  let n := nat_of_ascii c in
  Nat.eqb n 9 || Nat.eqb n 10 || Nat.eqb n 13 || Nat.eqb n 32.

Fixpoint stripLeading (s : string) : string :=
  match s with
  | EmptyString => EmptyString
  | String c r => if isHTTPWhitespace c then stripLeading r else s
  end.

Fixpoint stripTrailing (s : string) : string :=
  match s with
  | EmptyString => EmptyString
  | String c r =>
      match stripTrailing r with
      | EmptyString => if isHTTPWhitespace c then EmptyString
                       else String c EmptyString
      | r' => String c r'
      end
  end.

Definition normalize (value : string) : string :=
  stripTrailing (stripLeading value).

(** What the route reads of the request: the authorization header, sent
    as [Authorization] and read as [authorization], and the [order_id]
    search parameter. *)
Module Request.
Record t := mk {
  Authorization : option string;
  order_id : option string
}.
Definition authorization (request : t) : option string :=
  option_map normalize (Authorization request).
End Request.

(** The POST to the GraphQL endpoint. *)
Module GraphQLCall.
Record t := mk {
  url : string;
  Authorization : string;
  query : string
}.
End GraphQLCall.

(** The bodies of the route's answers. *)
Inductive Body :=
| ErrorBody (error : string)
| ErrorDetailsBody (error : string) (details : string)
| GraphQLErrorsBody (errors : list GraphQLError.t) (message : option string)
| OrderBody (order : option string).

Module Reply.
Record t := mk { body : Body; status : nat }.
End Reply.

(** The query of the route for [orderId]. *)
Definition orderQuery (orderId : string) : string :=
  nl ++ "      query {" ++ nl
  ++ "        order(id: " ++ dq ++ orderId ++ dq ++ ") {" ++ nl
  ++ "          id" ++ nl
  ++ "          order_number" ++ nl
  ++ "          fulfillment_status" ++ nl
  ++ "          line_items(first: 20) {" ++ nl
  ++ "            edges {" ++ nl
  ++ "              node {" ++ nl
  ++ "                id" ++ nl
  ++ "                sku" ++ nl
  ++ "                quantity" ++ nl
  ++ "                quantity_pending_fulfillment" ++ nl
  ++ "                fulfillment_status" ++ nl
  ++ "                product_name" ++ nl
  ++ "              }" ++ nl
  ++ "            }" ++ nl
  ++ "          }" ++ nl
  ++ "        }" ++ nl
  ++ "      }" ++ nl
  ++ "    ".

(** The [catch] of the route. *)
Definition internalServerError (error : Thrown) : Reply.t :=
  Reply.mk (ErrorDetailsBody "Internal server error" (messageOf error)) 500.

(** [GET]: the answer of the route and the calls it made upstream, given
    what [fetch] answers. *)
Definition GET (request : Request.t)
  (fetch : GraphQLCall.t -> Settled Upstream.t)
  : Reply.t * list GraphQLCall.t :=
  let accessToken :=
    option_map (replaceFirst "Bearer " "") (Request.authorization request) in
  if negb (JS.truthy accessToken) then
    (Reply.mk (ErrorBody "Access token required") 401, [])
  else
    let orderId := Request.order_id request in
    if negb (JS.truthy orderId) then
      (Reply.mk (ErrorBody "order_id parameter required") 400, [])
    else
      let call :=
        GraphQLCall.mk "https://public-api.shiphero.com/graphql"
          ("Bearer " ++ JS.orElse accessToken "")
          (orderQuery (JS.orElse orderId "")) in
      (match fetch call with
       | Rejected error => internalServerError error
       | Fulfilled response =>
           if negb (Upstream.ok response) then
             internalServerError
               (Error ("HTTP " ++ JS.toString (Upstream.status response) ++ ": "
                       ++ Upstream.statusText response))
           else
             match Upstream.json response with
             | Rejected error => internalServerError error
             | Fulfilled result =>
                 match GraphQLResult.errors result with
                 | Some (first :: rest) =>
                     Reply.mk (GraphQLErrorsBody (first :: rest)
                                 (GraphQLError.message first)) 400
                 | _ =>
                     match GraphQLResult.data result with
                     | Present order => Reply.mk (OrderBody order) 200
                     | Absent =>
                         internalServerError
                           (Error "Cannot read properties of undefined (reading 'order')")
                     | Null =>
                         internalServerError
                           (Error "Cannot read properties of null (reading 'order')")
                     end
                 end
             end
       end, [call]).

(** An upstream that finds the order, and a request for it. *)
Definition orderFound (call : GraphQLCall.t) : Settled Upstream.t :=
  Fulfilled (Upstream.mk true 200 "OK"
               (Fulfilled (GraphQLResult.mk None (Present (Some "order"))))).

Definition sampleRequest : Request.t :=
  Request.mk (Some "Bearer secret") (Some "T3JkZXI6MQ==").

(* ================================================================== *)
(** ** Amounts read back *)

Lemma to_uint_not_Nil (n : nat) : Nat.to_uint n <> Nil.
Proof.
  intro E.
  assert (H : n = 0) by (rewrite <- (Unsigned.of_to n), E; reflexivity).
  subst n. discriminate E.
Qed.

Lemma digits_toString (n : nat) : digits (JS.toString n) = Some n.
Proof.
  unfold digits, JS.toString.
  pose proof (to_uint_not_Nil n) as Hn.
  pose proof (NilEmpty.usu (Nat.to_uint n)) as Hu.
  pose proof (Unsigned.of_to n) as Ho.
  destruct (Nat.to_uint n); try congruence;
    simpl in *; rewrite Hu; simpl; now rewrite Ho.
Qed.

Lemma splitDot_string_of_uint (d : uint) :
  splitDot (NilEmpty.string_of_uint d) = (NilEmpty.string_of_uint d, None).
Proof.
  induction d; simpl; try rewrite IHd; reflexivity.
Qed.

Lemma amount_toString (n : nat) : amount (JS.toString n) = Some (100 * n).
Proof.
  unfold amount.
  replace (splitDot (JS.toString n)) with (JS.toString n, @None string)
    by (symmetry; apply splitDot_string_of_uint).
  now rewrite digits_toString.
Qed.

Lemma amount_10 : amount "10.00" = Some 1000.
Proof. reflexivity. Qed.

Lemma amount_12 : amount "12.00" = Some 1200.
Proof. reflexivity. Qed.

Lemma amount_15 : amount "15.00" = Some 1500.
Proof. reflexivity. Qed.

Lemma amount_0 : amount "0.00" = Some 0.
Proof. reflexivity. Qed.

(* ================================================================== *)
(** ** Totals of the payloads *)

Lemma salesLinesTotal_participant (tourData : TourData.t) (i : nat) :
  salesLinesTotal (participantLineItems tourData i)
  = Some (100 * (length (participantLineItems tourData i) * 10)).
Proof.
  unfold participantLineItems.
  induction (indexed (JS.slice0 3 (TourData.selected_skus tourData)))
    as [|[index sku] rest IH].
  - reflexivity.
  - cbn [map salesLinesTotal LineItem.price LineItem.quantity length].
    rewrite amount_10, IH. f_equal. lia.
Qed.

Lemma participantOrderData_totals tourData clock orderPrefix i participant :
  salesTotalsConsistent
    (participantOrderData tourData clock orderPrefix i participant).
Proof.
  split; [reflexivity|].
  exists (100 * (length (participantLineItems tourData i) * 10)).
  cbn [participantOrderData SalesOrder.subtotal SalesOrder.total_price
       SalesOrder.line_items].
  repeat split;
    [apply amount_toString | apply amount_toString
    | apply salesLinesTotal_participant].
Qed.

Lemma singleLineOrderData_totals tourData clock orderPrefix linePrefix
  i quantity pending first last email tags :
  salesTotalsConsistent
    (singleLineOrderData tourData clock orderPrefix linePrefix i quantity
                         pending first last email tags).
Proof.
  split; [reflexivity|].
  exists (100 * (quantity * 15)).
  cbn [singleLineOrderData SalesOrder.subtotal SalesOrder.total_price
       SalesOrder.line_items].
  repeat split; try apply amount_toString.
  cbn [salesLinesTotal singleLineItem LineItem.price LineItem.quantity].
  rewrite amount_15. f_equal. lia.
Qed.

Lemma fold_times12 (lineItems : list LineItem.t) (acc : nat) :
  fold_left (fun sum item => sum + LineItem.quantity item * 12) lineItems acc
  = acc + reduceTimes12 lineItems.
Proof.
  unfold reduceTimes12.
  revert acc.
  induction lineItems as [|item rest IH]; intro acc; simpl.
  - lia.
  - rewrite IH, (IH (LineItem.quantity item * 12)). lia.
Qed.

Lemma salesLinesTotal_12 (lineItems : list LineItem.t) :
  Forall (fun item => LineItem.price item = "12.00") lineItems ->
  salesLinesTotal lineItems = Some (100 * reduceTimes12 lineItems).
Proof.
  induction 1 as [|item rest Hp _ IH].
  - reflexivity.
  - cbn [salesLinesTotal]. rewrite Hp, amount_12, IH. f_equal.
    unfold reduceTimes12 at 2. cbn [fold_left]. rewrite fold_times12. lia.
Qed.

Lemma multiItemOrderData_totals tourData env orderPrefix i celebrity lineItems :
  Forall (fun item => LineItem.price item = "12.00") lineItems ->
  salesTotalsConsistent
    (multiItemOrderData tourData env orderPrefix i celebrity lineItems).
Proof.
  intro Hp.
  split; [reflexivity|].
  exists (100 * reduceTimes12 lineItems).
  cbn [multiItemOrderData SalesOrder.subtotal SalesOrder.total_price
       SalesOrder.line_items].
  repeat split; try apply amount_toString.
  now apply salesLinesTotal_12.
Qed.

Lemma standardReceivingPOData_lines tourData clock workflowName poLineItems :
  purchaseLinesTotal
    (PurchaseOrder.line_items
       (standardReceivingPOData tourData clock workflowName poLineItems))
  = Some 0.
Proof.
  cbn [standardReceivingPOData PurchaseOrder.line_items].
  induction poLineItems as [|item rest IH].
  - reflexivity.
  - cbn [map purchaseLinesTotal POLineItem.price POLineItem.quantity].
    rewrite amount_0, IH. f_equal. lia.
Qed.

Lemma standardReceivingPOData_totals tourData clock workflowName poLineItems :
  purchaseTotalsConsistent
    (standardReceivingPOData tourData clock workflowName poLineItems).
Proof.
  split; [reflexivity|].
  exists 0. repeat split; try reflexivity.
  apply standardReceivingPOData_lines.
Qed.

Lemma standardReceivingPOData_fixed tourData clock workflowName poLineItems :
  fixedPO (standardReceivingPOData tourData clock workflowName poLineItems).
Proof.
  unfold fixedPO, standardReceivingPOData; cbn.
  repeat split.
  apply Forall_forall. intros item Hin.
  apply in_map_iff in Hin. destruct Hin as [[sku quantity] [<- _]].
  repeat split.
Qed.

(* ================================================================== *)
(** ** Laws of the monad *)

Lemma after_nil {A} (r : Run.t A) : after [] r = r.
Proof. now destruct r. Qed.

(** When the first computation returns, [bind] continues from its state. *)
Lemma bind_returns {A B} (c : M A) (k : A -> M B) env st a st' evs :
  c env st = Run.mk (Fulfilled a) st' evs ->
  bind c k env st = after evs (k a env st').
Proof. intro H. unfold bind. now rewrite H. Qed.

(** When it throws, so does [bind]. *)
Lemma bind_throws {A B} (c : M A) (k : A -> M B) env st error st' evs :
  c env st = Run.mk (Rejected error) st' evs ->
  bind c k env st = Run.mk (Rejected error) st' evs.
Proof. intro H. unfold bind. now rewrite H. Qed.

Lemma bind_ret {A B} (a : A) (k : A -> M B) env st :
  bind (ret a) k env st = k a env st.
Proof. erewrite bind_returns; [apply after_nil | reflexivity]. Qed.

Lemma bind_ask {B} (k : Env.t -> M B) env st :
  bind ask k env st = k env env st.
Proof. erewrite bind_returns; [apply after_nil | reflexivity]. Qed.

Lemma bind_get {B} (k : State.t -> M B) env st :
  bind get k env st = k st env st.
Proof. erewrite bind_returns; [apply after_nil | reflexivity]. Qed.

Lemma bind_put {B} (st' : State.t) (k : unit -> M B) env st :
  bind (put st') k env st = k tt env st'.
Proof. erewrite bind_returns; [apply after_nil | reflexivity]. Qed.

Lemma bind_emit {B} (e : Event) (k : unit -> M B) env st :
  bind (emit e) k env st = after [e] (k tt env st).
Proof. erewrite bind_returns; reflexivity. Qed.

Lemma bind_throw {A B} (error : Thrown) (k : A -> M B) env st :
  bind (throw error) k env st = Run.mk (Rejected error) st [].
Proof. reflexivity. Qed.

Lemma bind_assoc {A B C} (c : M A) (k : A -> M B) (h : B -> M C) env st :
  bind (bind c k) h env st = bind c (fun a => bind (k a) h) env st.
Proof.
  unfold bind.
  destruct (c env st) as [[error|a] st' evs]; cbn; [reflexivity|].
  destruct (k a env st') as [[error|b] st'' evs']; cbn; [reflexivity|].
  now rewrite app_assoc.
Qed.

Lemma randomBelow_run (n : nat) env st :
  randomBelow n env st
  = Run.mk (Fulfilled (Env.math_random env (State.draws st) mod n))
           (State.mk (State.shipHero st) (State.errors st)
                     (S (State.draws st)) (State.posts st) (State.reads st))
           [].
Proof. reflexivity. Qed.

Lemma createSalesOrderViaAPI_run (orderData : SalesOrder.t) env st token :
  State.shipHero st = Some token ->
  createSalesOrderViaAPI orderData env st
  = Run.mk (Fulfilled (settleResponse "sales order"
                         (Env.orders_endpoint env (State.posts st))))
           (State.mk (Some token) (State.errors st) (State.draws st)
                     (S (State.posts st)) (State.reads st))
           [SalesOrderRequest orderData].
Proof.
  intro H. destruct st as [shipHero errors draws posts].
  cbn in H. subst shipHero. reflexivity.
Qed.

Lemma createPurchaseOrderViaAPI_run (poData : PurchaseOrder.t) env st token :
  State.shipHero st = Some token ->
  createPurchaseOrderViaAPI poData env st
  = Run.mk (Fulfilled (settleResponse "purchase order"
                         (Env.orders_endpoint env (State.posts st))))
           (State.mk (Some token) (State.errors st) (State.draws st)
                     (S (State.posts st)) (State.reads st))
           [PurchaseOrderRequest poData].
Proof.
  intro H. destruct st as [shipHero errors draws posts].
  cbn in H. subst shipHero. reflexivity.
Qed.

(* ================================================================== *)
(** ** What a computation sends *)

Section Emits.
Variable P : Event -> Prop.

Lemma emits_ret {A} (a : A) : emits P (ret a).
Proof. intros env st. constructor. Qed.

Lemma emits_throw {A} (error : Thrown) : emits P (@throw A error).
Proof. intros env st. constructor. Qed.

Lemma emits_ask : emits P ask.
Proof. intros env st. constructor. Qed.

Lemma emits_get : emits P get.
Proof. intros env st. constructor. Qed.

Lemma emits_put (st' : State.t) : emits P (put st').
Proof. intros env st. constructor. Qed.

Lemma emits_emit (e : Event) : P e -> emits P (emit e).
Proof. intros H env st. now repeat constructor. Qed.

Lemma emits_await {A} (p : Settled A) : emits P (await p).
Proof. destruct p; [apply emits_throw | apply emits_ret]. Qed.

Lemma emits_bind {A B} (c : M A) (k : A -> M B) :
  emits P c -> (forall a, emits P (k a)) -> emits P (bind c k).
Proof.
  intros Hc Hk env st. unfold bind.
  specialize (Hc env st).
  destruct (c env st) as [[error|a] st' evs]; cbn in *; [assumption|].
  apply Forall_app. split; [assumption | apply Hk].
Qed.

Lemma emits_try_catch {A} (c : M A) (handler : Thrown -> M A) :
  emits P c -> (forall error, emits P (handler error)) ->
  emits P (try_catch c handler).
Proof.
  intros Hc Hh env st. unfold try_catch.
  specialize (Hc env st).
  destruct (c env st) as [[error|a] st' evs]; cbn in *; [|assumption].
  apply Forall_app. split; [assumption | apply Hh].
Qed.

Lemma emits_forEach {A B} (xs : list A) (body : A -> M B) :
  (forall x, emits P (body x)) -> emits P (forEach xs body).
Proof.
  intro Hb. induction xs as [|x rest IH]; cbn [forEach].
  - apply emits_ret.
  - apply emits_bind; [apply Hb | intro b].
    apply emits_bind; [apply IH | intro bs]. apply emits_ret.
Qed.

Lemma emits_randomBelow (n : nat) : emits P (randomBelow n).
Proof. intros env st. rewrite randomBelow_run. constructor. Qed.

Lemma emits_pushError (errorMsg : string) : emits P (pushError errorMsg).
Proof. intros env st. constructor. Qed.

Lemma emits_newErrors : emits P newErrors.
Proof. intros env st. constructor. Qed.

Lemma emits_collectBatch (orderPromises : list (Settled OrdersJson.t)) :
  emits P (collectBatch orderPromises).
Proof.
  unfold collectBatch.
  apply emits_bind; [apply emits_ask | intro env].
  apply emits_bind; [apply emits_get | intro st].
  apply emits_bind; [apply emits_await | intro; apply emits_ret].
Qed.

Lemma emits_getTourDetails (tourId : string) : emits P (getTourDetails tourId).
Proof.
  intros env st. unfold getTourDetails. rewrite bind_ask, bind_get, bind_put.
  destruct (Supabase.tours _ _ _); [constructor|].
  destruct (Supabase.warehouses _ _ _); [constructor|].
  destruct (Supabase.team_members _ _ _); [constructor|].
  destruct (Supabase.tour_participants _ _ _); constructor.
Qed.

Lemma emits_createSalesOrderViaAPI (orderData : SalesOrder.t) :
  P (SalesOrderRequest orderData) -> emits P (createSalesOrderViaAPI orderData).
Proof.
  intros H env st. unfold createSalesOrderViaAPI. rewrite bind_get.
  destruct (State.shipHero st) as [token|] eqn:E; [|constructor].
  pose proof (createSalesOrderViaAPI_run orderData env st E) as R.
  unfold createSalesOrderViaAPI in R. rewrite bind_get, E in R.
  rewrite R. now repeat constructor.
Qed.

Lemma emits_createPurchaseOrderViaAPI (poData : PurchaseOrder.t) :
  P (PurchaseOrderRequest poData) ->
  emits P (createPurchaseOrderViaAPI poData).
Proof.
  intros H env st. unfold createPurchaseOrderViaAPI. rewrite bind_get.
  destruct (State.shipHero st) as [token|] eqn:E; [|constructor].
  pose proof (createPurchaseOrderViaAPI_run poData env st E) as R.
  unfold createPurchaseOrderViaAPI in R. rewrite bind_get, E in R.
  rewrite R. now repeat constructor.
Qed.

End Emits.

(** Splits a goal [emits P c] along the structure of [c], leaving the
    requests themselves. *)
Ltac emits_step :=
  first
    [ apply emits_ret | apply emits_throw | apply emits_ask | apply emits_get
    | apply emits_put | apply emits_await | apply emits_randomBelow
    | apply emits_pushError | apply emits_newErrors | apply emits_collectBatch
    | apply emits_getTourDetails
    | apply emits_bind; [|intro]
    | apply emits_try_catch; [|intro]
    | apply emits_forEach; intro
    | apply emits_createSalesOrderViaAPI
    | apply emits_createPurchaseOrderViaAPI
    | apply emits_emit
    | match goal with
      | |- emits _ (if ?b then _ else _) => destruct b
      | |- emits _ (match ?x with _ => _ end) => destruct x
      end ].

Ltac emits_tac := repeat emits_step.

Lemma emits_bind_returns {A B} (P : Event -> Prop) (Q : A -> Prop)
  (c : M A) (k : A -> M B) :
  emits P c -> returns Q c -> (forall a, Q a -> emits P (k a)) ->
  emits P (bind c k).
Proof.
  intros Hc Hq Hk env st. unfold bind.
  specialize (Hc env st). specialize (Hq env st).
  destruct (c env st) as [[error|a] st' evs]; cbn in *; [assumption|].
  apply Forall_app. split; [assumption | now apply Hk, Hq].
Qed.

Lemma returns_forEach {A B} (Q : B -> Prop) (xs : list A) (body : A -> M B) :
  (forall x, returns Q (body x)) -> returns (Forall Q) (forEach xs body).
Proof.
  intro Hb. induction xs as [|x rest IH]; intros env st bs; cbn [forEach].
  - cbn. intros [= <-]. constructor.
  - unfold bind.
    specialize (Hb x env st).
    destruct (body x env st) as [[error|b] st' evs]; cbn in *; [discriminate|].
    specialize (IH env st').
    destruct (forEach rest body env st') as [[error|bs'] st'' evs']; cbn in *;
      [discriminate|].
    intros [= <-]. constructor; auto.
Qed.

Lemma returns_multiLine tourData i j :
  returns (fun item => LineItem.price item = "12.00")
    (quantity <- randomBelow 3 ;;
     pending <- randomBelow 3 ;;
     ret (multiLineItem tourData i j (quantity + 1) (pending + 1))).
Proof.
  intros env st item.
  erewrite bind_returns by apply randomBelow_run.
  erewrite bind_returns by apply randomBelow_run.
  cbn. intros [= <-]. reflexivity.
Qed.

(* ================================================================== *)
(** ** What the handlers send *)

Section HandlersEmit.
Variable P : Event -> Prop.
Hypothesis HP : payloadsSatisfy P.

Lemma emits_createStandardReceivingPO tourData workflowName :
  emits P (createStandardReceivingPO tourData workflowName).
Proof.
  unfold createStandardReceivingPO. emits_tac. apply HP.
Qed.

Lemma emits_createParticipantOrders tourData orderPrefix :
  emits P (createParticipantOrders tourData orderPrefix).
Proof.
  unfold createParticipantOrders. emits_tac. apply HP.
Qed.

Lemma emits_createDemoOrders tourData orderPrefix count :
  emits P (createDemoOrders tourData orderPrefix count).
Proof.
  unfold createDemoOrders. emits_tac. apply HP.
Qed.

Lemma emits_createSimpleDemoOrders tourData orderPrefix count :
  emits P (createSimpleDemoOrders tourData orderPrefix count).
Proof.
  unfold createSimpleDemoOrders. emits_tac. apply HP.
Qed.

Lemma emits_createHostDemoOrders tourData orderPrefix count :
  emits P (createHostDemoOrders tourData orderPrefix count).
Proof.
  unfold createHostDemoOrders. emits_tac. apply HP.
Qed.

Lemma emits_createMultiItemDemoOrders tourData orderPrefix count :
  emits P (createMultiItemDemoOrders tourData orderPrefix count).
Proof.
  unfold createMultiItemDemoOrders.
  destruct (noSkus tourData); [apply emits_throw|].
  apply emits_bind; [apply emits_ask | intro env].
  apply emits_bind; [|intro; apply emits_collectBatch].
  apply emits_forEach. intro i.
  apply emits_bind; [apply emits_randomBelow | intro r].
  apply emits_bind_returns
    with (Q := Forall (fun item => LineItem.price item = "12.00")).
  - emits_tac.
  - apply returns_forEach. intro j. apply returns_multiLine.
  - intros lineItems Hl. apply emits_createSalesOrderViaAPI. now apply HP.
Qed.

Lemma emits_createReceiveToLightWorkflowOrders tourData :
  emits P (createReceiveToLightWorkflowOrders tourData).
Proof. apply emits_createStandardReceivingPO. Qed.

Lemma emits_createPackToLightWorkflowOrders tourData :
  emits P (createPackToLightWorkflowOrders tourData).
Proof.
  unfold createPackToLightWorkflowOrders.
  apply emits_bind; [apply emits_createParticipantOrders | intro orders].
  apply emits_bind; [|intro; apply emits_createStandardReceivingPO].
  destruct (Nat.eqb (length orders) 0); [|apply emits_ret].
  apply emits_bind; [apply emits_createHostDemoOrders | intro; apply emits_ret].
Qed.

Lemma emits_createBulkShippingSOs tourData :
  emits P (createBulkShippingSOs tourData).
Proof.
  unfold createBulkShippingSOs.
  apply emits_bind; [apply emits_createParticipantOrders | intro].
  apply emits_bind; [apply emits_createDemoOrders | intro; apply emits_ret].
Qed.

Lemma emits_createSingleItemBatchSOs tourData :
  emits P (createSingleItemBatchSOs tourData).
Proof.
  unfold createSingleItemBatchSOs.
  apply emits_bind; [apply emits_createParticipantOrders | intro].
  apply emits_bind; [apply emits_createDemoOrders | intro; apply emits_ret].
Qed.

Lemma emits_createMultiItemBatchSOs tourData :
  emits P (createMultiItemBatchSOs tourData).
Proof.
  unfold createMultiItemBatchSOs.
  apply emits_bind; [apply emits_createParticipantOrders | intro].
  apply emits_bind;
    [apply emits_createMultiItemDemoOrders | intro; apply emits_ret].
Qed.

Hypothesis HC : controlSatisfy P.

Lemma emits_logicBlock selectedOptions w label (handler : M unit) :
  emits P handler -> emits P (logicBlock selectedOptions w label handler).
Proof.
  intro Hh. unfold logicBlock.
  destruct (selects selectedOptions w); [|apply emits_ret].
  apply emits_try_catch; [exact Hh | intro; apply emits_pushError].
Qed.

Lemma emits_initializeShipHero : emits P initializeShipHero.
Proof.
  unfold initializeShipHero. emits_tac. apply HC.
Qed.

Lemma emits_updateTourStatus tourId status :
  emits P (updateTourStatus tourId status).
Proof.
  unfold updateTourStatus. emits_tac. apply HC.
Qed.

Lemma emits_generateInstructionGuide tourId :
  emits P (generateInstructionGuide tourId).
Proof.
  unfold generateInstructionGuide. emits_tac.
Qed.

Lemma emits_finalizeTour tourId selectedOptions :
  emits P (finalizeTour tourId selectedOptions).
Proof.
  unfold finalizeTour.
  apply emits_bind; [apply emits_newErrors | intro].
  apply emits_try_catch; [|intro; emits_tac].
  apply emits_bind; [apply emits_initializeShipHero | intro].
  apply emits_bind; [apply emits_getTourDetails | intro tourData].
  apply emits_bind;
    [apply emits_logicBlock, emits_createReceiveToLightWorkflowOrders | intro].
  apply emits_bind;
    [apply emits_logicBlock, emits_createPackToLightWorkflowOrders | intro].
  apply emits_bind;
    [apply emits_logicBlock, emits_createStandardReceivingPO | intro].
  apply emits_bind;
    [apply emits_logicBlock, emits_createBulkShippingSOs | intro].
  apply emits_bind;
    [apply emits_logicBlock, emits_createSingleItemBatchSOs | intro].
  apply emits_bind;
    [apply emits_logicBlock, emits_createMultiItemBatchSOs | intro].
  apply emits_bind; [apply emits_generateInstructionGuide | intro].
  apply emits_bind; [apply emits_updateTourStatus | intro].
  emits_tac.
Qed.

End HandlersEmit.

Lemma payloadsSatisfy_totalsConsistent : payloadsSatisfy totalsConsistent.
Proof.
  repeat split; intros; cbn [totalsConsistent].
  - apply standardReceivingPOData_totals.
  - apply participantOrderData_totals.
  - apply singleLineOrderData_totals.
  - now apply multiItemOrderData_totals.
Qed.

Lemma payloadsSatisfy_fixedPurchaseOrder : payloadsSatisfy fixedPurchaseOrder.
Proof.
  repeat split; intros; cbn [fixedPurchaseOrder]; try exact I.
  apply standardReceivingPOData_fixed.
Qed.


(* ================================================================== *)
(** ** Batches *)

Lemma rejections_values {A} (results : list A) :
  rejections (map Fulfilled results) = [] /\
  values (map Fulfilled results) = results.
Proof.
  unfold rejections, values.
  induction results as [|r rest [IH1 IH2]]; [now split|].
  cbn. rewrite IH1, IH2. now split.
Qed.

Lemma rejections_none {A} (ps : list (Settled A)) :
  rejections ps = [] -> ps = map Fulfilled (values ps).
Proof.
  unfold rejections, values.
  induction ps as [|[error|a] rest IH]; cbn; [reflexivity | discriminate |].
  intro H. now rewrite <- IH.
Qed.

Lemma rejections_In {A} (ps : list (Settled A)) (error : Thrown) :
  In error (rejections ps) <-> In (Rejected error) ps.
Proof.
  unfold rejections. rewrite in_flat_map. split.
  - intros ([e|a] & Hin & H); cbn in H; [|contradiction].
    destruct H as [->|[]]. exact Hin.
  - intro Hin. exists (Rejected error). split; [exact Hin | now left].
Qed.

Lemma Promise_all_fulfilled {A} first (ps : list (Settled A))
  (results : list A) :
  Promise_all first ps = Fulfilled results <-> ps = map Fulfilled results.
Proof.
  unfold Promise_all. split.
  - destruct (rejections ps) as [|error others] eqn:E; [|discriminate].
    intros [= <-]. now apply rejections_none.
  - intros ->. destruct (rejections_values results) as [-> ->]. reflexivity.
Qed.

(** A rejected [Promise.all] carries one of the rejections of the array. *)
Lemma Promise_all_rejects {A} first (ps : list (Settled A)) (error : Thrown) :
  Promise_all first ps = Rejected error -> In (Rejected error) ps.
Proof.
  unfold Promise_all.
  destruct (rejections ps) as [|e others] eqn:E; [discriminate|].
  intros [= <-]. apply rejections_In. rewrite E.
  apply (@nth_In _ (first mod S (List.length others)) (e :: others) e).
  apply Nat.mod_upper_bound. discriminate.
Qed.

Lemma Promise_all_rejected {A} first (ps : list (Settled A))
  (error : Thrown) :
  In (Rejected error) ps ->
  exists error', Promise_all first ps = Rejected error' /\
                 In (Rejected error') ps.
Proof.
  intro Hin.
  destruct (Promise_all first ps) as [error'|results] eqn:E.
  - exists error'. split; [reflexivity|]. now apply Promise_all_rejects in E.
  - apply Promise_all_fulfilled in E. subst ps.
    apply in_map_iff in Hin. destruct Hin as (r & H & _). discriminate.
Qed.

(** With one rejection only, that one is carried; with several, each of
    them is carried for some arrival order. *)
Lemma Promise_all_any {A} (ps : list (Settled A)) (error : Thrown) :
  In (Rejected error) ps ->
  exists first, Promise_all first ps = Rejected error.
Proof.
  intro Hin. apply rejections_In in Hin. unfold Promise_all.
  destruct (rejections ps) as [|e others] eqn:E; [contradiction|].
  destruct (In_nth _ _ e Hin) as (n & Hn & Hnth).
  exists n. rewrite Nat.mod_small by exact Hn. now rewrite Hnth.
Qed.

Lemma createdOrders_length (results : list OrdersJson.t) :
  length (createdOrders results) + length (failures results) = length results.
Proof.
  unfold createdOrders, successful, failures, hasOrder.
  induction results as [|r rest IH]; [reflexivity|].
  cbn [filter].
  destruct (OrdersJson.order r) as [order|] eqn:E; cbn [negb flat_map length app].
  - rewrite E, length_app, <- IH.
    change (length [order]) with 1. lia.
  - rewrite <- IH.
    change (length (r :: ?l)) with (S (length l)). lia.
Qed.

Lemma createdOrders_all (results : list OrdersJson.t) :
  Forall (fun r => hasOrder r = true) results ->
  length (createdOrders results) = length results.
Proof.
  intro H.
  assert (F : failures results = []).
  { unfold failures. induction H as [|r rest Hr _ IH]; [reflexivity|].
    cbn [filter]. now rewrite Hr. }
  pose proof (createdOrders_length results) as L.
  rewrite F in L. cbn in L. lia.
Qed.

Lemma collectBatch_outcome (orderPromises : list (Settled OrdersJson.t)) env st :
  collectBatch orderPromises env st
  = Run.mk (batchOutcome (Env.race env (State.posts st)) orderPromises) st [].
Proof.
  unfold collectBatch, batchOutcome.
  rewrite bind_ask, bind_get.
  destruct (Promise_all _ orderPromises) as [error|results];
    now destruct st.
Qed.

Lemma batchAnswers_S env st n :
  batchAnswers env st (S n)
  = settleResponse "sales order" (Env.orders_endpoint env (State.posts st))
      :: batchAnswers env
           (State.mk (State.shipHero st) (State.errors st) (State.draws st)
                     (S (State.posts st)) (State.reads st)) n.
Proof.
  unfold batchAnswers. cbn [seq map State.posts].
  rewrite Nat.add_0_r. f_equal.
  rewrite <- seq_shift, map_map.
  apply map_ext. intro k. do 2 f_equal. lia.
Qed.

Lemma batchAnswers_posts env st st' n :
  State.posts st = State.posts st' ->
  batchAnswers env st n = batchAnswers env st' n.
Proof. unfold batchAnswers. now intros ->. Qed.

(** A loop of submissions returns the endpoint's answers in order. *)
Lemma forEach_submitsOne {A} token (body : A -> M (Settled OrdersJson.t)) :
  (forall x, submitsOne token (body x)) ->
  forall xs env st,
    State.shipHero st = Some token ->
    Run.outcome (forEach xs body env st)
    = Fulfilled (batchAnswers env st (length xs)) /\
    State.posts (Run.final (forEach xs body env st))
    = State.posts st + length xs /\
    State.shipHero (Run.final (forEach xs body env st)) = Some token.
Proof.
  intros Hb xs env.
  induction xs as [|x rest IH]; intros st Hs.
  - cbn. repeat split; [lia | assumption].
  - cbn [forEach length].
    destruct (Hb x env st Hs) as (Ho & Hp & Hh).
    destruct (body x env st) as [[error|answer] st1 evs1] eqn:R1;
      cbn in Ho, Hp, Hh; [discriminate|].
    injection Ho as ->.
    erewrite bind_returns by exact R1.
    destruct (IH st1 Hh) as (Ho' & Hp' & Hh').
    destruct (forEach rest body env st1) as [[error|answers] st2 evs2] eqn:R2;
      cbn in Ho', Hp', Hh'; [discriminate|].
    injection Ho' as ->.
    erewrite bind_returns by exact R2.
    cbn [after ret Run.outcome Run.final Run.events].
    split; [|split; [lia | assumption]].
    rewrite batchAnswers_S. do 2 f_equal.
    apply batchAnswers_posts. cbn [State.posts]. lia.
Qed.

Lemma drawsOnly_randomBelow n : drawsOnly (randomBelow n).
Proof. intros env st. rewrite randomBelow_run. eauto. Qed.

Lemma drawsOnly_ret {A} (a : A) : drawsOnly (ret a).
Proof. intros env st. exists a, (State.draws st). now destruct st. Qed.

Lemma drawsOnly_bind {A B} (c : M A) (k : A -> M B) :
  drawsOnly c -> (forall a, drawsOnly (k a)) -> drawsOnly (bind c k).
Proof.
  intros Hc Hk env st.
  destruct (Hc env st) as (a & d & R).
  erewrite bind_returns by exact R. rewrite after_nil.
  destruct (Hk a env (State.mk (State.shipHero st) (State.errors st) d
                               (State.posts st) (State.reads st)))
    as (b & d' & R').
  rewrite R'. cbn. eauto.
Qed.

Lemma drawsOnly_forEach {A B} (xs : list A) (body : A -> M B) :
  (forall x, drawsOnly (body x)) -> drawsOnly (forEach xs body).
Proof.
  intro Hb. induction xs as [|x rest IH]; cbn [forEach].
  - apply drawsOnly_ret.
  - apply drawsOnly_bind; [apply Hb | intro b].
    apply drawsOnly_bind; [apply IH | intro bs]. apply drawsOnly_ret.
Qed.

Lemma submitsOne_createSalesOrderViaAPI token orderData :
  submitsOne token (createSalesOrderViaAPI orderData).
Proof.
  intros env st Hs.
  rewrite (createSalesOrderViaAPI_run orderData env st Hs).
  now repeat split.
Qed.

Lemma submitsOne_after_draws {A} token (c : M A)
  (k : A -> M (Settled OrdersJson.t)) :
  drawsOnly c -> (forall a, submitsOne token (k a)) ->
  submitsOne token (bind c k).
Proof.
  intros Hc Hk env st Hs.
  destruct (Hc env st) as (a & d & R).
  erewrite bind_returns by exact R. rewrite after_nil.
  destruct (Hk a env (State.mk (State.shipHero st) (State.errors st) d
                               (State.posts st) (State.reads st)) Hs)
    as (Ho & Hp & Hh).
  cbn [after Run.outcome Run.final State.posts] in *.
  now repeat split.
Qed.

(** What a batch resolves to, from what its loop submits. *)
Lemma batch_outcome {A} token (xs : list A)
  (body : A -> M (Settled OrdersJson.t)) (n : nat) env st :
  (forall x, submitsOne token (body x)) ->
  State.shipHero st = Some token ->
  length xs = n ->
  Run.outcome (bind (forEach xs body) collectBatch env st)
  = batchOf env st n.
Proof.
  intros Hb Hs <-.
  destruct (@forEach_submitsOne _ token body Hb xs env st Hs) as (Ho & Hp & _).
  destruct (forEach xs body env st) as [[error|answers] st' evs] eqn:R;
    cbn in Ho, Hp; [discriminate|].
  injection Ho as ->.
  erewrite bind_returns by exact R.
  rewrite collectBatch_outcome. unfold batchOf. now rewrite Hp.
Qed.

Lemma noSkus_false tourData :
  TourData.selected_skus tourData <> [] -> noSkus tourData = false.
Proof.
  unfold noSkus. destruct (TourData.selected_skus tourData); [congruence|].
  reflexivity.
Qed.

Lemma createParticipantOrders_outcome tourData orderPrefix env st token :
  State.shipHero st = Some token ->
  TourData.selected_skus tourData <> [] ->
  Run.outcome (createParticipantOrders tourData orderPrefix env st)
  = batchOf env st (length (TourData.participants tourData)).
Proof.
  intros Hs Hk. unfold createParticipantOrders.
  destruct (TourData.participants tourData) as [|p ps] eqn:E; [reflexivity|].
  cbn [length Nat.eqb]. rewrite (noSkus_false _ Hk), bind_ask.
  apply (@batch_outcome _ token); [|exact Hs|].
  - intro. apply submitsOne_createSalesOrderViaAPI.
  - unfold indexed. rewrite length_combine, length_seq, Nat.min_id. reflexivity.
Qed.

Lemma singleLineBody_submitsOne token build i :
  submitsOne token (singleLineBody build i).
Proof.
  unfold singleLineBody.
  apply submitsOne_after_draws; [apply drawsOnly_randomBelow | intro].
  apply submitsOne_after_draws; [apply drawsOnly_randomBelow | intro].
  apply submitsOne_createSalesOrderViaAPI.
Qed.

Lemma createDemoOrders_outcome tourData orderPrefix count env st token :
  State.shipHero st = Some token ->
  TourData.selected_skus tourData <> [] ->
  Run.outcome (createDemoOrders tourData orderPrefix count env st)
  = batchOf env st count.
Proof.
  intros Hs Hk. unfold createDemoOrders.
  rewrite (noSkus_false _ Hk), bind_ask.
  apply (@batch_outcome _ token (seq 0 count)
           (singleLineBody
              (fun i => demoOrderData tourData env orderPrefix i
                          (celebrityAt (Env.getCelebrityNames env count) i))));
    [intro; apply singleLineBody_submitsOne | exact Hs | apply length_seq].
Qed.

Lemma createHostDemoOrders_outcome tourData orderPrefix count env st token :
  State.shipHero st = Some token ->
  TourData.selected_skus tourData <> [] ->
  Run.outcome (createHostDemoOrders tourData orderPrefix count env st)
  = batchOf env st count.
Proof.
  intros Hs Hk. unfold createHostDemoOrders.
  rewrite (noSkus_false _ Hk), bind_ask.
  apply (@batch_outcome _ token (seq 0 count)
           (singleLineBody
              (hostDemoOrderData tourData (Env.clock env) orderPrefix)));
    [intro; apply singleLineBody_submitsOne | exact Hs | apply length_seq].
Qed.

Lemma createMultiItemDemoOrders_outcome tourData orderPrefix count env st token :
  State.shipHero st = Some token ->
  TourData.selected_skus tourData <> [] ->
  Run.outcome (createMultiItemDemoOrders tourData orderPrefix count env st)
  = batchOf env st count.
Proof.
  intros Hs Hk. unfold createMultiItemDemoOrders.
  rewrite (noSkus_false _ Hk), bind_ask.
  apply (@batch_outcome _ token); [|exact Hs|apply length_seq].
  intro i.
  apply submitsOne_after_draws; [apply drawsOnly_randomBelow | intro r].
  apply submitsOne_after_draws; [|intro; apply submitsOne_createSalesOrderViaAPI].
  apply drawsOnly_forEach. intro j.
  apply drawsOnly_bind; [apply drawsOnly_randomBelow | intro].
  apply drawsOnly_bind; [apply drawsOnly_randomBelow | intro].
  apply drawsOnly_ret.
Qed.

Lemma createStandardReceivingPO_outcome tourData workflowName env st token :
  State.shipHero st = Some token ->
  TourData.selected_skus tourData <> [] ->
  Run.outcome (createStandardReceivingPO tourData workflowName env st)
  = purchaseOutcome workflowName
      (settleResponse "purchase order"
         (Env.orders_endpoint env (State.posts st))).
Proof.
  intros Hs Hk. unfold createStandardReceivingPO.
  rewrite (noSkus_false _ Hk), bind_ask.
  assert (Hd : drawsOnly
                 (forEach (JS.slice0 6 (TourData.selected_skus tourData))
                    (fun sku => r <- randomBelow 10 ;; ret (sku, r + 5)))).
  { apply drawsOnly_forEach. intro sku.
    apply drawsOnly_bind; [apply drawsOnly_randomBelow | intro].
    apply drawsOnly_ret. }
  destruct (Hd env st) as (items & d & R).
  erewrite bind_returns by exact R. rewrite after_nil.
  erewrite bind_returns
    by (apply createPurchaseOrderViaAPI_run with (token := token); exact Hs).
  cbn [State.posts State.shipHero State.errors State.draws].
  unfold purchaseOutcome.
  destruct (settleResponse "purchase order" _) as [error|data]; cbn [await].
  - reflexivity.
  - rewrite bind_ret.
    destruct (OrdersJson.purchase_order data); reflexivity.
Qed.

(* ================================================================== *)
(** ** The requests of a batch *)

Lemma draw3_eq env st st' j j' :
  State.draws st + j = State.draws st' + j' ->
  draw3 env st j = draw3 env st' j'.
Proof. unfold draw3. now intros ->. Qed.

Lemma draw3_range env st k : 1 <= draw3 env st k <= 3.
Proof.
  unfold draw3.
  pose proof (Nat.mod_upper_bound
                (Env.math_random env (State.draws st + k)) 3).
  lia.
Qed.

Lemma singleLineBody_run build i env st token :
  State.shipHero st = Some token ->
  singleLineBody build i env st
  = Run.mk (Fulfilled (settleResponse "sales order"
                         (Env.orders_endpoint env (State.posts st))))
           (State.mk (Some token) (State.errors st) (S (S (State.draws st)))
                     (S (State.posts st)) (State.reads st))
           [SalesOrderRequest (build i (draw3 env st 0) (draw3 env st 1))].
Proof.
  intro Hs. destruct st as [shipHero errors draws posts].
  cbn in Hs. subst shipHero.
  unfold draw3. cbn [State.draws].
  replace (draws + 0) with draws by lia.
  replace (draws + 1) with (S draws) by lia.
  reflexivity.
Qed.

Lemma singleLine_loop build env n :
  forall a st token,
    State.shipHero st = Some token ->
    forEach (seq a n) (singleLineBody build) env st
    = Run.mk (Fulfilled (batchAnswers env st n))
             (State.mk (Some token) (State.errors st)
                       (State.draws st + 2 * n) (State.posts st + n) (State.reads st))
             (singleLineRequests (fun k => build (a + k)) env st n).
Proof.
  induction n as [|n IH]; intros a st token Hs.
  - destruct st as [shipHero errors draws posts]. cbn in Hs. subst shipHero.
    cbn [seq forEach]. unfold ret, batchAnswers, singleLineRequests.
    cbn [seq map State.errors State.draws State.posts].
    f_equal. f_equal; lia.
  - cbn [seq forEach].
    erewrite bind_returns by (apply singleLineBody_run; exact Hs).
    erewrite bind_returns by (apply IH; reflexivity).
    unfold after, ret.
    cbn [Run.outcome Run.final Run.events
         State.errors State.draws State.posts].
    f_equal.
    + rewrite batchAnswers_S. reflexivity.
    + f_equal; lia.
    + unfold singleLineRequests. cbn [seq map].
      rewrite <- seq_shift, map_map, app_nil_r. cbn [List.app].
      f_equal.
      * rewrite Nat.add_0_r. reflexivity.
      * apply map_ext. intro k.
        replace (S a + k) with (a + S k) by lia.
        rewrite (@draw3_eq env _ st (2 * k) (2 * S k))
          by (cbn [State.draws]; lia).
        rewrite (@draw3_eq env _ st (2 * k + 1) (2 * S k + 1))
          by (cbn [State.draws]; lia).
        reflexivity.
Qed.

Lemma submit_loop {A} (build : A -> SalesOrder.t) env :
  forall xs st token,
    State.shipHero st = Some token ->
    forEach xs (fun x => createSalesOrderViaAPI (build x)) env st
    = Run.mk (Fulfilled (batchAnswers env st (length xs)))
             (State.mk (Some token) (State.errors st) (State.draws st)
                       (State.posts st + length xs) (State.reads st))
             (map (fun x => SalesOrderRequest (build x)) xs).
Proof.
  induction xs as [|x rest IH]; intros st token Hs.
  - destruct st as [shipHero errors draws posts]. cbn in Hs. subst shipHero.
    cbn [forEach length map]. unfold ret, batchAnswers.
    cbn [seq map State.errors State.draws State.posts].
    f_equal. f_equal; lia.
  - cbn [forEach length map].
    erewrite bind_returns by (apply createSalesOrderViaAPI_run; exact Hs).
    erewrite bind_returns by (apply IH; reflexivity).
    unfold after, ret.
    cbn [Run.outcome Run.final Run.events
         State.errors State.draws State.posts].
    f_equal.
    + rewrite batchAnswers_S. reflexivity.
    + f_equal; lia.
    + now rewrite app_nil_r.
Qed.

(** The run of a single-line batch. *)
Lemma singleLine_batch build count env st token :
  State.shipHero st = Some token ->
  bind (forEach (seq 0 count) (singleLineBody build)) collectBatch env st
  = Run.mk (batchOf env st count)
           (State.mk (Some token) (State.errors st)
                     (State.draws st + 2 * count) (State.posts st + count) (State.reads st))
           (singleLineRequests build env st count).
Proof.
  intro Hs.
  erewrite bind_returns by (apply singleLine_loop; exact Hs).
  rewrite collectBatch_outcome.
  unfold after. cbn [Run.outcome Run.final Run.events].
  now rewrite app_nil_r.
Qed.

Lemma createDemoOrders_run tourData orderPrefix count env st token :
  State.shipHero st = Some token ->
  TourData.selected_skus tourData <> [] ->
  createDemoOrders tourData orderPrefix count env st
  = Run.mk (batchOf env st count)
           (State.mk (Some token) (State.errors st)
                     (State.draws st + 2 * count) (State.posts st + count) (State.reads st))
           (singleLineRequests
              (fun i => demoOrderData tourData env orderPrefix i
                          (celebrityAt (Env.getCelebrityNames env count) i))
              env st count).
Proof.
  intros Hs Hk. unfold createDemoOrders.
  rewrite (noSkus_false _ Hk), bind_ask.
  now apply (@singleLine_batch
               (fun i => demoOrderData tourData env orderPrefix i
                           (celebrityAt (Env.getCelebrityNames env count) i))).
Qed.

Lemma createSimpleDemoOrders_run tourData orderPrefix count env st token :
  State.shipHero st = Some token ->
  TourData.selected_skus tourData <> [] ->
  createSimpleDemoOrders tourData orderPrefix count env st
  = Run.mk (batchOf env st count)
           (State.mk (Some token) (State.errors st)
                     (State.draws st + 2 * count) (State.posts st + count) (State.reads st))
           (singleLineRequests
              (simpleDemoOrderData tourData (Env.clock env) orderPrefix)
              env st count).
Proof.
  intros Hs Hk. unfold createSimpleDemoOrders.
  rewrite (noSkus_false _ Hk), bind_ask.
  now apply (@singleLine_batch
               (simpleDemoOrderData tourData (Env.clock env) orderPrefix)).
Qed.

Lemma createHostDemoOrders_run tourData orderPrefix count env st token :
  State.shipHero st = Some token ->
  TourData.selected_skus tourData <> [] ->
  createHostDemoOrders tourData orderPrefix count env st
  = Run.mk (batchOf env st count)
           (State.mk (Some token) (State.errors st)
                     (State.draws st + 2 * count) (State.posts st + count) (State.reads st))
           (singleLineRequests
              (hostDemoOrderData tourData (Env.clock env) orderPrefix)
              env st count).
Proof.
  intros Hs Hk. unfold createHostDemoOrders.
  rewrite (noSkus_false _ Hk), bind_ask.
  now apply (@singleLine_batch
               (hostDemoOrderData tourData (Env.clock env) orderPrefix)).
Qed.

Lemma createParticipantOrders_run tourData orderPrefix env st token :
  State.shipHero st = Some token ->
  TourData.selected_skus tourData <> [] ->
  TourData.participants tourData <> [] ->
  createParticipantOrders tourData orderPrefix env st
  = Run.mk (batchOf env st (length (TourData.participants tourData)))
           (State.mk (Some token) (State.errors st) (State.draws st)
                     (State.posts st + length (TourData.participants tourData)) (State.reads st))
           (map (fun p : nat * Participant.t =>
                   SalesOrderRequest
                     (participantOrderData tourData (Env.clock env) orderPrefix
                                           (fst p) (snd p)))
                (indexed (TourData.participants tourData))).
Proof.
  intros Hs Hk Hp. unfold createParticipantOrders.
  destruct (TourData.participants tourData) as [|p ps] eqn:E; [congruence|].
  cbn [length Nat.eqb]. rewrite (noSkus_false _ Hk), bind_ask.
  erewrite bind_returns
    by (apply (submit_loop
                 (fun p : nat * Participant.t =>
                    participantOrderData tourData (Env.clock env) orderPrefix
                                         (fst p) (snd p)));
        exact Hs).
  rewrite collectBatch_outcome.
  unfold after. cbn [Run.outcome Run.final Run.events].
  rewrite app_nil_r.
  assert (L : length (indexed (p :: ps)) = S (length ps)).
  { unfold indexed. rewrite length_combine, length_seq, Nat.min_id.
    reflexivity. }
  now rewrite L.
Qed.

(* ================================================================== *)
(** ** What a computation leaves alone *)

Section Keeps.
Context {X : Type} (f : State.t -> X).

Lemma keeps_ret {A} (a : A) : keeps f (ret a).
Proof. intros env st. reflexivity. Qed.

Lemma keeps_throw {A} (error : Thrown) : keeps f (@throw A error).
Proof. intros env st. reflexivity. Qed.

Lemma keeps_ask : keeps f ask.
Proof. intros env st. reflexivity. Qed.

Lemma keeps_get : keeps f get.
Proof. intros env st. reflexivity. Qed.

Lemma keeps_emit (e : Event) : keeps f (emit e).
Proof. intros env st. reflexivity. Qed.

Lemma keeps_await {A} (p : Settled A) : keeps f (await p).
Proof. destruct p; [apply keeps_throw | apply keeps_ret]. Qed.

Lemma keeps_bind {A B} (c : M A) (k : A -> M B) :
  keeps f c -> (forall a, keeps f (k a)) -> keeps f (bind c k).
Proof.
  intros Hc Hk env st. unfold bind.
  specialize (Hc env st).
  destruct (c env st) as [[error|a] st' evs]; cbn in *; [assumption|].
  now rewrite Hk.
Qed.

Lemma keeps_try_catch {A} (c : M A) (handler : Thrown -> M A) :
  keeps f c -> (forall error, keeps f (handler error)) ->
  keeps f (try_catch c handler).
Proof.
  intros Hc Hh env st. unfold try_catch.
  specialize (Hc env st).
  destruct (c env st) as [[error|a] st' evs]; cbn in *; [|assumption].
  now rewrite Hh.
Qed.

Lemma keeps_forEach {A B} (xs : list A) (body : A -> M B) :
  (forall x, keeps f (body x)) -> keeps f (forEach xs body).
Proof.
  intro Hb. induction xs as [|x rest IH]; cbn [forEach].
  - apply keeps_ret.
  - apply keeps_bind; [apply Hb | intro b].
    apply keeps_bind; [apply IH | intro bs]. apply keeps_ret.
Qed.

Lemma keeps_collectBatch (orderPromises : list (Settled OrdersJson.t)) :
  keeps f (collectBatch orderPromises).
Proof.
  intros env st. now rewrite collectBatch_outcome.
Qed.

End Keeps.

Lemma keeps_session_randomBelow n : keeps session (randomBelow n).
Proof. intros env st. reflexivity. Qed.

Lemma keeps_session_fetchOrders request : keeps session (fetchOrders request).
Proof. intros env st. reflexivity. Qed.

Lemma keeps_session_createSalesOrderViaAPI orderData :
  keeps session (createSalesOrderViaAPI orderData).
Proof.
  intros env st. unfold createSalesOrderViaAPI. rewrite bind_get.
  destruct (State.shipHero st); reflexivity.
Qed.

Lemma keeps_session_createPurchaseOrderViaAPI poData :
  keeps session (createPurchaseOrderViaAPI poData).
Proof.
  intros env st. unfold createPurchaseOrderViaAPI. rewrite bind_get.
  destruct (State.shipHero st); reflexivity.
Qed.

Ltac keeps_step :=
  match goal with
  | |- keeps _ (ret _) => apply keeps_ret
  | |- keeps _ (throw _) => apply keeps_throw
  | |- keeps _ ask => apply keeps_ask
  | |- keeps _ get => apply keeps_get
  | |- keeps _ (await _) => apply keeps_await
  | |- keeps _ (collectBatch _) => apply keeps_collectBatch
  | |- keeps _ (randomBelow _) => apply keeps_session_randomBelow
  | |- keeps _ (createSalesOrderViaAPI _) =>
      apply keeps_session_createSalesOrderViaAPI
  | |- keeps _ (createPurchaseOrderViaAPI _) =>
      apply keeps_session_createPurchaseOrderViaAPI
  | |- keeps _ (bind _ _) => apply keeps_bind; [|intro]
  | |- keeps _ (forEach _ _) => apply keeps_forEach; intro
  | |- keeps _ (if ?b then _ else _) => destruct b
  | |- keeps _ (match ?x with _ => _ end) => destruct x
  end.

Ltac keeps_tac := repeat keeps_step.

Lemma keeps_session_createStandardReceivingPO tourData workflowName :
  keeps session (createStandardReceivingPO tourData workflowName).
Proof. unfold createStandardReceivingPO. keeps_tac. Qed.

Lemma keeps_session_createParticipantOrders tourData orderPrefix :
  keeps session (createParticipantOrders tourData orderPrefix).
Proof. unfold createParticipantOrders. keeps_tac. Qed.

Lemma keeps_session_createDemoOrders tourData orderPrefix count :
  keeps session (createDemoOrders tourData orderPrefix count).
Proof. unfold createDemoOrders. keeps_tac. Qed.

Lemma keeps_session_createHostDemoOrders tourData orderPrefix count :
  keeps session (createHostDemoOrders tourData orderPrefix count).
Proof. unfold createHostDemoOrders. keeps_tac. Qed.

Lemma keeps_session_createMultiItemDemoOrders tourData orderPrefix count :
  keeps session (createMultiItemDemoOrders tourData orderPrefix count).
Proof. unfold createMultiItemDemoOrders. keeps_tac. Qed.

Lemma keeps_session_createPackToLightWorkflowOrders tourData :
  keeps session (createPackToLightWorkflowOrders tourData).
Proof.
  unfold createPackToLightWorkflowOrders.
  apply keeps_bind; [apply keeps_session_createParticipantOrders | intro].
  apply keeps_bind; [|intro; apply keeps_session_createStandardReceivingPO].
  destruct (Nat.eqb _ 0); [|apply keeps_ret].
  apply keeps_bind; [apply keeps_session_createHostDemoOrders|].
  intro. apply keeps_ret.
Qed.

Lemma keeps_session_createBulkShippingSOs tourData :
  keeps session (createBulkShippingSOs tourData).
Proof.
  unfold createBulkShippingSOs.
  apply keeps_bind; [apply keeps_session_createParticipantOrders | intro].
  apply keeps_bind; [apply keeps_session_createDemoOrders|].
  intro. apply keeps_ret.
Qed.

Lemma keeps_session_createSingleItemBatchSOs tourData :
  keeps session (createSingleItemBatchSOs tourData).
Proof.
  unfold createSingleItemBatchSOs.
  apply keeps_bind; [apply keeps_session_createParticipantOrders | intro].
  apply keeps_bind; [apply keeps_session_createDemoOrders|].
  intro. apply keeps_ret.
Qed.

Lemma keeps_session_createMultiItemBatchSOs tourData :
  keeps session (createMultiItemBatchSOs tourData).
Proof.
  unfold createMultiItemBatchSOs.
  apply keeps_bind; [apply keeps_session_createParticipantOrders | intro].
  apply keeps_bind; [apply keeps_session_createMultiItemDemoOrders|].
  intro. apply keeps_ret.
Qed.

(* ================================================================== *)
(** ** The shape of a finalization *)


Lemma requestsOf_app (runs runs' : list (WorkflowOption * Run.t unit)) :
  requestsOf (runs ++ runs') = (requestsOf runs ++ requestsOf runs')%list.
Proof. apply flat_map_app. Qed.

Lemma run_eta {A} (r : Run.t A) :
  r = Run.mk (Run.outcome r) (Run.final r) (Run.events r).
Proof. now destruct r. Qed.

Lemma bind_ext {A B} (c : M A) (k k' : A -> M B) env st :
  (forall a env' st', k a env' st' = k' a env' st') ->
  bind c k env st = bind c k' env st.
Proof.
  intro H. unfold bind.
  destruct (c env st) as [[error|a] st' evs]; cbn; [reflexivity|].
  now rewrite H.
Qed.

(** *** The session setup *)

(** What the session setup answers and requests is decided by the
    environment. *)
Lemma initializeShipHero_any env st st' :
  Run.outcome (initializeShipHero env st)
  = Run.outcome (initializeShipHero env st') /\
  Run.events (initializeShipHero env st)
  = Run.events (initializeShipHero env st').
Proof.
  unfold initializeShipHero. rewrite !bind_ask.
  destruct (Env.window_defined env); cbn [negb]; [|now split].
  destruct (JS.truthy (Env.shiphero_refresh_token env)); cbn [negb];
    [|now split].
  rewrite !bind_emit.
  destruct (Env.refresh_token_endpoint env) as [error|tokenResponse];
    cbn [await]; [now split|].
  rewrite !bind_ret.
  destruct (TokenResponse.ok tokenResponse); now split.
Qed.

Lemma initializeShipHero_outcome env st st' :
  Run.outcome (initializeShipHero env st)
  = Run.outcome (initializeShipHero env st').
Proof. apply initializeShipHero_any. Qed.

(** It stores the token when it succeeds, and touches nothing when it
    fails. *)
Lemma initializeShipHero_final env st :
  Run.final (initializeShipHero env st)
  = match Run.outcome (initializeShipHero env st) with
    | Rejected _ => st
    | Fulfilled _ =>
        State.mk (Some (accessToken env)) (State.errors st) (State.draws st)
                 (State.posts st) (State.reads st)
    end.
Proof.
  unfold initializeShipHero, accessToken. rewrite !bind_ask.
  destruct (Env.window_defined env); cbn [negb]; [|reflexivity].
  destruct (JS.truthy (Env.shiphero_refresh_token env)); cbn [negb];
    [|reflexivity].
  rewrite !bind_emit.
  destruct (Env.refresh_token_endpoint env) as [error|tokenResponse];
    cbn [await]; [reflexivity|].
  rewrite !bind_ret.
  destruct (TokenResponse.ok tokenResponse); reflexivity.
Qed.

Lemma initializeShipHero_ok env st st0 :
  Run.outcome (initializeShipHero env st0) = Fulfilled tt ->
  initializeShipHero env st
  = Run.mk (Fulfilled tt)
           (State.mk (Some (accessToken env)) (State.errors st)
                     (State.draws st) (State.posts st) (State.reads st))
           (Run.events (initializeShipHero env st0)).
Proof.
  intro H.
  destruct (initializeShipHero_any env st st0) as [Ho He].
  rewrite (run_eta (initializeShipHero env st)),
    initializeShipHero_final, Ho, He, H.
  reflexivity.
Qed.

Lemma initializeShipHero_fails env st st0 error :
  Run.outcome (initializeShipHero env st0) = Rejected error ->
  initializeShipHero env st
  = Run.mk (Rejected error) st (Run.events (initializeShipHero env st0)).
Proof.
  intro H.
  destruct (initializeShipHero_any env st st0) as [Ho He].
  rewrite (run_eta (initializeShipHero env st)),
    initializeShipHero_final, Ho, He, H.
  reflexivity.
Qed.

Lemma emits_session_initializeShipHero : emits sessionEvent initializeShipHero.
Proof. unfold initializeShipHero. emits_tac. exact I. Qed.

Lemma sessionEvents_only (evs : list Event) :
  Forall sessionEvent evs ->
  statusWrites evs = [] /\ salesOrders evs = [] /\ purchaseOrders evs = [].
Proof.
  induction 1 as [|e rest He _ IH]; [now repeat split|].
  destruct e; cbn in He; try contradiction. exact IH.
Qed.


(** *** Loading the tour *)

(** A load reads the tables as they are at that load, and counts. *)
Lemma getTourDetails_run tourId env st st0 :
  State.reads st = State.reads st0 ->
  getTourDetails tourId env st
  = Run.mk (Run.outcome (getTourDetails tourId env st0)) (nextLoad st) [].
Proof.
  intro H. unfold getTourDetails, nextLoad.
  rewrite !bind_ask, !bind_get, !bind_put, H.
  destruct (Supabase.tours _ _ _); [reflexivity|].
  destruct (Supabase.warehouses _ _ _); [reflexivity|].
  destruct (Supabase.team_members _ _ _); [reflexivity|].
  destruct (Supabase.tour_participants _ _ _); reflexivity.
Qed.

Lemma getTourDetails_ok tourId env st st0 tourData :
  State.reads st = State.reads st0 ->
  Run.outcome (getTourDetails tourId env st0) = Fulfilled tourData ->
  getTourDetails tourId env st = Run.mk (Fulfilled tourData) (nextLoad st) [].
Proof. intros H <-. now apply getTourDetails_run. Qed.

Lemma getTourDetails_fails tourId env st st0 error :
  State.reads st = State.reads st0 ->
  Run.outcome (getTourDetails tourId env st0) = Rejected error ->
  getTourDetails tourId env st = Run.mk (Rejected error) (nextLoad st) [].
Proof. intros H <-. now apply getTourDetails_run. Qed.

Lemma generateInstructionGuide_run tourId env st :
  generateInstructionGuide tourId env st
  = Run.mk
      match Run.outcome (getTourDetails tourId env st) with
      | Rejected error => Rejected error
      | Fulfilled tourData => Fulfilled (guideText tourData (Env.clock env))
      end
      (nextLoad st) [].
Proof.
  unfold generateInstructionGuide.
  destruct (Run.outcome (getTourDetails tourId env st)) as [error|tourData]
    eqn:E.
  - erewrite bind_throws
      by (rewrite (@getTourDetails_run tourId env st st eq_refl), E;
          reflexivity).
    reflexivity.
  - erewrite bind_returns
      by (rewrite (@getTourDetails_run tourId env st st eq_refl), E;
          reflexivity).
    rewrite bind_ask. reflexivity.
Qed.

(** *** The logic blocks *)

(** A logic block never throws: it runs its handler when the workflow is
    selected, and turns what the handler throws into an entry. *)
Lemma logicBlock_run selectedOptions w (handler : M unit) env st :
  logicBlock selectedOptions w (workflowLabel w) handler env st
  = if selects selectedOptions w then
      Run.mk (Fulfilled tt) (afterBlock w (handler env st))
             (Run.events (handler env st))
    else Run.mk (Fulfilled tt) st [].
Proof.
  unfold logicBlock, afterBlock.
  destruct (selects selectedOptions w); [|reflexivity].
  unfold try_catch.
  destruct (handler env st) as [[error|[]] st' evs];
    cbn [Run.outcome Run.final Run.events]; [|reflexivity].
  unfold pushError. rewrite bind_get. cbn. now rewrite app_nil_r.
Qed.

Lemma runBlocks_run tourData selectedOptions ws env st :
  runBlocks tourData selectedOptions ws env st
  = Run.mk (Fulfilled tt)
      (afterBlocks tourData (filter (selects selectedOptions) ws) env st)
      (requestsOf
         (handlerRuns tourData (filter (selects selectedOptions) ws) env st)).
Proof.
  revert st.
  induction ws as [|w rest IH]; intro st; [reflexivity|].
  cbn [runBlocks filter].
  pose proof (logicBlock_run selectedOptions w (handlerOf tourData w) env st)
    as R.
  destruct (selects selectedOptions w);
    erewrite bind_returns by exact R; rewrite IH; reflexivity.
Qed.

(** The six logic blocks of [finalizeTour] are those of the workflows in
    execution order. *)
Lemma logicBlocks_then {B} tourData selectedOptions (k : M B) env st :
  bind (logicBlocks tourData selectedOptions) (fun _ => k) env st
  = bind (runBlocks tourData selectedOptions executionOrder) (fun _ => k)
         env st.
Proof.
  unfold logicBlocks, executionOrder.
  cbn [runBlocks workflowLabel handlerOf].
  rewrite !bind_assoc. apply bind_ext. intros [] env1 st1.
  rewrite !bind_assoc. apply bind_ext. intros [] env2 st2.
  rewrite !bind_assoc. apply bind_ext. intros [] env3 st3.
  rewrite !bind_assoc. apply bind_ext. intros [] env4 st4.
  rewrite !bind_assoc. apply bind_ext. intros [] env5 st5.
  rewrite !bind_assoc. apply bind_ext. intros [] env6 st6.
  now rewrite bind_ret.
Qed.

Lemma bind_ret_r {A} (c : M A) env st :
  bind c (fun a => ret a) env st = c env st.
Proof.
  unfold bind, ret.
  destruct (c env st) as [[error|a] st' evs]; cbn; [reflexivity|].
  now rewrite app_nil_r.
Qed.

Lemma logicBlocks_run tourData selectedOptions env st :
  logicBlocks tourData selectedOptions env st
  = Run.mk (Fulfilled tt)
      (afterBlocks tourData (selectedHandlers selectedOptions) env st)
      (requestsOf
         (handlerRuns tourData (selectedHandlers selectedOptions) env st)).
Proof.
  rewrite <- (bind_ret_r (logicBlocks tourData selectedOptions) env st).
  replace (bind (logicBlocks tourData selectedOptions) (fun a => ret a) env st)
    with (bind (logicBlocks tourData selectedOptions) (fun _ => ret tt) env st)
    by (apply bind_ext; now intros []).
  rewrite logicBlocks_then.
  erewrite bind_returns by apply runBlocks_run.
  unfold after, ret, selectedHandlers. cbn. now rewrite app_nil_r.
Qed.

(** *** What the handlers leave of the state *)

Lemma keeps_session_handlerOf tourData w :
  keeps session (handlerOf tourData w).
Proof.
  destruct w; cbn [handlerOf].
  - apply keeps_session_createStandardReceivingPO.
  - apply keeps_session_createPackToLightWorkflowOrders.
  - apply keeps_session_createStandardReceivingPO.
  - apply keeps_session_createBulkShippingSOs.
  - apply keeps_session_createSingleItemBatchSOs.
  - apply keeps_session_createMultiItemBatchSOs.
Qed.

Lemma afterBlock_session tourData w env st :
  session (afterBlock w (handlerOf tourData w env st))
  = (State.shipHero st,
     (State.errors st
        ++ entryOf w (Run.outcome (handlerOf tourData w env st)))%list,
     State.reads st).
Proof.
  pose proof (keeps_session_handlerOf tourData w env st) as K.
  unfold session in *. injection K as K1 K2 K3.
  unfold afterBlock, entryOf.
  destruct (Run.outcome (handlerOf tourData w env st)) as [error|[]];
    cbn [State.shipHero State.errors State.reads].
  - now rewrite K1, K2, K3.
  - now rewrite K1, K2, K3, app_nil_r.
Qed.

(** The handlers keep the token and the loads, and [errors] grows by the
    entries of the handlers that threw. *)
Lemma afterBlocks_session tourData ws env st :
  session (afterBlocks tourData ws env st)
  = (State.shipHero st,
     (State.errors st ++ entriesOf (handlerRuns tourData ws env st))%list,
     State.reads st).
Proof.
  revert st.
  induction ws as [|w rest IH]; intro st.
  - cbn. unfold session. now rewrite app_nil_r.
  - cbn [afterBlocks handlerRuns]. rewrite IH.
    pose proof (afterBlock_session tourData w env st) as K.
    unfold session in K. injection K as -> -> ->.
    unfold entriesOf. cbn [flat_map fst snd].
    now rewrite <- app_assoc.
Qed.

Lemma afterBlocks_errors tourData ws env st :
  State.errors st = [] ->
  State.errors (afterBlocks tourData ws env st)
  = entriesOf (handlerRuns tourData ws env st).
Proof.
  intro H.
  pose proof (afterBlocks_session tourData ws env st) as K.
  unfold session in K. injection K as _ -> _. now rewrite H.
Qed.

Lemma afterBlocks_reads tourData ws env st :
  State.reads (afterBlocks tourData ws env st) = State.reads st.
Proof.
  pose proof (afterBlocks_session tourData ws env st) as K.
  unfold session in K. now injection K as _ _ ->.
Qed.

Lemma afterBlocks_shipHero tourData ws env st :
  State.shipHero (afterBlocks tourData ws env st) = State.shipHero st.
Proof.
  pose proof (afterBlocks_session tourData ws env st) as K.
  unfold session in K. now injection K as -> _ _.
Qed.

(** The runs are those of the workflows, one each, in order. *)
Lemma handlerRuns_workflows tourData ws env st :
  map fst (handlerRuns tourData ws env st) = ws.
Proof.
  revert st. induction ws as [|w rest IH]; intro st; [reflexivity|].
  cbn [handlerRuns map fst]. now rewrite IH.
Qed.

(** *** The finalization *)

(** The six logic blocks in a row, and then [k]. *)
Lemma blocks_then {B} tourData selectedOptions (k : M B) env st :
  (logicBlock selectedOptions receive_to_light "Receive-to-Light Workflow"
     (createReceiveToLightWorkflowOrders tourData) ;;
   logicBlock selectedOptions pack_to_light "Pack-to-Light Workflow"
     (createPackToLightWorkflowOrders tourData) ;;
   logicBlock selectedOptions standard_receiving "Standard Receiving PO"
     (createStandardReceivingPO tourData "STANDARD-RECEIVING") ;;
   logicBlock selectedOptions bulk_shipping "Bulk Shipping SOs"
     (createBulkShippingSOs tourData) ;;
   logicBlock selectedOptions single_item_batch "Single-Item Batch SOs"
     (createSingleItemBatchSOs tourData) ;;
   logicBlock selectedOptions multi_item_batch "Multi-Item Batch SOs"
     (createMultiItemBatchSOs tourData) ;;
   k) env st
  = after
      (requestsOf
         (handlerRuns tourData (selectedHandlers selectedOptions) env st))
      (k env (afterBlocks tourData (selectedHandlers selectedOptions) env st)).
Proof.
  transitivity
    (bind (logicBlocks tourData selectedOptions) (fun _ => k) env st).
  - unfold logicBlocks.
    rewrite !bind_assoc. apply bind_ext. intros [] env1 st1.
    rewrite !bind_assoc. apply bind_ext. intros [] env2 st2.
    rewrite !bind_assoc. apply bind_ext. intros [] env3 st3.
    rewrite !bind_assoc. apply bind_ext. intros [] env4 st4.
    rewrite !bind_assoc. reflexivity.
  - erewrite bind_returns by apply logicBlocks_run. reflexivity.
Qed.

(** [finalizeTour] with the session and the tour data there: the session
    setup, the handlers of the selected workflows, the guide from a
    second load and the update of the status. *)
Lemma finalizeTour_unfold tourId selectedOptions env st tourData :
  Run.outcome (initializeShipHero env st) = Fulfilled tt ->
  Run.outcome (getTourDetails tourId env st) = Fulfilled tourData ->
  finalizeTour tourId selectedOptions env st
  = Run.mk
      (Fulfilled
         (concluded tourId tourData (reload tourId env st) env
            selectedOptions
            (entriesOf
               (handlerRuns tourData (selectedHandlers selectedOptions) env
                  (atHandlers env st)))))
      (nextLoad
         (afterBlocks tourData (selectedHandlers selectedOptions) env
            (atHandlers env st)))
      (Run.events (initializeShipHero env st)
         ++ requestsOf
              (handlerRuns tourData (selectedHandlers selectedOptions) env
                 (atHandlers env st))
         ++ statusRequest tourId (reload tourId env st))%list.
Proof.
  intros Hinit Hload.
  unfold finalizeTour, newErrors.
  rewrite bind_assoc, bind_get, bind_put.
  set (st0 := State.mk (State.shipHero st) [] (State.draws st)
                       (State.posts st) (State.reads st)).
  unfold try_catch. cbv zeta.
  erewrite bind_returns
    by (apply initializeShipHero_ok with (st0 := st); exact Hinit).
  erewrite bind_returns
    by (apply getTourDetails_ok with (st0 := st); [reflexivity | exact Hload]).
  rewrite after_nil.
  change (nextLoad
            (State.mk (Some (accessToken env)) (State.errors st0)
                      (State.draws st0) (State.posts st0) (State.reads st0)))
    with (atHandlers env st).
  rewrite blocks_then.
  set (runs := handlerRuns tourData (selectedHandlers selectedOptions) env
                 (atHandlers env st)).
  set (st1 := afterBlocks tourData (selectedHandlers selectedOptions) env
                (atHandlers env st)).
  assert (E1 : State.errors st1 = entriesOf runs)
    by (apply afterBlocks_errors; reflexivity).
  assert (G : generateInstructionGuide tourId env st1
              = Run.mk
                  match reload tourId env st with
                  | Rejected error => Rejected error
                  | Fulfilled reloaded =>
                      Fulfilled (guideText reloaded (Env.clock env))
                  end
                  (nextLoad st1) []).
  { rewrite generateInstructionGuide_run. unfold reload.
    rewrite (@getTourDetails_run tourId env st1 (nextLoad st))
      by (unfold st1; rewrite afterBlocks_reads; reflexivity).
    reflexivity. }
  unfold concluded, statusRequest.
  destruct (reload tourId env st) as [error|reloaded].
  - erewrite bind_throws by exact G.
    cbn [after Run.outcome Run.final Run.events].
    rewrite bind_get.
    cbn [ret Run.outcome Run.final Run.events nextLoad State.errors].
    rewrite E1, !app_nil_r. reflexivity.
  - erewrite bind_returns by exact G.
    rewrite after_nil.
    unfold updateTourStatus, finalized.
    rewrite bind_assoc, bind_ask, bind_assoc, bind_emit.
    destruct (Supabase.update_tours_status (Env.supabase env) tourId
                "finalized") as [m|].
    + rewrite bind_throw.
      cbn [after Run.outcome Run.final Run.events].
      rewrite bind_get.
      cbn [ret Run.outcome Run.final Run.events nextLoad State.errors].
      rewrite E1, ?app_nil_r, <- ?app_assoc. reflexivity.
    + rewrite bind_ret, bind_ask, bind_get.
      cbn [after ret Run.outcome Run.final Run.events nextLoad State.errors].
      rewrite E1, ?app_nil_r, <- ?app_assoc. reflexivity.
Qed.

(** A finalization whose session setup fails. *)
Lemma finalizeTour_session_fails tourId selectedOptions env st error :
  Run.outcome (initializeShipHero env st) = Rejected error ->
  finalizeTour tourId selectedOptions env st
  = Run.mk (Fulfilled (failedFast error))
           (State.mk (State.shipHero st) [] (State.draws st) (State.posts st)
                     (State.reads st))
           (Run.events (initializeShipHero env st)).
Proof.
  intro Hinit.
  unfold finalizeTour, newErrors.
  rewrite bind_assoc, bind_get, bind_put.
  unfold try_catch. cbv zeta.
  erewrite bind_throws
    by (apply initializeShipHero_fails with (st0 := st); exact Hinit).
  cbn. now rewrite app_nil_r.
Qed.

(** A finalization whose tour data cannot be loaded. *)
Lemma finalizeTour_loading_fails tourId selectedOptions env st error :
  Run.outcome (initializeShipHero env st) = Fulfilled tt ->
  Run.outcome (getTourDetails tourId env st) = Rejected error ->
  finalizeTour tourId selectedOptions env st
  = Run.mk (Fulfilled (failedFast error)) (atHandlers env st)
           (Run.events (initializeShipHero env st)).
Proof.
  intros Hinit Hload.
  unfold finalizeTour, newErrors.
  rewrite bind_assoc, bind_get, bind_put.
  unfold try_catch. cbv zeta.
  erewrite bind_returns
    by (apply initializeShipHero_ok with (st0 := st); exact Hinit).
  erewrite bind_throws
    by (apply getTourDetails_fails with (st0 := st);
        [reflexivity | exact Hload]).
  cbn. now rewrite !app_nil_r.
Qed.

(* ================================================================== *)
(** ** The guide *)

Lemma includes_In (xs : list string) (x : string) :
  JS.includes xs x = true <-> In x xs.
Proof.
  induction xs as [|y ys IH]; cbn.
  - split; [discriminate | contradiction].
  - destruct (String.eqb y x) eqn:E.
    + apply String.eqb_eq in E. tauto.
    + apply String.eqb_neq in E. rewrite IH. tauto.
Qed.

Lemma includes_Permutation (xs ys : list string) (x : string) :
  Permutation xs ys -> JS.includes xs x = JS.includes ys x.
Proof.
  intro H.
  destruct (JS.includes xs x) eqn:E1, (JS.includes ys x) eqn:E2;
    try reflexivity.
  - apply includes_In in E1. apply (Permutation_in _ H) in E1.
    apply includes_In in E1. congruence.
  - apply includes_In in E2. apply (Permutation_in _ (Permutation_sym H)) in E2.
    apply includes_In in E2. congruence.
Qed.

Lemma selects_Permutation (sel sel' : list WorkflowOption) (w : WorkflowOption) :
  Permutation sel sel' -> selects sel w = selects sel' w.
Proof.
  intro H. unfold selects.
  destruct (existsb (WorkflowOption_eqb w) sel) eqn:E1,
           (existsb (WorkflowOption_eqb w) sel') eqn:E2; try reflexivity.
  - apply existsb_exists in E1. destruct E1 as (x & Hin & Hx).
    apply (Permutation_in _ H) in Hin.
    assert (existsb (WorkflowOption_eqb w) sel' = true)
      by (apply existsb_exists; eauto).
    congruence.
  - apply existsb_exists in E2. destruct E2 as (x & Hin & Hx).
    apply (Permutation_in _ (Permutation_sym H)) in Hin.
    assert (existsb (WorkflowOption_eqb w) sel = true)
      by (apply existsb_exists; eauto).
    congruence.
Qed.

Lemma guideSections_demonstrations (tourData : TourData.t) :
  demonstrations (guideSections tourData)
  = numbered (filter (selectedInTour tourData) guideOrder).
Proof.
  unfold guideSections, demonstrate, guideOrder, selectedInTour.
  cbn [filter workflowName].
  destruct (JS.includes _ "receive_to_light");
    destruct (JS.includes _ "pack_to_light");
    destruct (JS.includes _ "multi_item_batch");
    destruct (JS.includes _ "single_item_batch");
    destruct (JS.includes _ "bulk_shipping");
    reflexivity.
Qed.

(* ================================================================== *)
(** ** Batches whose submissions all succeed *)

Lemma answers_all_created env :
  (forall n, exists response order,
      Env.orders_endpoint env n = Fulfilled response /\
      Response.ok response = true /\
      OrdersJson.order (Response.json response) = Some order) ->
  forall n st,
  exists results,
    batchAnswers env st n = map Fulfilled results /\
    length results = n /\
    Forall (fun r => hasOrder r = true) results.
Proof.
  intro H. induction n as [|n IH]; intro st.
  - exists []. repeat split. constructor.
  - rewrite batchAnswers_S.
    destruct (H (State.posts st)) as (response & order & -> & Hok & Ho).
    destruct (IH (State.mk (State.shipHero st) (State.errors st)
                           (State.draws st) (S (State.posts st)) (State.reads st)))
      as (results & R & L & F).
    exists (Response.json response :: results).
    cbn [settleResponse]. rewrite Hok. cbn [negb].
    rewrite R. repeat split.
    + cbn. now rewrite L.
    + constructor; [|assumption]. unfold hasOrder. now rewrite Ho.
Qed.

Lemma batch_all_created env :
  (forall n, exists response order,
      Env.orders_endpoint env n = Fulfilled response /\
      Response.ok response = true /\
      OrdersJson.order (Response.json response) = Some order) ->
  forall n st,
  exists created,
    batchOf env st n = Fulfilled created /\
    length created = n.
Proof.
  intros H n st.
  destruct (@answers_all_created env H n st) as (results & R & L & F).
  exists (createdOrders results). unfold batchOf, batchOutcome.
  rewrite R, (proj2 (Promise_all_fulfilled _ (map Fulfilled results) results)
                eq_refl).
  split; [reflexivity|]. now rewrite createdOrders_all.
Qed.

(* ================================================================== *)
(** ** What a handler makes of its batches *)

Lemma batchOf_posts env st st' n :
  State.posts st = State.posts st' -> batchOf env st n = batchOf env st' n.
Proof.
  intro H. unfold batchOf.
  now rewrite H, (@batchAnswers_posts env st st' n H).
Qed.

(** The batch of participant orders leaves the session as it was, with
    one more create call per participant. *)
Lemma createParticipantOrders_final tourData orderPrefix env st token :
  State.shipHero st = Some token ->
  TourData.selected_skus tourData <> [] ->
  State.shipHero
    (Run.final (createParticipantOrders tourData orderPrefix env st))
  = Some token /\
  State.posts (Run.final (createParticipantOrders tourData orderPrefix env st))
  = State.posts st + length (TourData.participants tourData).
Proof.
  intros Hs Hk.
  destruct (TourData.participants tourData) as [|p ps] eqn:E.
  - unfold createParticipantOrders. rewrite E. cbn. split; [exact Hs | lia].
  - assert (Hne : TourData.participants tourData <> [])
      by (rewrite E; discriminate).
    rewrite (@createParticipantOrders_run tourData orderPrefix env st token
               Hs Hk Hne).
    rewrite E. now split.
Qed.

(** A handler that submits the participant orders and then a batch of
    demo orders. *)
Lemma twoBatches_outcome tourData orderPrefix
  (demo : M (list CreatedOrder)) count env st token :
  State.shipHero st = Some token ->
  TourData.selected_skus tourData <> [] ->
  (forall st', State.shipHero st' = Some token ->
               Run.outcome (demo env st') = batchOf env st' count) ->
  Run.outcome
    ((participantOrders <- createParticipantOrders tourData orderPrefix ;;
      demoOrders <- demo ;;
      ret tt) env st)
  = twoBatches
      (batchOf env st (length (TourData.participants tourData)))
      (batchOf env
         (posted (length (TourData.participants tourData)) st) count).
Proof.
  intros Hs Hk Hdemo.
  pose proof (@createParticipantOrders_outcome tourData orderPrefix env st
                token Hs Hk) as Ho.
  destruct (@createParticipantOrders_final tourData orderPrefix env st token
              Hs Hk) as [Hs1 Hp1].
  unfold bind, twoBatches.
  destruct (createParticipantOrders tourData orderPrefix env st)
    as [[error|created] st1 evs1];
    cbn [Run.outcome Run.final Run.events] in *; rewrite <- Ho;
    [reflexivity|].
  rewrite (Hdemo st1 Hs1).
  rewrite (@batchOf_posts env st1
             (posted (length (TourData.participants tourData)) st) count)
    by exact Hp1.
  destruct (batchOf env _ count); reflexivity.
Qed.

Lemma createBulkShippingSOs_outcome tourData env st token :
  State.shipHero st = Some token ->
  TourData.selected_skus tourData <> [] ->
  Run.outcome (createBulkShippingSOs tourData env st)
  = twoBatches
      (batchOf env st (length (TourData.participants tourData)))
      (batchOf env (posted (length (TourData.participants tourData)) st) 10).
Proof.
  intros Hs Hk. unfold createBulkShippingSOs.
  apply twoBatches_outcome with (token := token); try assumption.
  intros st' Hs'. now apply createDemoOrders_outcome with (token := token).
Qed.

Lemma createSingleItemBatchSOs_outcome tourData env st token :
  State.shipHero st = Some token ->
  TourData.selected_skus tourData <> [] ->
  Run.outcome (createSingleItemBatchSOs tourData env st)
  = twoBatches
      (batchOf env st (length (TourData.participants tourData)))
      (batchOf env (posted (length (TourData.participants tourData)) st) 5).
Proof.
  intros Hs Hk. unfold createSingleItemBatchSOs.
  apply twoBatches_outcome with (token := token); try assumption.
  intros st' Hs'. now apply createDemoOrders_outcome with (token := token).
Qed.

Lemma createMultiItemBatchSOs_outcome tourData env st token :
  State.shipHero st = Some token ->
  TourData.selected_skus tourData <> [] ->
  Run.outcome (createMultiItemBatchSOs tourData env st)
  = twoBatches
      (batchOf env st (length (TourData.participants tourData)))
      (batchOf env (posted (length (TourData.participants tourData)) st) 5).
Proof.
  intros Hs Hk. unfold createMultiItemBatchSOs.
  apply twoBatches_outcome with (token := token); try assumption.
  intros st' Hs'.
  now apply createMultiItemDemoOrders_outcome with (token := token).
Qed.

Lemma createPackToLightWorkflowOrders_outcome tourData env st token :
  State.shipHero st = Some token ->
  TourData.selected_skus tourData <> [] ->
  Run.outcome (createPackToLightWorkflowOrders tourData env st)
  = packToLightOutcome env st (length (TourData.participants tourData)).
Proof.
  intros Hs Hk.
  pose proof (@createParticipantOrders_outcome tourData "P2L" env st
                token Hs Hk) as Ho.
  destruct (@createParticipantOrders_final tourData "P2L" env st token
              Hs Hk) as [Hs1 Hp1].
  unfold createPackToLightWorkflowOrders, packToLightOutcome.
  set (n := length (TourData.participants tourData)) in *.
  destruct (createParticipantOrders tourData "P2L" env st)
    as [[error|created] st1 evs1] eqn:R1;
    cbn [Run.outcome Run.final Run.events] in *; rewrite <- Ho.
  - erewrite bind_throws by exact R1. reflexivity.
  - erewrite bind_returns by exact R1.
    unfold after. cbn [Run.outcome].
    destruct (Nat.eqb (length created) 0).
    + pose proof (@createHostDemoOrders_run tourData "P2L-HOST" 3 env st1
                    token Hs1 Hk) as R2.
      rewrite (@batchOf_posts env st1 (posted n st) 3) in R2 by exact Hp1.
      destruct (batchOf env (posted n st) 3) as [error|hostOrders].
      * erewrite bind_throws
          by (erewrite bind_throws by exact R2; reflexivity).
        reflexivity.
      * erewrite bind_returns
          by (erewrite bind_returns by exact R2; reflexivity).
        unfold after. cbn [Run.outcome].
        erewrite createStandardReceivingPO_outcome
          by (try reflexivity; exact Hk).
        cbn [State.posts]. rewrite Hp1. reflexivity.
    + rewrite bind_ret.
      erewrite createStandardReceivingPO_outcome by eassumption.
      now rewrite Hp1.
Qed.

(* ================================================================== *)
(** ** Fields of the single-line orders *)

Lemma salesOrders_singleLineRequests build env st n :
  salesOrders (singleLineRequests build env st n)
  = map (fun k => build k (draw3 env st (2 * k)) (draw3 env st (2 * k + 1)))
        (seq 0 n).
Proof.
  unfold singleLineRequests, salesOrders.
  induction (seq 0 n) as [|k rest IH]; [reflexivity|].
  cbn [map flat_map List.app]. now rewrite IH.
Qed.

Lemma singleLine_fields (build : nat -> nat -> nat -> SalesOrder.t) env st n :
  (forall i q p,
      quantities (build i q p) = [(q, p)] /\
      SalesOrder.subtotal (build i q p) = JS.toString (q * 15) /\
      SalesOrder.total_price (build i q p) = JS.toString (q * 15)) ->
  let orders := salesOrders (singleLineRequests build env st n) in
  map quantities orders
  = map (fun k => [(draw3 env st (2 * k), draw3 env st (2 * k + 1))]) (seq 0 n) /\
  map SalesOrder.subtotal orders
  = map (fun k => JS.toString (draw3 env st (2 * k) * 15)) (seq 0 n) /\
  map SalesOrder.total_price orders
  = map (fun k => JS.toString (draw3 env st (2 * k) * 15)) (seq 0 n).
Proof.
  intros Hb orders. subst orders.
  rewrite salesOrders_singleLineRequests, !map_map.
  repeat split; apply map_ext; intro k; apply Hb.
Qed.

Lemma singleLineOrderData_fields tourData clock orderPrefix linePrefix
  i q p first last email tags :
  let d := singleLineOrderData tourData clock orderPrefix linePrefix i q p
                               first last email tags in
  quantities d = [(q, p)] /\
  SalesOrder.subtotal d = JS.toString (q * 15) /\
  SalesOrder.total_price d = JS.toString (q * 15).
Proof. repeat split. Qed.

Lemma draw3_withRandom env st x y :
  let env' := withRandom env
                (fun n => if Nat.eqb n (State.draws st) then x else y) in
  draw3 env' st 0 = x mod 3 + 1 /\ draw3 env' st 1 = y mod 3 + 1.
Proof.
  unfold draw3, withRandom. cbn [Env.math_random].
  rewrite Nat.add_0_r, Nat.eqb_refl.
  replace (Nat.eqb (State.draws st + 1) (State.draws st)) with false
    by (symmetry; apply Nat.eqb_neq; lia).
  now split.
Qed.

(* ================================================================== *)
(** ** The result of a finalization *)

Lemma handlersRun_true tourId env st :
  handlersRun tourId env st = true ->
  Run.outcome (initializeShipHero env st) = Fulfilled tt /\
  exists tourData,
    Run.outcome (getTourDetails tourId env st) = Fulfilled tourData.
Proof.
  unfold handlersRun.
  destruct (Run.outcome (initializeShipHero env st)) as [error|[]];
    [discriminate|].
  destruct (Run.outcome (getTourDetails tourId env st)) as [error|tourData];
    [discriminate|].
  eauto.
Qed.

Lemma selectedHandlers_Permutation (sel sel' : list WorkflowOption) :
  Permutation sel sel' -> selectedHandlers sel' = selectedHandlers sel.
Proof.
  intro H. unfold selectedHandlers.
  apply filter_ext. intro w. now apply selects_Permutation.
Qed.

(** Each run is that of the handler of its workflow, from a state of the
    same session. *)
Lemma handlerRuns_in_session tourData ws env st w run :
  In (w, run) (handlerRuns tourData ws env st) ->
  In w ws /\
  exists st',
    run = handlerOf tourData w env st' /\
    State.shipHero st' = State.shipHero st /\
    State.reads st' = State.reads st.
Proof.
  revert st.
  induction ws as [|w0 rest IH]; intros st Hin; [contradiction|].
  cbn [handlerRuns] in Hin. destruct Hin as [Heq|Hin].
  - injection Heq as <- <-. split; [now left|]. now exists st.
  - destruct (IH _ Hin) as (Hw & st' & Hr & Hs & Hd).
    split; [now right|].
    pose proof (afterBlock_session tourData w0 env st) as K.
    unfold session in K. injection K as K1 _ K3.
    exists st'. split; [exact Hr|]. split; congruence.
Qed.

Lemma entriesOf_In (runs : list (WorkflowOption * Run.t unit)) w run error :
  In (w, run) runs ->
  Run.outcome run = Rejected error ->
  In (workflowLabel w ++ " failed: " ++ messageOf error) (entriesOf runs).
Proof.
  intros Hin Ho. unfold entriesOf. apply in_flat_map.
  exists (w, run). split; [exact Hin|].
  cbn [fst snd]. rewrite Ho. now left.
Qed.

(** The entries are those of the runs that threw, and no other. *)
Lemma entriesOf_inv (runs : list (WorkflowOption * Run.t unit)) entry :
  In entry (entriesOf runs) ->
  exists w run error,
    In (w, run) runs /\
    Run.outcome run = Rejected error /\
    entry = workflowLabel w ++ " failed: " ++ messageOf error.
Proof.
  unfold entriesOf. rewrite in_flat_map.
  intros ([w run] & Hin & He). cbn [fst snd] in He.
  destruct (Run.outcome run) as [error|[]] eqn:Ho; cbn in He;
    [|contradiction].
  destruct He as [<-|[]]. now exists w, run, error.
Qed.

Lemma entriesOf_none (runs : list (WorkflowOption * Run.t unit)) :
  entriesOf runs = [] <->
  (forall w run, In (w, run) runs -> Run.outcome run = Fulfilled tt).
Proof.
  unfold entriesOf. induction runs as [|[w0 run0] rest IH]; cbn [flat_map].
  - split; [intros _ w run [] | reflexivity].
  - cbn [fst snd]. split.
    + intros H w run [Heq|Hin].
      * injection Heq as <- <-.
        destruct (Run.outcome run0) as [error|[]]; [discriminate|reflexivity].
      * apply app_eq_nil in H. destruct H as [_ H].
        now apply (proj1 IH H w run).
    + intro H. rewrite (H w0 run0) by now left. cbn [entryOf List.app].
      apply IH. intros w run Hin. apply (H w). now right.
Qed.

(** The fields of what [finalizeTour] returns after the logic blocks. *)
Lemma concluded_success tourId tourData again env selectedOptions errors :
  FinalizeResult.success
    (concluded tourId tourData again env selectedOptions errors) = true <->
  FinalizeResult.errors
    (concluded tourId tourData again env selectedOptions errors) = [].
Proof.
  unfold concluded, finalized, failedWith.
  destruct again as [error|reloaded]; cbn; [split; discriminate|].
  destruct (Supabase.update_tours_status _ _ _); cbn; [split; discriminate|].
  destruct errors; cbn; split; congruence.
Qed.

Lemma concluded_incl tourId tourData again env selectedOptions errors entry :
  In entry errors ->
  In entry
     (FinalizeResult.errors
        (concluded tourId tourData again env selectedOptions errors)).
Proof.
  intro H. unfold concluded, finalized, failedWith.
  destruct again as [error|reloaded]; cbn; [now right|].
  destruct (Supabase.update_tours_status _ _ _); cbn; [now right | exact H].
Qed.

(** [finalizeTour] always resolves. *)
Lemma finalizeTour_resolves tourId selectedOptions env st :
  exists r,
    Run.outcome (finalizeTour tourId selectedOptions env st) = Fulfilled r /\
    (FinalizeResult.success r = true <-> FinalizeResult.errors r = []).
Proof.
  destruct (Run.outcome (initializeShipHero env st)) as [error|[]] eqn:Hinit.
  - rewrite (finalizeTour_session_fails tourId selectedOptions env st Hinit).
    eexists. split; [reflexivity|]. cbn. split; discriminate.
  - destruct (Run.outcome (getTourDetails tourId env st))
      as [error|tourData] eqn:Hload.
    + rewrite (finalizeTour_loading_fails tourId selectedOptions env st
                 Hinit Hload).
      eexists. split; [reflexivity|]. cbn. split; discriminate.
    + rewrite (finalizeTour_unfold tourId selectedOptions env st Hinit Hload).
      eexists. split; [reflexivity|]. apply concluded_success.
Qed.

(** The requests of any finalization: those of the session setup, those
    of the handlers that ran, and the update of the status. *)
Lemma finalizeTour_events tourId selectedOptions env st :
  Run.events (finalizeTour tourId selectedOptions env st)
  = (Run.events (initializeShipHero env st)
     ++ requestsOf (ranHandlers tourId selectedOptions env st)
     ++ statusTail tourId env st)%list.
Proof.
  unfold ranHandlers, statusTail, handlersRun.
  destruct (Run.outcome (initializeShipHero env st)) as [error|[]] eqn:Hinit.
  - rewrite (finalizeTour_session_fails tourId selectedOptions env st Hinit).
    cbn. now rewrite app_nil_r.
  - destruct (Run.outcome (getTourDetails tourId env st))
      as [error|tourData] eqn:Hload.
    + rewrite (finalizeTour_loading_fails tourId selectedOptions env st
                 Hinit Hload).
      cbn. now rewrite app_nil_r.
    + rewrite (finalizeTour_unfold tourId selectedOptions env st Hinit Hload).
      reflexivity.
Qed.

Lemma ranHandlers_Permutation tourId sel sel' env st :
  Permutation sel sel' ->
  ranHandlers tourId sel' env st = ranHandlers tourId sel env st.
Proof.
  intro H. unfold ranHandlers.
  now rewrite (selectedHandlers_Permutation H).
Qed.

Lemma ranHandlers_workflows tourId selectedOptions env st :
  map fst (ranHandlers tourId selectedOptions env st)
  = if handlersRun tourId env st
    then filter (selects selectedOptions) executionOrder
    else [].
Proof.
  unfold ranHandlers, handlersRun.
  destruct (Run.outcome (initializeShipHero env st)) as [error|[]];
    [reflexivity|].
  destruct (Run.outcome (getTourDetails tourId env st)) as [error|tourData];
    [reflexivity|].
  apply handlerRuns_workflows.
Qed.

Lemma ranHandlers_in_session tourId selectedOptions env st w run :
  In (w, run) (ranHandlers tourId selectedOptions env st) ->
  selects selectedOptions w = true /\
  exists tourData st',
    Run.outcome (getTourDetails tourId env st) = Fulfilled tourData /\
    run = handlerOf tourData w env st' /\
    State.shipHero st' = Some (accessToken env).
Proof.
  unfold ranHandlers.
  destruct (Run.outcome (initializeShipHero env st)) as [error|[]];
    [contradiction|].
  destruct (Run.outcome (getTourDetails tourId env st)) as [error|tourData];
    [contradiction|].
  intro Hin. apply handlerRuns_in_session in Hin.
  destruct Hin as (Hw & st' & Hr & Hs & _).
  unfold selectedHandlers in Hw. apply filter_In in Hw.
  split; [apply Hw|].
  now exists tourData, st'.
Qed.



(* ================================================================== *)
(** * The claims *)

(** C1, as the code has it.  A batch of sales orders (participant, demo,
    host-demo or multi-item demo orders) resolves to what [Promise.all]
    makes of the settled answers.  When every create call is answered
    with an ok response, the batch returns the orders that were created,
    an answer without an order only lowering their number.  When a
    create call is rejected (a response that is not ok, or a transport
    error), the whole batch is rejected with one of the rejections,
    whichever arrives first.  The handlers throw what their batches
    throw: the bulk-shipping, single-item and multi-item handlers what
    the participant batch or else the demo batch throws, the
    pack-to-light handler what its participant batch, its host batch or
    its purchase order throws.  The purchase-order handler throws when
    its one create call is rejected or answered without a purchase
    order.  What a handler throws, [finalizeTour] records under the
    label of the workflow, and returns success=false. *)
Theorem sales_batch_outcome env st token tourData orderPrefix count workflowName :
  State.shipHero st = Some token ->
  TourData.selected_skus tourData <> [] ->
  let n := length (TourData.participants tourData) in
  (Run.outcome (createParticipantOrders tourData orderPrefix env st)
   = batchOf env st n /\
   Run.outcome (createDemoOrders tourData orderPrefix count env st)
   = batchOf env st count /\
   Run.outcome (createHostDemoOrders tourData orderPrefix count env st)
   = batchOf env st count /\
   Run.outcome (createMultiItemDemoOrders tourData orderPrefix count env st)
   = batchOf env st count) /\
  (forall first results,
      batchOutcome first (map Fulfilled results)
      = Fulfilled (createdOrders results) /\
      length (createdOrders results) + length (failures results)
      = length results) /\
  (forall first answers error,
      In (Rejected error) answers ->
      exists error',
        batchOutcome first answers = Rejected error' /\
        In (Rejected error') answers) /\
  (forall answers error,
      In (Rejected error) answers ->
      exists first, batchOutcome first answers = Rejected error) /\
  (Run.outcome (createBulkShippingSOs tourData env st)
   = twoBatches (batchOf env st n) (batchOf env (posted n st) 10) /\
   Run.outcome (createSingleItemBatchSOs tourData env st)
   = twoBatches (batchOf env st n) (batchOf env (posted n st) 5) /\
   Run.outcome (createMultiItemBatchSOs tourData env st)
   = twoBatches (batchOf env st n) (batchOf env (posted n st) 5) /\
   Run.outcome (createPackToLightWorkflowOrders tourData env st)
   = packToLightOutcome env st n) /\
  Run.outcome (createStandardReceivingPO tourData workflowName env st)
  = purchaseOutcome workflowName
      (settleResponse "purchase order"
         (Env.orders_endpoint env (State.posts st))) /\
  (forall tourId selectedOptions st0 w run error,
      Run.outcome (initializeShipHero env st0) = Fulfilled tt ->
      Run.outcome (getTourDetails tourId env st0) = Fulfilled tourData ->
      In (w, run) (ranHandlers tourId selectedOptions env st0) ->
      Run.outcome run = Rejected error ->
      (exists st',
          run = handlerOf tourData w env st' /\
          State.shipHero st' = Some (accessToken env)) /\
      exists r,
        Run.outcome (finalizeTour tourId selectedOptions env st0)
        = Fulfilled r /\
        FinalizeResult.success r = false /\
        In (workflowLabel w ++ " failed: " ++ messageOf error)
           (FinalizeResult.errors r)).
Proof.
  intros Hs Hk n. subst n.
  split.
  { split; [now apply createParticipantOrders_outcome with (token := token)|].
    split; [now apply createDemoOrders_outcome with (token := token)|].
    split; [now apply createHostDemoOrders_outcome with (token := token)|].
    now apply createMultiItemDemoOrders_outcome with (token := token). }
  split.
  { intros first results. split; [|apply createdOrders_length].
    unfold batchOutcome.
    now rewrite (proj2 (Promise_all_fulfilled first (map Fulfilled results)
                          results) eq_refl). }
  split.
  { intros first answers error Hin. unfold batchOutcome.
    destruct (@Promise_all_rejected _ first answers error Hin)
      as (error' & -> & Hin').
    now exists error'. }
  split.
  { intros answers error Hin. unfold batchOutcome.
    destruct (@Promise_all_any _ answers error Hin) as (first & E).
    exists first. now rewrite E. }
  split.
  { split; [now apply createBulkShippingSOs_outcome with (token := token)|].
    split;
      [now apply createSingleItemBatchSOs_outcome with (token := token)|].
    split;
      [now apply createMultiItemBatchSOs_outcome with (token := token)|].
    now apply createPackToLightWorkflowOrders_outcome with (token := token). }
  split; [now apply createStandardReceivingPO_outcome with (token := token)|].
  intros tourId selectedOptions st0 w run error Hinit Hload Hin Ho.
  split.
  { destruct (ranHandlers_in_session _ _ _ _ _ _ Hin)
      as (_ & tourData' & st' & Hload' & Hr & Hs').
    rewrite Hload in Hload'. injection Hload' as <-.
    now exists st'. }
  rewrite (finalizeTour_unfold tourId selectedOptions env st0 Hinit Hload).
  unfold ranHandlers in Hin. rewrite Hinit, Hload in Hin.
  pose proof (entriesOf_In _ _ _ Hin Ho) as He.
  eexists. split; [reflexivity|].
  split; [|now apply concluded_incl].
  match goal with
  | |- FinalizeResult.success ?r = false =>
      destruct (FinalizeResult.success r) eqn:E; [|reflexivity]
  end.
  apply concluded_success in E.
  eapply concluded_incl in He. rewrite E in He. contradiction.
Qed.

Lemma sales_batch_outcome_witness :
  State.shipHero inSession = Some "access" /\
  TourData.selected_skus bulkTour <> [] /\
  Run.outcome (createDemoOrders bulkTour "BULK-DEMO" 10
                 (bulkEnv alwaysCreated None) inSession)
  = batchOf (bulkEnv alwaysCreated None) inSession 10.
Proof.
  split; [reflexivity|].
  split; [discriminate|].
  apply (@sales_batch_outcome (bulkEnv alwaysCreated None) inSession "access"
           bulkTour "BULK-DEMO" 10 "STANDARD-RECEIVING");
    [reflexivity | discriminate].
Defined.

(** C1 fails as stated: the fourth create call of a bulk-shipping
    finalization is answered 500, a single failed sales order, and the
    demo batch throws, so the workflow is recorded as failed. *)
Lemma rejected_sales_order_fails_workflow :
  Run.outcome (createBulkShippingSOs bulkTour (bulkEnv (failsAt 3) None) inSession)
  = Rejected (Error "Failed to create sales order: 500 Internal Server Error") /\
  exists r,
    Run.outcome (finalizeTour "tour-1" [bulk_shipping]
                   (bulkEnv (failsAt 3) None) newService)
    = Fulfilled r /\
    FinalizeResult.success r = false /\
    FinalizeResult.errors r
    = ["Bulk Shipping SOs failed: Failed to create sales order: 500 Internal Server Error"].
Proof.
  split; [vm_compute; reflexivity|].
  eexists. split; [vm_compute; reflexivity|].
  split; reflexivity.
Qed.

(** Of two rejected create calls, the batch throws the one that arrives
    first, which need not be the first of the array. *)
Example batch_throws_the_first_to_arrive :
  Run.outcome (createParticipantOrders bulkTour "BULK" (racingEnv 0) inSession)
  = Rejected (Error "Failed to create sales order: 500 Internal Server Error") /\
  Run.outcome (createParticipantOrders bulkTour "BULK" (racingEnv 1) inSession)
  = Rejected (Error "network down").
Proof. split; vm_compute; reflexivity. Qed.

(** C2, as the code has it.  The guide has one demonstration for each
    selected workflow among receive-to-light, pack-to-light,
    multi-item-batch, single-item-batch and bulk-shipping, in this order
    and numbered from 1; standard-receiving has no demonstration.  The
    order in which the workflows were selected does not matter. *)
Theorem guide_demonstrations_in_template_order tourData tourData' :
  Permutation (TourData.selected_workflows tourData)
              (TourData.selected_workflows tourData') ->
  demonstrations (guideSections tourData)
  = numbered (filter (selectedInTour tourData) guideOrder) /\
  demonstrations (guideSections tourData')
  = demonstrations (guideSections tourData).
Proof.
  intro H. split; [apply guideSections_demonstrations|].
  rewrite !guideSections_demonstrations. f_equal.
  apply filter_ext. intro w. unfold selectedInTour.
  symmetry. now apply includes_Permutation.
Qed.

Lemma guide_demonstrations_in_template_order_witness :
  Permutation
    (TourData.selected_workflows
       (sampleTour ["bulk_shipping"; "receive_to_light"] sampleSkus []))
    (TourData.selected_workflows
       (sampleTour ["receive_to_light"; "bulk_shipping"] sampleSkus [])) /\
  demonstrations
    (guideSections
       (sampleTour ["receive_to_light"; "bulk_shipping"] sampleSkus []))
  = demonstrations
      (guideSections
         (sampleTour ["bulk_shipping"; "receive_to_light"] sampleSkus [])).
Proof.
  split; [apply perm_swap|].
  apply (@guide_demonstrations_in_template_order
           (sampleTour ["bulk_shipping"; "receive_to_light"] sampleSkus [])
           (sampleTour ["receive_to_light"; "bulk_shipping"] sampleSkus [])).
  apply perm_swap.
Defined.

(** C2 fails as stated: with bulk shipping, multi-item batch and standard
    receiving selected the guide shows multi-item batch before bulk
    shipping and nothing for standard receiving, which is not the order
    of execution. *)
Lemma guide_not_in_execution_order :
  map snd (demonstrations (guideSections mixedTour))
  = [multi_item_batch; bulk_shipping] /\
  filter (selectedInTour mixedTour) executionOrder
  = [standard_receiving; bulk_shipping; multi_item_batch] /\
  map snd (demonstrations (guideSections mixedTour))
  <> filter (selectedInTour mixedTour) executionOrder.
Proof.
  split; [reflexivity|]. split; [reflexivity|]. discriminate.
Qed.

(** C3.  The requests of a finalization are those of the session
    setup, then those the handlers of the selected workflows send, one
    handler after the other in the order receive-to-light,
    pack-to-light, standard-receiving, bulk-shipping, single-item-batch,
    multi-item-batch, each handler starting from the state the one
    before left (none when the session or the tour data is not there),
    then the update of the status.  The handlers that run, and all the
    requests, are the same whatever the order of [selectedOptions]. *)
Theorem handlers_run_in_execution_order tourId selectedOptions selectedOptions'
  env st :
  Permutation selectedOptions selectedOptions' ->
  let runs := ranHandlers tourId selectedOptions env st in
  Run.events (finalizeTour tourId selectedOptions env st)
  = (Run.events (initializeShipHero env st)
     ++ requestsOf runs
     ++ statusTail tourId env st)%list /\
  map fst runs
  = (if handlersRun tourId env st
     then filter (selects selectedOptions) executionOrder
     else []) /\
  (forall w run,
      In (w, run) runs ->
      selects selectedOptions w = true /\
      exists tourData st',
        Run.outcome (getTourDetails tourId env st) = Fulfilled tourData /\
        run = handlerOf tourData w env st' /\
        State.shipHero st' = Some (accessToken env)) /\
  (forall tourData,
      Run.outcome (initializeShipHero env st) = Fulfilled tt ->
      Run.outcome (getTourDetails tourId env st) = Fulfilled tourData ->
      runs = handlerRuns tourData
               (filter (selects selectedOptions) executionOrder) env
               (atHandlers env st)) /\
  ranHandlers tourId selectedOptions' env st = runs /\
  Run.events (finalizeTour tourId selectedOptions' env st)
  = Run.events (finalizeTour tourId selectedOptions env st).
Proof.
  intros H runs. subst runs.
  split; [apply finalizeTour_events|].
  split; [apply ranHandlers_workflows|].
  split; [intros w run; apply ranHandlers_in_session|].
  split.
  { intros tourData Hinit Hload. unfold ranHandlers.
    now rewrite Hinit, Hload. }
  split; [now apply ranHandlers_Permutation|].
  rewrite !finalizeTour_events.
  now rewrite (ranHandlers_Permutation tourId env st H).
Qed.

Lemma handlers_run_in_execution_order_witness :
  Permutation [multi_item_batch; bulk_shipping] [bulk_shipping; multi_item_batch] /\
  map fst
      (ranHandlers "tour-1" [multi_item_batch; bulk_shipping]
         (bulkEnv alwaysCreated None) newService)
  = [bulk_shipping; multi_item_batch].
Proof.
  split; [apply perm_swap|].
  destruct (@handlers_run_in_execution_order "tour-1"
              [multi_item_batch; bulk_shipping]
              [bulk_shipping; multi_item_batch]
              (bulkEnv alwaysCreated None) newService (perm_swap _ _ _))
    as (_ & H & _).
  rewrite H. reflexivity.
Defined.

(** With multi-item batch selected before bulk shipping, the orders of
    the bulk-shipping handler are sent first all the same. *)
Example bulk_shipping_runs_before_multi_item_batch :
  map SalesOrder.order_number
      (salesOrders
         (Run.events
            (finalizeTour "tour-1" [multi_item_batch; bulk_shipping]
               (bulkEnv alwaysCreated None) newService)))
  = ["BULK-PARTICIPANT-1"; "BULK-PARTICIPANT-2";
     "BULK-DEMO-1"; "BULK-DEMO-2"; "BULK-DEMO-3"; "BULK-DEMO-4";
     "BULK-DEMO-5"; "BULK-DEMO-6"; "BULK-DEMO-7"; "BULK-DEMO-8";
     "BULK-DEMO-9"; "BULK-DEMO-10";
     "MULTI-PARTICIPANT-1"; "MULTI-PARTICIPANT-2";
     "MULTI-DEMO-1"; "MULTI-DEMO-2"; "MULTI-DEMO-3"; "MULTI-DEMO-4";
     "MULTI-DEMO-5"].
Proof. vm_compute. reflexivity. Qed.

(** C4.  When the session setup fails, [finalizeTour] returns
    success=false with the one top-level error in the error list and no
    instruction guide; its requests are those of the session setup
    alone: no order is submitted and the tour status is not written, and
    no create call is made and no random number drawn. *)
Theorem session_failure_fails_fast tourId selectedOptions env st error :
  Run.outcome (initializeShipHero env st) = Rejected error ->
  let run := finalizeTour tourId selectedOptions env st in
  Run.outcome run
  = Fulfilled
      (FinalizeResult.mk false
         ("Tour finalization failed: " ++ messageOf error)
         ["Tour finalization failed: " ++ messageOf error]
         None None) /\
  statusWrites (Run.events run) = [] /\
  (Run.events run = Run.events (initializeShipHero env st) /\
   ranHandlers tourId selectedOptions env st = [] /\
   State.posts (Run.final run) = State.posts st /\
   State.draws (Run.final run) = State.draws st) /\
  salesOrders (Run.events run) = [] /\
  purchaseOrders (Run.events run) = [].
Proof.
  intros Hinit run. subst run.
  rewrite (finalizeTour_session_fails tourId selectedOptions env st Hinit).
  cbn [Run.outcome Run.events Run.final State.posts State.draws].
  destruct (sessionEvents_only (emits_session_initializeShipHero env st))
    as (Hw & Hso & Hpo).
  unfold ranHandlers. rewrite Hinit.
  repeat split; assumption.
Qed.

Lemma session_failure_fails_fast_witness :
  Run.outcome
    (initializeShipHero
       (sampleEnv None (sampleSupabase [] sampleSkus [] None) alwaysCreated)
       newService)
  = Rejected (Error "ShipHero refresh token is required. Please configure it in Settings → ShipHero tab.") /\
  statusWrites
    (Run.events
       (finalizeTour "tour-1" [bulk_shipping]
          (sampleEnv None (sampleSupabase [] sampleSkus [] None) alwaysCreated)
          newService))
  = [].
Proof.
  split; [reflexivity|].
  apply (@session_failure_fails_fast "tour-1" [bulk_shipping]
           (sampleEnv None (sampleSupabase [] sampleSkus [] None) alwaysCreated)
           newService
           (Error "ShipHero refresh token is required. Please configure it in Settings → ShipHero tab.")).
  reflexivity.
Defined.




(** C6, as the code has it.  [finalizeTour] always returns, and its
    success flag is true exactly when the returned error list is empty.
    When the session and the tour data are there, the errors of the
    workflows are the entries of the handlers that threw.  When then the
    tour is loaded again for the guide and the write of the status
    succeeds, the returned error list is these entries, and when it is
    nonempty the message reports its length as the count of workflow
    errors.  When the write of the status is refused, or the tour cannot
    be loaded again, the call returns success=false and no guide, with
    the top-level message "Tour finalization failed: ..." in front of the
    workflow errors. *)
Theorem success_iff_no_errors tourId selectedOptions env st :
  exists r,
    Run.outcome (finalizeTour tourId selectedOptions env st) = Fulfilled r /\
    (FinalizeResult.success r = true <-> FinalizeResult.errors r = []) /\
    (forall tourData,
        Run.outcome (initializeShipHero env st) = Fulfilled tt ->
        Run.outcome (getTourDetails tourId env st) = Fulfilled tourData ->
        let entries :=
          entriesOf
            (handlerRuns tourData
               (filter (selects selectedOptions) executionOrder) env
               (atHandlers env st)) in
        (forall reloaded,
            reload tourId env st = Fulfilled reloaded ->
            Supabase.update_tours_status (Env.supabase env) tourId "finalized"
            = None ->
            FinalizeResult.errors r = entries /\
            FinalizeResult.instructionGuide r
            = Some (guideText reloaded (Env.clock env)) /\
            (FinalizeResult.errors r <> [] ->
             FinalizeResult.message r
             = "Tour finalized with "
                 ++ JS.toString (length (FinalizeResult.errors r))
                 ++ " workflow error(s). Instruction guide generated.") /\
            (FinalizeResult.errors r = [] ->
             FinalizeResult.message r
             = "Tour finalized successfully with all selected workflows. Instruction guide generated.")) /\
        (forall reloaded m,
            reload tourId env st = Fulfilled reloaded ->
            Supabase.update_tours_status (Env.supabase env) tourId "finalized"
            = Some m ->
            FinalizeResult.success r = false /\
            FinalizeResult.message r
            = "Tour finalization failed: Failed to update tour status: " ++ m /\
            FinalizeResult.errors r = FinalizeResult.message r :: entries /\
            FinalizeResult.instructionGuide r = None) /\
        (forall error,
            reload tourId env st = Rejected error ->
            FinalizeResult.success r = false /\
            FinalizeResult.message r
            = "Tour finalization failed: " ++ messageOf error /\
            FinalizeResult.errors r = FinalizeResult.message r :: entries /\
            FinalizeResult.instructionGuide r = None)).
Proof.
  destruct (finalizeTour_resolves tourId selectedOptions env st)
    as (r & Ho & Hiff).
  exists r. split; [exact Ho|]. split; [exact Hiff|].
  intros tourData Hinit Hload entries. subst entries.
  rewrite (finalizeTour_unfold tourId selectedOptions env st Hinit Hload)
    in Ho.
  cbn [Run.outcome] in Ho. injection Ho as <-.
  fold (selectedHandlers selectedOptions).
  split; [|split].
  - intros reloaded -> Hup. unfold concluded, finalized. rewrite Hup.
    cbn [FinalizeResult.errors FinalizeResult.message
         FinalizeResult.instructionGuide].
    split; [reflexivity|]. split; [reflexivity|].
    unfold successMessage.
    destruct (entriesOf _); [split; [congruence | reflexivity]|].
    split; [reflexivity | discriminate].
  - intros reloaded m -> Hup. unfold concluded, finalized. rewrite Hup.
    cbn. repeat split.
  - intros error ->. cbn. repeat split.
Qed.

Lemma success_iff_no_errors_witness :
  Run.outcome (initializeShipHero (bulkEnv (failsAt 3) None) newService)
  = Fulfilled tt /\
  Run.outcome (getTourDetails "tour-1" (bulkEnv (failsAt 3) None) newService)
  = Fulfilled bulkTour /\
  reload "tour-1" (bulkEnv (failsAt 3) None) newService = Fulfilled bulkTour /\
  Supabase.update_tours_status (Env.supabase (bulkEnv (failsAt 3) None))
    "tour-1" "finalized" = None /\
  exists r,
    Run.outcome (finalizeTour "tour-1" [bulk_shipping]
                   (bulkEnv (failsAt 3) None) newService)
    = Fulfilled r /\
    FinalizeResult.errors r <> [] /\
    FinalizeResult.message r
    = "Tour finalized with 1 workflow error(s). Instruction guide generated.".
Proof.
  split; [reflexivity|]. split; [reflexivity|]. split; [reflexivity|].
  split; [reflexivity|].
  destruct (@success_iff_no_errors "tour-1" [bulk_shipping]
              (bulkEnv (failsAt 3) None) newService)
    as (r & Ho & _ & Hm).
  exists r. split; [exact Ho|].
  assert (He : FinalizeResult.errors r
               = ["Bulk Shipping SOs failed: Failed to create sales order: 500 Internal Server Error"]).
  { vm_compute in Ho. injection Ho as <-. reflexivity. }
  split; [rewrite He; discriminate|].
  destruct (Hm bulkTour eq_refl eq_refl) as (Hok & _).
  destruct (Hok bulkTour eq_refl eq_refl) as (_ & _ & Hmsg & _).
  rewrite Hmsg; [|rewrite He; discriminate].
  rewrite He. reflexivity.
Defined.

(** C6 fails as stated: the handler sequence completes without an error
    (its twelve orders are sent and created), the write of the status is
    refused, and the call returns a nonempty error list with a message
    that reports no count. *)
Lemma refused_status_write_reports_no_count :
  exists r,
    Run.outcome (finalizeTour "tour-1" [bulk_shipping]
                   (bulkEnv alwaysCreated (Some "permission denied"))
                   newService)
    = Fulfilled r /\
    entriesOf
      (ranHandlers "tour-1" [bulk_shipping]
         (bulkEnv alwaysCreated (Some "permission denied")) newService)
    = [] /\
    length
      (salesOrders
         (Run.events (finalizeTour "tour-1" [bulk_shipping]
                        (bulkEnv alwaysCreated (Some "permission denied"))
                        newService)))
    = 12 /\
    FinalizeResult.errors r
    = ["Tour finalization failed: Failed to update tour status: permission denied"] /\
    FinalizeResult.message r
    = "Tour finalization failed: Failed to update tour status: permission denied" /\
    FinalizeResult.message r <> successMessage (FinalizeResult.errors r).
Proof.
  eexists. split; [vm_compute; reflexivity|].
  split; [vm_compute; reflexivity|].
  split; [vm_compute; reflexivity|].
  split; [reflexivity|]. split; [reflexivity|].
  vm_compute. discriminate.
Qed.

Lemma participantOrderData_lineCount tourData clock orderPrefix i participant :
  lineCount (participantOrderData tourData clock orderPrefix i participant)
  = Nat.min 3 (length (TourData.selected_skus tourData)).
Proof.
  unfold lineCount, participantOrderData, participantLineItems, indexed, JS.slice0.
  cbn [SalesOrder.line_items].
  rewrite length_map, length_combine, length_seq, Nat.min_id.
  apply length_firstn.
Qed.

(** C7, as the code has it.  For a tour with two participants and a
    non-empty SKU list, in a session whose submissions all succeed, the
    bulk-shipping handler submits exactly 12 sales orders and all are
    created: 2 participant orders, each with one line per selected SKU up
    to three, then 10 demo orders, each with a single line. *)
Theorem bulk_shipping_orders env st token tourData p1 p2 :
  State.shipHero st = Some token ->
  TourData.participants tourData = [p1; p2] ->
  TourData.selected_skus tourData <> [] ->
  (forall n, exists response order,
      Env.orders_endpoint env n = Fulfilled response /\
      Response.ok response = true /\
      OrdersJson.order (Response.json response) = Some order) ->
  let run := createBulkShippingSOs tourData env st in
  Run.outcome run = Fulfilled tt /\
  exists participantOrders demoOrders created created',
    Run.events run
    = map SalesOrderRequest (participantOrders ++ demoOrders)%list /\
    length participantOrders = 2 /\
    length demoOrders = 10 /\
    Forall (fun d => lineCount d
                     = Nat.min 3 (length (TourData.selected_skus tourData)))
           participantOrders /\
    Forall (fun d => lineCount d = 1) demoOrders /\
    Run.outcome (createParticipantOrders tourData "BULK" env st)
    = Fulfilled created /\
    length created = 2 /\
    Run.outcome
      (createDemoOrders tourData "BULK-DEMO" 10 env
         (Run.final (createParticipantOrders tourData "BULK" env st)))
    = Fulfilled created' /\
    length created' = 10.
Proof.
  intros Hs Hp Hk Hall run. subst run.
  assert (Hne : TourData.participants tourData <> []) by (rewrite Hp; discriminate).
  pose proof (@createParticipantOrders_run tourData "BULK" env st token Hs Hk Hne) as R1.
  rewrite Hp in R1. cbn [length indexed seq combine map fst snd] in R1.
  destruct (@batch_all_created env Hall 2 st) as (created & B1 & L1).
  rewrite B1 in R1.
  set (st1 := State.mk (Some token) (State.errors st) (State.draws st)
                       (State.posts st + 2) (State.reads st)) in R1.
  pose proof (@createDemoOrders_run tourData "BULK-DEMO" 10 env st1 token
                eq_refl Hk) as R2.
  destruct (@batch_all_created env Hall 10 st1) as (created' & B2 & L2).
  rewrite B2 in R2.
  unfold createBulkShippingSOs.
  erewrite bind_returns by exact R1.
  erewrite bind_returns by exact R2.
  rewrite R1. cbn [Run.final Run.outcome]. rewrite R2.
  unfold after, ret. cbn [Run.outcome Run.events].
  split; [reflexivity|].
  exists [participantOrderData tourData (Env.clock env) "BULK" 0 p1;
          participantOrderData tourData (Env.clock env) "BULK" 1 p2],
    (salesOrders
       (singleLineRequests
          (fun i => demoOrderData tourData env "BULK-DEMO" i
                      (celebrityAt (Env.getCelebrityNames env 10) i))
          env st1 10)),
    created, created'.
  rewrite salesOrders_singleLineRequests.
  split.
  { rewrite app_nil_r, map_app, map_map. reflexivity. }
  split; [reflexivity|].
  split; [now rewrite length_map, length_seq|].
  split.
  { repeat constructor; apply participantOrderData_lineCount. }
  split.
  { apply Forall_forall. intros d Hin.
    apply in_map_iff in Hin. destruct Hin as (k & <- & _). reflexivity. }
  repeat split; assumption.
Qed.

Lemma bulk_shipping_orders_witness :
  State.shipHero inSession = Some "access" /\
  TourData.participants bulkTour = sampleParticipants /\
  TourData.selected_skus bulkTour <> [] /\
  (forall n, exists response order,
      Env.orders_endpoint (bulkEnv alwaysCreated None) n = Fulfilled response /\
      Response.ok response = true /\
      OrdersJson.order (Response.json response) = Some order) /\
  Run.outcome (createBulkShippingSOs bulkTour (bulkEnv alwaysCreated None)
                 inSession)
  = Fulfilled tt.
Proof.
  assert (Hall : forall n, exists response order,
               Env.orders_endpoint (bulkEnv alwaysCreated None) n
               = Fulfilled response /\
               Response.ok response = true /\
               OrdersJson.order (Response.json response) = Some order).
  { intro n. eexists. eexists. repeat split. }
  split; [reflexivity|]. split; [reflexivity|]. split; [discriminate|].
  split; [exact Hall|].
  apply (@bulk_shipping_orders (bulkEnv alwaysCreated None) inSession "access"
           bulkTour
           (nth 0 sampleParticipants (Participant.mk "" None None None None None None))
           (nth 1 sampleParticipants (Participant.mk "" None None None None None None))
           eq_refl eq_refl);
    [discriminate | exact Hall].
Defined.

(** C7 fails as stated: with three SKUs selected the two participant
    orders of the bulk-shipping workflow have three line items each. *)
Lemma participant_orders_have_three_lines :
  map lineCount
      (salesOrders
         (Run.events (createBulkShippingSOs bulkTour
                        (bulkEnv alwaysCreated None) inSession)))
  = [3; 3; 1; 1; 1; 1; 1; 1; 1; 1; 1; 1] /\
  ~ Forall (fun d => lineCount d = 1)
      (salesOrders
         (Run.events (createBulkShippingSOs bulkTour
                        (bulkEnv alwaysCreated None) inSession))).
Proof.
  assert (H : map lineCount
                (salesOrders
                   (Run.events (createBulkShippingSOs bulkTour
                                  (bulkEnv alwaysCreated None) inSession)))
              = [3; 3; 1; 1; 1; 1; 1; 1; 1; 1; 1; 1])
    by (vm_compute; reflexivity).
  split; [exact H|].
  intro F.
  destruct (salesOrders _) as [|d rest]; [discriminate|].
  inversion F as [|? ? Hd _]; subst.
  cbn in H. rewrite Hd in H. discriminate.
Qed.

(** C8.  In every order request a finalization submits (participant,
    demo, multi-item demo and host-demo sales orders, purchase orders),
    [subtotal] and [total_price] are the same string, and both read as
    the sum over the line items of quantity times unit price. *)
Theorem order_totals_consistent tourId selectedOptions env st :
  Forall totalsConsistent
         (Run.events (finalizeTour tourId selectedOptions env st)).
Proof.
  apply emits_finalizeTour.
  - apply payloadsSatisfy_totalsConsistent.
  - repeat split.
Qed.

(** C9.  Every purchase order a finalization submits has subtotal, tax,
    shipping_price, total_price and discount "0.00", the vendor_id
    "1076735", and line items priced "0.00", named after their SKU, with
    quantity_received and quantity_rejected 0. *)
Theorem purchase_orders_fixed tourId selectedOptions env st :
  Forall fixedPO
         (purchaseOrders
            (Run.events (finalizeTour tourId selectedOptions env st))).
Proof.
  assert (H : Forall fixedPurchaseOrder
                (Run.events (finalizeTour tourId selectedOptions env st))).
  { apply emits_finalizeTour.
    - apply payloadsSatisfy_fixedPurchaseOrder.
    - repeat split. }
  unfold purchaseOrders.
  induction H as [|e rest He _ IH]; [constructor|].
  destruct e; cbn [flat_map List.app]; try exact IH.
  constructor; assumption.
Qed.

(** C10.  In the single-line demo batches (celebrity, simple and
    host-demo) order [k] takes its quantity from draw [2k] and its
    quantity_pending_fulfillment from draw [2k+1] of the generator, both
    in [1,3]; subtotal and total_price are 15 times the quantity; and the
    generator can give the two draws any pair of values, so they can
    differ. *)
Theorem demo_quantity_and_pending_are_separate_draws
  env st token tourData orderPrefix count :
  State.shipHero st = Some token ->
  TourData.selected_skus tourData <> [] ->
  let drawn := map (fun k => [(draw3 env st (2 * k), draw3 env st (2 * k + 1))])
                   (seq 0 count) in
  let totals := map (fun k => JS.toString (draw3 env st (2 * k) * 15))
                    (seq 0 count) in
  let fields orders :=
    map quantities orders = drawn /\
    map SalesOrder.subtotal orders = totals /\
    map SalesOrder.total_price orders = totals in
  fields (salesOrders
            (Run.events (createDemoOrders tourData orderPrefix count env st))) /\
  fields (salesOrders
            (Run.events
               (createSimpleDemoOrders tourData orderPrefix count env st))) /\
  fields (salesOrders
            (Run.events
               (createHostDemoOrders tourData orderPrefix count env st))) /\
  (forall k, 1 <= draw3 env st k <= 3) /\
  (forall x y,
      draw3 (withRandom env
               (fun n => if Nat.eqb n (State.draws st) then x else y)) st 0
      = x mod 3 + 1 /\
      draw3 (withRandom env
               (fun n => if Nat.eqb n (State.draws st) then x else y)) st 1
      = y mod 3 + 1) /\
  (exists env', draw3 env' st 0 <> draw3 env' st 1).
Proof.
  intros Hs Hk drawn totals fields. subst drawn totals fields. cbv beta.
  rewrite (@createDemoOrders_run tourData orderPrefix count env st token Hs Hk),
          (@createSimpleDemoOrders_run tourData orderPrefix count env st token
             Hs Hk),
          (@createHostDemoOrders_run tourData orderPrefix count env st token
             Hs Hk).
  cbn [Run.events].
  split; [apply singleLine_fields; intros; apply singleLineOrderData_fields|].
  split; [apply singleLine_fields; intros; apply singleLineOrderData_fields|].
  split; [apply singleLine_fields; intros; apply singleLineOrderData_fields|].
  split; [intro k; apply draw3_range|].
  split; [intros x y; apply draw3_withRandom|].
  exists (withRandom env (fun n => if Nat.eqb n (State.draws st) then 0 else 1)).
  destruct (draw3_withRandom env st 0 1) as [-> ->]. discriminate.
Qed.

Lemma demo_quantity_and_pending_are_separate_draws_witness :
  State.shipHero inSession = Some "access" /\
  TourData.selected_skus bulkTour <> [] /\
  map quantities
      (salesOrders
         (Run.events (createDemoOrders bulkTour "BULK-DEMO" 3
                        (bulkEnv alwaysCreated None) inSession)))
  = [[(1, 2)]; [(3, 1)]; [(2, 3)]].
Proof.
  split; [reflexivity|]. split; [discriminate|].
  destruct (@demo_quantity_and_pending_are_separate_draws
              (bulkEnv alwaysCreated None) inSession "access" bulkTour
              "BULK-DEMO" 3 eq_refl)
    as ((H & _) & _); [discriminate|].
  rewrite H. reflexivity.
Defined.

(** The sample finalization does submit orders: with standard receiving,
    bulk shipping and multi-item batch selected, 19 sales orders and one
    purchase order. *)
Example sample_finalization_submits_orders :
  let events :=
    Run.events
      (finalizeTour "tour-1"
         [multi_item_batch; bulk_shipping; standard_receiving]
         (bulkEnv alwaysCreated None) newService) in
  length (salesOrders events) = 19 /\ length (purchaseOrders events) = 1.
Proof. vm_compute. split; reflexivity. Qed.

(** An ok answer without an order is tolerated: the demo batch returns
    the nine other orders and the finalization reports no error. *)
Example missing_order_is_tolerated :
  Run.outcome (createDemoOrders bulkTour "BULK-DEMO" 10
                 (bulkEnv (fun n => if Nat.eqb n 3 then noOrderCreated
                                    else orderCreated) None)
                 inSession)
  = Fulfilled (repeat "order" 9) /\
  exists r,
    Run.outcome (finalizeTour "tour-1" [bulk_shipping]
                   (bulkEnv (fun n => if Nat.eqb n 3 then noOrderCreated
                                      else orderCreated) None)
                   newService)
    = Fulfilled r /\
    FinalizeResult.success r = true /\
    FinalizeResult.errors r = [].
Proof.
  split; [vm_compute; reflexivity|].
  eexists. split; [vm_compute; reflexivity|].
  split; reflexivity.
Qed.

(* ================================================================== *)
(** * Further properties of the service *)

(* ================================================================== *)
(** ** No SKU selected *)

Lemma noSkus_true tourData :
  TourData.selected_skus tourData = [] -> noSkus tourData = true.
Proof. unfold noSkus. now intros ->. Qed.

(** Without a SKU every handler throws at once, and sends nothing. *)
Lemma handler_noSkus tourData env st :
  TourData.selected_skus tourData = [] ->
  forall w,
    handlerOf tourData w env st
    = Run.mk (Rejected (Error (noSkuCause tourData w))) st [].
Proof.
  intros Hk w. apply noSkus_true in Hk.
  destruct w; cbn [handlerOf];
    unfold createReceiveToLightWorkflowOrders, createPackToLightWorkflowOrders,
      createBulkShippingSOs, createSingleItemBatchSOs, createMultiItemBatchSOs,
      createStandardReceivingPO, createParticipantOrders, createDemoOrders,
      createHostDemoOrders, createMultiItemDemoOrders, noSkuCause;
    rewrite ?Hk;
    destruct (TourData.participants tourData); reflexivity.
Qed.

Lemma handlerRuns_noSkus tourData ws env st :
  TourData.selected_skus tourData = [] ->
  requestsOf (handlerRuns tourData ws env st) = [] /\
  entriesOf (handlerRuns tourData ws env st)
  = map (fun w => workflowLabel w ++ " failed: " ++ noSkuCause tourData w) ws /\
  Forall (fun run =>
            Run.outcome (snd run)
            = Rejected (Error (noSkuCause tourData (fst run))) /\
            Run.events (snd run) = [])
         (handlerRuns tourData ws env st).
Proof.
  intro Hk. revert st.
  induction ws as [|w rest IH]; intro st; [now repeat split|].
  cbn [handlerRuns]. rewrite (@handler_noSkus tourData env st Hk w).
  destruct (IH (afterBlock w
                  (Run.mk (Rejected (Error (noSkuCause tourData w))) st [])))
    as (I1 & I2 & I3).
  unfold requestsOf, entriesOf in *.
  cbn [flat_map fst snd Run.outcome Run.events entryOf map List.app messageOf].
  rewrite I1, I2. repeat split.
  constructor; [now split | exact I3].
Qed.

(* ================================================================== *)
(** ** Answers that are all ok *)

Lemma quiet_ret {A} env token (a : A) : quiet env token (ret a).
Proof. intros st Hs. split; [reflexivity | now exists a]. Qed.

Lemma quiet_bind {A B} env token (c : M A) (k : A -> M B) :
  quiet env token c -> (forall a, quiet env token (k a)) ->
  quiet env token (bind c k).
Proof.
  intros Hc Hk st Hs. unfold bind.
  destruct (Hc st Hs) as (Hsess & a & Ho).
  destruct (c env st) as [[error|a'] st' evs]; cbn in *; [discriminate|].
  assert (Hs' : State.shipHero st' = Some token).
  { unfold session in Hsess. injection Hsess as -> _. exact Hs. }
  destruct (Hk a' st' Hs') as (Hsess' & b & Ho').
  split; [now rewrite Hsess' | eauto].
Qed.

Lemma quiet_of_outcome {A} env token (c : M A) :
  keeps session c ->
  (forall st, State.shipHero st = Some token ->
              exists a, Run.outcome (c env st) = Fulfilled a) ->
  quiet env token c.
Proof. intros Hk Ho st Hs. split; [apply Hk | now apply Ho]. Qed.

Lemma batchAnswers_ok env :
  answersOk env ->
  forall n st, exists results,
    batchAnswers env st n = map Fulfilled results.
Proof.
  intros H n.
  induction n as [|n IH]; intro st.
  - exists []. reflexivity.
  - rewrite batchAnswers_S.
    destruct (H (State.posts st)) as (response & po & -> & Hok & _).
    cbn [settleResponse]. rewrite Hok. cbn [negb].
    destruct (IH (State.mk (State.shipHero st) (State.errors st)
                           (State.draws st) (S (State.posts st))
                           (State.reads st)))
      as (results & ->).
    now exists (Response.json response :: results).
Qed.

Lemma batchOutcome_ok env :
  answersOk env ->
  forall n st, exists created,
    batchOf env st n = Fulfilled created.
Proof.
  intros H n st. unfold batchOf, batchOutcome.
  destruct (batchAnswers_ok H n st) as (results & ->).
  rewrite (proj2 (Promise_all_fulfilled _ (map Fulfilled results) results)
             eq_refl).
  eauto.
Qed.

Section AllOk.
Variable env : Env.t.
Variable token : string.
Variable tourData : TourData.t.
Hypothesis Hall : answersOk env.
Hypothesis Hskus : TourData.selected_skus tourData <> [].

Lemma quiet_createParticipantOrders orderPrefix :
  quiet env token (createParticipantOrders tourData orderPrefix).
Proof.
  apply quiet_of_outcome; [apply keeps_session_createParticipantOrders|].
  intros st Hs.
  rewrite (@createParticipantOrders_outcome tourData orderPrefix env st token
             Hs Hskus).
  apply batchOutcome_ok, Hall.
Qed.

Lemma quiet_createDemoOrders orderPrefix count :
  quiet env token (createDemoOrders tourData orderPrefix count).
Proof.
  apply quiet_of_outcome; [apply keeps_session_createDemoOrders|].
  intros st Hs.
  rewrite (@createDemoOrders_outcome tourData orderPrefix count env st token
             Hs Hskus).
  apply batchOutcome_ok, Hall.
Qed.

Lemma quiet_createHostDemoOrders orderPrefix count :
  quiet env token (createHostDemoOrders tourData orderPrefix count).
Proof.
  apply quiet_of_outcome; [apply keeps_session_createHostDemoOrders|].
  intros st Hs.
  rewrite (@createHostDemoOrders_outcome tourData orderPrefix count env st
             token Hs Hskus).
  apply batchOutcome_ok, Hall.
Qed.

Lemma quiet_createMultiItemDemoOrders orderPrefix count :
  quiet env token (createMultiItemDemoOrders tourData orderPrefix count).
Proof.
  apply quiet_of_outcome; [apply keeps_session_createMultiItemDemoOrders|].
  intros st Hs.
  rewrite (@createMultiItemDemoOrders_outcome tourData orderPrefix count env
             st token Hs Hskus).
  apply batchOutcome_ok, Hall.
Qed.

Lemma quiet_createStandardReceivingPO workflowName :
  quiet env token (createStandardReceivingPO tourData workflowName).
Proof.
  apply quiet_of_outcome; [apply keeps_session_createStandardReceivingPO|].
  intros st Hs.
  rewrite (@createStandardReceivingPO_outcome tourData workflowName env st
             token Hs Hskus).
  destruct (Hall (State.posts st)) as (response & po & -> & Hok & Hpo).
  cbn [settleResponse]. rewrite Hok. cbn [negb purchaseOutcome].
  rewrite Hpo. now exists tt.
Qed.

Lemma quiet_handlerOf w : quiet env token (handlerOf tourData w).
Proof.
  destruct w; cbn [handlerOf].
  - apply quiet_createStandardReceivingPO.
  - unfold createPackToLightWorkflowOrders.
    apply quiet_bind; [apply quiet_createParticipantOrders | intro orders].
    apply quiet_bind; [|intro; apply quiet_createStandardReceivingPO].
    destruct (Nat.eqb _ 0); [|apply quiet_ret].
    apply quiet_bind; [apply quiet_createHostDemoOrders|].
    intro. apply quiet_ret.
  - apply quiet_createStandardReceivingPO.
  - unfold createBulkShippingSOs.
    apply quiet_bind; [apply quiet_createParticipantOrders | intro].
    apply quiet_bind; [apply quiet_createDemoOrders | intro; apply quiet_ret].
  - unfold createSingleItemBatchSOs.
    apply quiet_bind; [apply quiet_createParticipantOrders | intro].
    apply quiet_bind; [apply quiet_createDemoOrders | intro; apply quiet_ret].
  - unfold createMultiItemBatchSOs.
    apply quiet_bind; [apply quiet_createParticipantOrders | intro].
    apply quiet_bind;
      [apply quiet_createMultiItemDemoOrders | intro; apply quiet_ret].
Qed.

(** Every handler returns, so that no entry is pushed. *)
Lemma handlerRuns_ok ws st :
  State.shipHero st = Some token ->
  entriesOf (handlerRuns tourData ws env st) = [].
Proof.
  intro Hs. apply entriesOf_none. intros w run Hin.
  apply handlerRuns_in_session in Hin.
  destruct Hin as (_ & st' & -> & Hs' & _).
  rewrite Hs in Hs'.
  destruct (quiet_handlerOf w st' Hs') as (_ & [] & Ho). exact Ho.
Qed.

End AllOk.

(* ================================================================== *)
(** ** Properties of a finalization *)

(** X1.  When the session and the tour data are there, the tour loads
    again for the guide and the status write is accepted, the handlers
    of the selected workflows have run in the order of execution, their
    requests being those of the finalization between the session setup
    and the status write, and the returned error list holds exactly one
    entry "<label of the workflow> failed: <message>" for each handler
    that threw, in that order, with the message of what it threw:
    nothing for a handler that returned, nothing for a workflow that is
    not selected. *)
Theorem workflow_errors_attributed tourId selectedOptions env st tourData
  reloaded :
  Run.outcome (initializeShipHero env st) = Fulfilled tt ->
  Run.outcome (getTourDetails tourId env st) = Fulfilled tourData ->
  reload tourId env st = Fulfilled reloaded ->
  Supabase.update_tours_status (Env.supabase env) tourId "finalized" = None ->
  let runs :=
    handlerRuns tourData (filter (selects selectedOptions) executionOrder)
                env (atHandlers env st) in
  exists r,
    Run.outcome (finalizeTour tourId selectedOptions env st) = Fulfilled r /\
    Run.events (finalizeTour tourId selectedOptions env st)
    = (Run.events (initializeShipHero env st)
       ++ flat_map (fun run => Run.events (snd run)) runs
       ++ [TourStatusUpdate tourId "finalized"])%list /\
    map fst runs = filter (selects selectedOptions) executionOrder /\
    FinalizeResult.errors r
    = flat_map (fun run =>
                  match Run.outcome (snd run) with
                  | Rejected error =>
                      [workflowLabel (fst run) ++ " failed: "
                         ++ messageOf error]
                  | Fulfilled _ => []
                  end) runs /\
    (forall entry,
        In entry (FinalizeResult.errors r) <->
        exists w run error,
          In (w, run) runs /\
          Run.outcome run = Rejected error /\
          entry = workflowLabel w ++ " failed: " ++ messageOf error) /\
    (FinalizeResult.errors r = [] <->
     forall w run, In (w, run) runs -> Run.outcome run = Fulfilled tt).
Proof.
  intros Hinit Hload Hre Hup runs. subst runs.
  fold (selectedHandlers selectedOptions).
  rewrite (finalizeTour_unfold tourId selectedOptions env st Hinit Hload).
  rewrite Hre. unfold concluded, finalized. rewrite Hup.
  cbn [Run.outcome Run.events statusRequest].
  eexists. split; [reflexivity|].
  cbn [FinalizeResult.errors].
  split; [reflexivity|].
  split; [apply handlerRuns_workflows|].
  split; [reflexivity|].
  split; [|apply entriesOf_none].
  intro entry. split; [apply entriesOf_inv|].
  intros (w & run & error & Hin & Ho & ->).
  now apply entriesOf_In with (run := run).
Qed.

Lemma workflow_errors_attributed_witness :
  Run.outcome (initializeShipHero (bulkEnv alwaysFails None) newService)
  = Fulfilled tt /\
  Run.outcome (getTourDetails "tour-1" (bulkEnv alwaysFails None) newService)
  = Fulfilled bulkTour /\
  reload "tour-1" (bulkEnv alwaysFails None) newService = Fulfilled bulkTour /\
  Supabase.update_tours_status (Env.supabase (bulkEnv alwaysFails None))
    "tour-1" "finalized" = None /\
  exists r,
    Run.outcome (finalizeTour "tour-1" [multi_item_batch; receive_to_light]
                   (bulkEnv alwaysFails None) newService)
    = Fulfilled r /\
    FinalizeResult.errors r
    = ["Receive-to-Light Workflow failed: Failed to create purchase order: 500 Internal Server Error";
       "Multi-Item Batch SOs failed: Failed to create sales order: 500 Internal Server Error"].
Proof.
  split; [reflexivity|]. split; [reflexivity|]. split; [reflexivity|].
  split; [reflexivity|].
  destruct (@workflow_errors_attributed "tour-1"
              [multi_item_batch; receive_to_light]
              (bulkEnv alwaysFails None) newService bulkTour bulkTour
              eq_refl eq_refl eq_refl eq_refl)
    as (r & Ho & _).
  exists r. split; [exact Ho|].
  vm_compute in Ho. injection Ho as <-. reflexivity.
Defined.

(** X2.  With no SKU selected on the tour, the handler of every selected
    workflow runs and throws its "No SKUs selected" message before it
    sends anything: the finalization submits no order and, when the tour
    loads again for the guide and the status write is accepted, reports
    one such error per selected workflow in the order of execution, and
    writes the status. *)
Theorem no_skus_fails_every_selected_workflow
  tourId selectedOptions env st tourData reloaded :
  Run.outcome (initializeShipHero env st) = Fulfilled tt ->
  Run.outcome (getTourDetails tourId env st) = Fulfilled tourData ->
  TourData.selected_skus tourData = [] ->
  reload tourId env st = Fulfilled reloaded ->
  Supabase.update_tours_status (Env.supabase env) tourId "finalized" = None ->
  let run := finalizeTour tourId selectedOptions env st in
  let runs := ranHandlers tourId selectedOptions env st in
  (exists r,
      Run.outcome run = Fulfilled r /\
      FinalizeResult.errors r
      = map (fun w => workflowLabel w ++ " failed: " ++ noSkuCause tourData w)
            (filter (selects selectedOptions) executionOrder)) /\
  salesOrders (Run.events run) = [] /\
  purchaseOrders (Run.events run) = [] /\
  (map fst runs = filter (selects selectedOptions) executionOrder /\
   Forall (fun handler =>
             Run.outcome (snd handler)
             = Rejected (Error (noSkuCause tourData (fst handler))) /\
             Run.events (snd handler) = []) runs) /\
  statusWrites (Run.events run) = [(tourId, "finalized")].
Proof.
  intros Hinit Hload Hk Hre Hup run runs. subst run runs.
  unfold ranHandlers. rewrite Hinit, Hload.
  rewrite (finalizeTour_unfold tourId selectedOptions env st Hinit Hload).
  destruct (@handlerRuns_noSkus tourData (selectedHandlers selectedOptions)
              env (atHandlers env st) Hk) as (Hreq & Hent & Hall).
  rewrite Hreq, Hent, Hre.
  unfold concluded, finalized. rewrite Hup.
  cbn [Run.outcome Run.events statusRequest List.app].
  destruct (sessionEvents_only (emits_session_initializeShipHero env st))
    as (Hw & Hso & Hpo).
  split; [eexists; split; reflexivity|].
  unfold salesOrders, purchaseOrders, statusWrites in *.
  rewrite !flat_map_app, Hso, Hpo, Hw.
  split; [reflexivity|]. split; [reflexivity|].
  split; [|reflexivity].
  split; [apply handlerRuns_workflows | exact Hall].
Qed.

Lemma no_skus_fails_every_selected_workflow_witness :
  Run.outcome (initializeShipHero noSkuEnv newService) = Fulfilled tt /\
  Run.outcome (getTourDetails "tour-1" noSkuEnv newService)
  = Fulfilled noSkuTour /\
  TourData.selected_skus noSkuTour = [] /\
  reload "tour-1" noSkuEnv newService = Fulfilled noSkuTour /\
  Supabase.update_tours_status (Env.supabase noSkuEnv) "tour-1" "finalized"
  = None /\
  salesOrders
    (Run.events (finalizeTour "tour-1" [bulk_shipping; standard_receiving]
                   noSkuEnv newService))
  = [].
Proof.
  split; [reflexivity|]. split; [reflexivity|]. split; [reflexivity|].
  split; [reflexivity|]. split; [reflexivity|].
  apply (@no_skus_fails_every_selected_workflow "tour-1"
           [bulk_shipping; standard_receiving] noSkuEnv newService noSkuTour
           noSkuTour eq_refl eq_refl eq_refl eq_refl eq_refl).
Defined.

(** X3.  When the session and the tour data are there, at least one SKU
    is selected, every answer of the orders endpoint is an ok response
    that carries a purchase order, the tour loads again for the guide
    and the status write is accepted, the finalization returns
    success=true with an empty error list and the guide of the tour as
    loaded again, whether or not the answers carry the sales orders;
    when the tour does not load again, it returns success=false with the
    one top-level error and no guide. *)
Theorem ok_answers_give_success tourId selectedOptions env st tourData :
  Run.outcome (initializeShipHero env st) = Fulfilled tt ->
  Run.outcome (getTourDetails tourId env st) = Fulfilled tourData ->
  TourData.selected_skus tourData <> [] ->
  answersOk env ->
  Supabase.update_tours_status (Env.supabase env) tourId "finalized" = None ->
  exists r,
    Run.outcome (finalizeTour tourId selectedOptions env st) = Fulfilled r /\
    (forall reloaded,
        reload tourId env st = Fulfilled reloaded ->
        FinalizeResult.success r = true /\
        FinalizeResult.errors r = [] /\
        FinalizeResult.message r
        = "Tour finalized successfully with all selected workflows. Instruction guide generated." /\
        FinalizeResult.instructionGuide r
        = Some (guideText reloaded (Env.clock env))) /\
    (forall error,
        reload tourId env st = Rejected error ->
        r = FinalizeResult.mk false
              ("Tour finalization failed: " ++ messageOf error)
              ["Tour finalization failed: " ++ messageOf error]
              None None).
Proof.
  intros Hinit Hload Hk Hall Hup.
  rewrite (finalizeTour_unfold tourId selectedOptions env st Hinit Hload).
  rewrite (@handlerRuns_ok env (accessToken env) tourData Hall Hk
             (selectedHandlers selectedOptions) (atHandlers env st) eq_refl).
  eexists. split; [reflexivity|].
  split.
  - intros reloaded ->. unfold concluded, finalized. rewrite Hup.
    repeat split.
  - intros error ->. reflexivity.
Qed.

Lemma ok_answers_give_success_witness :
  Run.outcome (initializeShipHero (bulkEnv onlyPurchaseOrders None) newService)
  = Fulfilled tt /\
  Run.outcome (getTourDetails "tour-1" (bulkEnv onlyPurchaseOrders None)
                 newService)
  = Fulfilled bulkTour /\
  TourData.selected_skus bulkTour <> [] /\
  answersOk (bulkEnv onlyPurchaseOrders None) /\
  Supabase.update_tours_status
    (Env.supabase (bulkEnv onlyPurchaseOrders None)) "tour-1" "finalized"
  = None /\
  reload "tour-1" (bulkEnv onlyPurchaseOrders None) newService
  = Fulfilled bulkTour /\
  exists r,
    Run.outcome (finalizeTour "tour-1" executionOrder
                   (bulkEnv onlyPurchaseOrders None) newService)
    = Fulfilled r /\
    FinalizeResult.success r = true.
Proof.
  assert (Hall : answersOk (bulkEnv onlyPurchaseOrders None)).
  { intro n. eexists. eexists. repeat split. }
  split; [reflexivity|]. split; [reflexivity|]. split; [discriminate|].
  split; [exact Hall|]. split; [reflexivity|]. split; [reflexivity|].
  destruct (@ok_answers_give_success "tour-1" executionOrder
              (bulkEnv onlyPurchaseOrders None) newService bulkTour
              eq_refl eq_refl)
    as (r & Ho & Hs & _); [discriminate | exact Hall | reflexivity |].
  exists r. split; [exact Ho|].
  now destruct (Hs bulkTour eq_refl).
Defined.

(** X4.  When the session is set up but a row of the tour data cannot be
    read, [finalizeTour] fails fast: success=false, the one top-level
    error, no guide; its requests are those of the session setup alone,
    no handler runs, and there is neither an order nor a status write. *)
Theorem loading_failure_fails_fast tourId selectedOptions env st error :
  Run.outcome (initializeShipHero env st) = Fulfilled tt ->
  Run.outcome (getTourDetails tourId env st) = Rejected error ->
  let run := finalizeTour tourId selectedOptions env st in
  Run.outcome run
  = Fulfilled
      (FinalizeResult.mk false
         ("Tour finalization failed: " ++ messageOf error)
         ["Tour finalization failed: " ++ messageOf error]
         None None) /\
  statusWrites (Run.events run) = [] /\
  (Run.events run = Run.events (initializeShipHero env st) /\
   ranHandlers tourId selectedOptions env st = [] /\
   State.posts (Run.final run) = State.posts st /\
   State.draws (Run.final run) = State.draws st) /\
  salesOrders (Run.events run) = [] /\
  purchaseOrders (Run.events run) = [].
Proof.
  intros Hinit Hload run. subst run.
  rewrite (finalizeTour_loading_fails tourId selectedOptions env st
             Hinit Hload).
  cbn [Run.outcome Run.events Run.final atHandlers State.posts State.draws].
  destruct (sessionEvents_only (emits_session_initializeShipHero env st))
    as (Hw & Hso & Hpo).
  unfold ranHandlers. rewrite Hinit, Hload.
  repeat split; assumption.
Qed.

Lemma loading_failure_fails_fast_witness :
  Run.outcome (initializeShipHero missingTourEnv newService) = Fulfilled tt /\
  Run.outcome (getTourDetails "tour-1" missingTourEnv newService)
  = Rejected (Error "Failed to fetch tour: Row not found") /\
  Run.outcome (finalizeTour "tour-1" [bulk_shipping] missingTourEnv newService)
  = Fulfilled
      (FinalizeResult.mk false
         "Tour finalization failed: Failed to fetch tour: Row not found"
         ["Tour finalization failed: Failed to fetch tour: Row not found"]
         None None).
Proof.
  split; [reflexivity|]. split; [reflexivity|].
  apply (@loading_failure_fails_fast "tour-1" [bulk_shipping] missingTourEnv
           newService (Error "Failed to fetch tour: Row not found")
           eq_refl eq_refl).
Defined.

(** X5.  The guide a finalization returns is rendered from the tour as
    it is stored when the guide is generated, after the handlers have
    run: from the second load of the tour, its [selected_workflows]
    column included, and neither from the [selectedOptions] argument nor
    from the tour as loaded before the handlers.  There is no guide when
    this second load fails or the status write is refused.  Two
    finalizations of the same tour with different arguments return the
    same guide. *)
Theorem guide_ignores_selected_options
  tourId selectedOptions selectedOptions' env st tourData :
  Run.outcome (initializeShipHero env st) = Fulfilled tt ->
  Run.outcome (getTourDetails tourId env st) = Fulfilled tourData ->
  exists r r',
    Run.outcome (finalizeTour tourId selectedOptions env st) = Fulfilled r /\
    Run.outcome (finalizeTour tourId selectedOptions' env st) = Fulfilled r' /\
    FinalizeResult.instructionGuide r
    = match reload tourId env st,
            Supabase.update_tours_status (Env.supabase env) tourId "finalized"
      with
      | Fulfilled reloaded, None => Some (guideText reloaded (Env.clock env))
      | _, _ => None
      end /\
    FinalizeResult.instructionGuide r' = FinalizeResult.instructionGuide r.
Proof.
  intros Hinit Hload.
  rewrite (finalizeTour_unfold tourId selectedOptions env st Hinit Hload),
    (finalizeTour_unfold tourId selectedOptions' env st Hinit Hload).
  eexists. eexists. cbn [Run.outcome].
  split; [reflexivity|]. split; [reflexivity|].
  unfold concluded, finalized.
  destruct (reload tourId env st) as [error|reloaded];
    [split; reflexivity|].
  destruct (Supabase.update_tours_status _ _ _); split; reflexivity.
Qed.

Lemma guide_ignores_selected_options_witness :
  Run.outcome (initializeShipHero editedEnv newService) = Fulfilled tt /\
  Run.outcome (getTourDetails "tour-1" editedEnv newService)
  = Fulfilled bulkTour /\
  reload "tour-1" editedEnv newService
  = Fulfilled (sampleTour ["receive_to_light"] sampleSkus sampleParticipants) /\
  exists r,
    Run.outcome (finalizeTour "tour-1" [multi_item_batch] editedEnv newService)
    = Fulfilled r /\
    FinalizeResult.instructionGuide r
    = Some (guideText
              (sampleTour ["receive_to_light"] sampleSkus sampleParticipants)
              sampleClock).
Proof.
  split; [reflexivity|]. split; [reflexivity|]. split; [reflexivity|].
  destruct (@guide_ignores_selected_options "tour-1" [multi_item_batch]
              [bulk_shipping] editedEnv newService bulkTour
              eq_refl eq_refl)
    as (r & r' & Ho & _ & Hg & _).
  exists r. split; [exact Ho | exact Hg].
Defined.

(* ================================================================== *)
(** ** Orders are well formed *)

Lemma returns_randomBelow n :
  0 < n -> returns (fun r => r < n) (randomBelow n).
Proof.
  intros Hn env st r. rewrite randomBelow_run. cbn. intros [= <-].
  apply Nat.mod_upper_bound. lia.
Qed.

Lemma returns_ret {A} (Q : A -> Prop) (a : A) : Q a -> returns Q (ret a).
Proof. intros H env st a'. cbn. now intros [= <-]. Qed.

Lemma returns_bind {A B} (Q : A -> Prop) (R : B -> Prop)
  (c : M A) (k : A -> M B) :
  returns Q c -> (forall a, Q a -> returns R (k a)) -> returns R (bind c k).
Proof.
  intros Hc Hk env st b. unfold bind.
  specialize (Hc env st).
  destruct (c env st) as [[error|a] st' evs]; cbn in *; [discriminate|].
  apply (Hk a (Hc a eq_refl) env st').
Qed.

(** A loop returns one result per element, each as its body returns it. *)
Lemma returns_forEach2 {A B} (Q : A -> B -> Prop) (xs : list A)
  (body : A -> M B) :
  (forall x, returns (Q x) (body x)) ->
  returns (Forall2 Q xs) (forEach xs body).
Proof.
  intro Hb. induction xs as [|x rest IH]; intros env st bs; cbn [forEach].
  - cbn. intros [= <-]. constructor.
  - unfold bind.
    specialize (Hb x env st).
    destruct (body x env st) as [[error|b] st' evs]; cbn in *; [discriminate|].
    specialize (IH env st').
    destruct (forEach rest body env st') as [[error|bs'] st'' evs']; cbn in *;
      [discriminate|].
    intros [= <-]. constructor; auto.
Qed.

Lemma In_firstn {A} (n : nat) (l : list A) (x : A) :
  In x (firstn n l) -> In x l.
Proof.
  revert l. induction n as [|n IH]; intros [|y l]; cbn; try tauto.
  intros [H|H]; [now left | right; now apply IH].
Qed.

Lemma skuAt_In tourData k :
  TourData.selected_skus tourData <> [] ->
  In (skuAt tourData (k mod length (TourData.selected_skus tourData)))
     (TourData.selected_skus tourData).
Proof.
  intro H. unfold skuAt. apply nth_In.
  apply Nat.mod_upper_bound.
  destruct (TourData.selected_skus tourData); [congruence | discriminate].
Qed.

Lemma noSkus_false_inv tourData :
  noSkus tourData = false -> TourData.selected_skus tourData <> [].
Proof.
  unfold noSkus. destruct (TourData.selected_skus tourData);
    [discriminate | discriminate].
Qed.

Lemma singleLineOrderData_wellFormed tourData clock orderPrefix linePrefix
  i q p first last email tags :
  TourData.selected_skus tourData <> [] ->
  q < 3 -> p < 3 ->
  wellFormedSalesOrder tourData
    (singleLineOrderData tourData clock orderPrefix linePrefix i (q + 1) (p + 1)
                         first last email tags).
Proof.
  intros Hk Hq Hp.
  unfold wellFormedSalesOrder, lineCount, singleLineOrderData.
  cbn [SalesOrder.line_items SalesOrder.billing_address
       SalesOrder.shipping_address length].
  split; [lia|]. split; [|split; [reflexivity | repeat split]].
  constructor; [|constructor].
  unfold wellFormedLine, singleLineItem.
  cbn [LineItem.sku LineItem.quantity LineItem.quantity_pending_fulfillment
       LineItem.product_name LineItem.fulfillment_status LineItem.warehouse_id].
  split; [now apply skuAt_In|]. repeat split; lia.
Qed.

Lemma participantOrderData_wellFormed tourData clock orderPrefix i participant :
  TourData.selected_skus tourData <> [] ->
  wellFormedSalesOrder tourData
    (participantOrderData tourData clock orderPrefix i participant).
Proof.
  intro Hk. unfold wellFormedSalesOrder.
  rewrite participantOrderData_lineCount.
  split.
  { destruct (TourData.selected_skus tourData) as [|s l]; [congruence|].
    cbn [length]. lia. }
  split; [|split; [reflexivity | repeat split]].
  cbn [participantOrderData SalesOrder.line_items].
  unfold participantLineItems.
  apply Forall_forall. intros item Hin.
  apply in_map_iff in Hin. destruct Hin as ((index & sku) & <- & Hin).
  unfold indexed in Hin. apply in_combine_r in Hin.
  unfold JS.slice0 in Hin. apply In_firstn in Hin.
  unfold wellFormedLine.
  cbn [LineItem.sku LineItem.quantity LineItem.quantity_pending_fulfillment
       LineItem.product_name LineItem.fulfillment_status LineItem.warehouse_id].
  repeat split; try assumption; lia.
Qed.

Lemma multiItemOrderData_wellFormed tourData env orderPrefix i celebrity r
  lineItems :
  TourData.selected_skus tourData <> [] ->
  r < 3 ->
  Forall2 (fun (j : nat) item => wellFormedLine tourData item)
          (seq 0 (Nat.min (r + 2) (length (TourData.selected_skus tourData))))
          lineItems ->
  wellFormedSalesOrder tourData
    (multiItemOrderData tourData env orderPrefix i celebrity lineItems).
Proof.
  intros Hk Hr H.
  unfold wellFormedSalesOrder, lineCount.
  cbn [multiItemOrderData SalesOrder.line_items SalesOrder.billing_address
       SalesOrder.shipping_address].
  pose proof (Forall2_length H) as L. rewrite length_seq in L.
  split.
  { rewrite <- L.
    destruct (TourData.selected_skus tourData) as [|s l]; [congruence|].
    cbn [length]. lia. }
  split; [|split; [reflexivity | repeat split]].
  clear L. induction H; constructor; assumption.
Qed.

Lemma standardReceivingPOData_wellFormed tourData clock workflowName
  poLineItems :
  TourData.selected_skus tourData <> [] ->
  Forall2 (fun sku (item : string * nat) =>
             fst item = sku /\ 5 <= snd item <= 14)
          (JS.slice0 6 (TourData.selected_skus tourData)) poLineItems ->
  wellFormedPurchaseOrder tourData
    (standardReceivingPOData tourData clock workflowName poLineItems).
Proof.
  intros Hk H. unfold wellFormedPurchaseOrder.
  cbn [standardReceivingPOData PurchaseOrder.line_items
       PurchaseOrder.warehouse_id].
  rewrite length_map.
  pose proof (Forall2_length H) as L.
  unfold JS.slice0 in *. rewrite length_firstn in L.
  assert (Hsub : forall sku, In sku (firstn 6 (TourData.selected_skus tourData))
                             -> In sku (TourData.selected_skus tourData))
    by (intros sku; apply In_firstn).
  split.
  { rewrite <- L.
    destruct (TourData.selected_skus tourData) as [|s l]; [congruence|].
    cbn [length]. lia. }
  split; [|split; [|reflexivity]].
  - rewrite map_map. cbn [POLineItem.sku]. clear L Hsub.
    induction H as [|sku item skus items (Hf & _) _ IH]; [reflexivity|].
    cbn [map]. now rewrite Hf, IH.
  - clear L.
    induction H as [|sku item skus items (Hf & Hq) _ IH]; [constructor|].
    cbn [map]. constructor.
    + unfold wellFormedPOLine. cbn [POLineItem.sku POLineItem.quantity].
      split; [|exact Hq]. apply Hsub. rewrite Hf. now left.
    + apply IH. intros s Hs. apply Hsub. now right.
Qed.

Section WellFormed.
Variable tourData : TourData.t.

Lemma emits_wellFormed_singleLine build i :
  (forall q p, q < 3 -> p < 3 ->
               wellFormedSalesOrder tourData (build i (q + 1) (p + 1))) ->
  emits (wellFormed tourData) (singleLineBody build i).
Proof.
  intro Hb. unfold singleLineBody.
  apply emits_bind_returns with (Q := fun r => r < 3);
    [apply emits_randomBelow | apply returns_randomBelow; lia | intros q Hq].
  apply emits_bind_returns with (Q := fun r => r < 3);
    [apply emits_randomBelow | apply returns_randomBelow; lia | intros p Hp].
  apply emits_createSalesOrderViaAPI. now apply Hb.
Qed.

Lemma emits_wellFormed_createStandardReceivingPO workflowName :
  emits (wellFormed tourData) (createStandardReceivingPO tourData workflowName).
Proof.
  unfold createStandardReceivingPO.
  destruct (noSkus tourData) eqn:E; [apply emits_throw|].
  apply noSkus_false_inv in E.
  apply emits_bind; [apply emits_ask | intro env].
  apply emits_bind_returns
    with (Q := Forall2 (fun sku (item : string * nat) =>
                          fst item = sku /\ 5 <= snd item <= 14)
                       (JS.slice0 6 (TourData.selected_skus tourData))).
  - apply emits_forEach. intro sku.
    apply emits_bind; [apply emits_randomBelow | intro; apply emits_ret].
  - apply returns_forEach2. intro sku.
    apply returns_bind with (Q := fun r => r < 10);
      [apply returns_randomBelow; lia | intros r Hr].
    apply returns_ret. cbn. split; [reflexivity | lia].
  - intros poLineItems Hl.
    apply emits_bind; [|intro; emits_tac].
    apply emits_createPurchaseOrderViaAPI.
    now apply standardReceivingPOData_wellFormed.
Qed.

Lemma emits_wellFormed_createParticipantOrders orderPrefix :
  emits (wellFormed tourData) (createParticipantOrders tourData orderPrefix).
Proof.
  unfold createParticipantOrders.
  destruct (Nat.eqb _ 0); [apply emits_ret|].
  destruct (noSkus tourData) eqn:E; [apply emits_throw|].
  apply noSkus_false_inv in E.
  apply emits_bind; [apply emits_ask | intro env].
  apply emits_bind; [|intro; apply emits_collectBatch].
  apply emits_forEach. intro p.
  apply emits_createSalesOrderViaAPI.
  now apply participantOrderData_wellFormed.
Qed.

Lemma emits_wellFormed_createDemoOrders orderPrefix count :
  emits (wellFormed tourData) (createDemoOrders tourData orderPrefix count).
Proof.
  unfold createDemoOrders.
  destruct (noSkus tourData) eqn:E; [apply emits_throw|].
  apply noSkus_false_inv in E.
  apply emits_bind; [apply emits_ask | intro env].
  apply emits_bind; [|intro; apply emits_collectBatch].
  apply emits_forEach. intro i.
  apply (@emits_wellFormed_singleLine
           (fun i => demoOrderData tourData env orderPrefix i
                       (celebrityAt (Env.getCelebrityNames env count) i)) i).
  intros q p Hq Hp. now apply singleLineOrderData_wellFormed.
Qed.

Lemma emits_wellFormed_createHostDemoOrders orderPrefix count :
  emits (wellFormed tourData) (createHostDemoOrders tourData orderPrefix count).
Proof.
  unfold createHostDemoOrders.
  destruct (noSkus tourData) eqn:E; [apply emits_throw|].
  apply noSkus_false_inv in E.
  apply emits_bind; [apply emits_ask | intro env].
  apply emits_bind; [|intro; apply emits_collectBatch].
  apply emits_forEach. intro i.
  apply (@emits_wellFormed_singleLine
           (hostDemoOrderData tourData (Env.clock env) orderPrefix) i).
  intros q p Hq Hp. now apply singleLineOrderData_wellFormed.
Qed.

Lemma emits_wellFormed_createMultiItemDemoOrders orderPrefix count :
  emits (wellFormed tourData)
        (createMultiItemDemoOrders tourData orderPrefix count).
Proof.
  unfold createMultiItemDemoOrders.
  destruct (noSkus tourData) eqn:E; [apply emits_throw|].
  apply noSkus_false_inv in E.
  apply emits_bind; [apply emits_ask | intro env].
  apply emits_bind; [|intro; apply emits_collectBatch].
  apply emits_forEach. intro i.
  apply emits_bind_returns with (Q := fun r => r < 3);
    [apply emits_randomBelow | apply returns_randomBelow; lia | intros r Hr].
  apply emits_bind_returns
    with (Q := Forall2 (fun (j : nat) item => wellFormedLine tourData item)
                 (seq 0 (Nat.min (r + 2)
                           (length (TourData.selected_skus tourData))))).
  - apply emits_forEach. intro j. emits_tac.
  - apply returns_forEach2. intro j.
    apply returns_bind with (Q := fun q => q < 3);
      [apply returns_randomBelow; lia | intros q Hq].
    apply returns_bind with (Q := fun p => p < 3);
      [apply returns_randomBelow; lia | intros p Hp].
    apply returns_ret.
    unfold wellFormedLine, multiLineItem.
    cbn [LineItem.sku LineItem.quantity LineItem.quantity_pending_fulfillment
         LineItem.product_name LineItem.fulfillment_status
         LineItem.warehouse_id].
    split; [now apply skuAt_In|]. repeat split; lia.
  - intros lineItems Hl. apply emits_createSalesOrderViaAPI.
    now apply multiItemOrderData_wellFormed with (r := r).
Qed.

Lemma emits_wellFormed_logicBlocks selectedOptions :
  emits (wellFormed tourData) (logicBlocks tourData selectedOptions).
Proof.
  assert (Hblock : forall w label (handler : M unit),
             emits (wellFormed tourData) handler ->
             emits (wellFormed tourData)
                   (logicBlock selectedOptions w label handler)).
  { intros w label handler Hh. unfold logicBlock.
    destruct (selects selectedOptions w); [|apply emits_ret].
    apply emits_try_catch; [exact Hh | intro; apply emits_pushError]. }
  unfold logicBlocks.
  apply emits_bind; [|intro].
  { apply Hblock, emits_wellFormed_createStandardReceivingPO. }
  apply emits_bind; [|intro].
  { apply Hblock. unfold createPackToLightWorkflowOrders.
    apply emits_bind; [apply emits_wellFormed_createParticipantOrders|].
    intro orders.
    apply emits_bind;
      [|intro; apply emits_wellFormed_createStandardReceivingPO].
    destruct (Nat.eqb _ 0); [|apply emits_ret].
    apply emits_bind; [apply emits_wellFormed_createHostDemoOrders|].
    intro. apply emits_ret. }
  apply emits_bind; [|intro].
  { apply Hblock, emits_wellFormed_createStandardReceivingPO. }
  apply emits_bind; [|intro].
  { apply Hblock. unfold createBulkShippingSOs.
    apply emits_bind; [apply emits_wellFormed_createParticipantOrders | intro].
    apply emits_bind; [apply emits_wellFormed_createDemoOrders|].
    intro. apply emits_ret. }
  apply emits_bind; [|intro].
  { apply Hblock. unfold createSingleItemBatchSOs.
    apply emits_bind; [apply emits_wellFormed_createParticipantOrders | intro].
    apply emits_bind; [apply emits_wellFormed_createDemoOrders|].
    intro. apply emits_ret. }
  apply Hblock. unfold createMultiItemBatchSOs.
  apply emits_bind; [apply emits_wellFormed_createParticipantOrders | intro].
  apply emits_bind; [apply emits_wellFormed_createMultiItemDemoOrders|].
  intro. apply emits_ret.
Qed.

End WellFormed.

(** X6.  Whatever the endpoint answers, every order a finalization
    submits is well formed for the tour it loaded.  A sales order has 1
    to 4 lines, each for one of the selected SKUs, from the tour's
    warehouse, with quantity and pending quantity in [1,3], and is billed
    and shipped to the same address, at the warehouse.  A purchase order
    has 1 to 6 lines, for the first six selected SKUs in their order,
    each with a quantity in [5,14]. *)
Theorem orders_well_formed tourId selectedOptions env st tourData :
  Run.outcome (getTourDetails tourId env st) = Fulfilled tourData ->
  Forall (wellFormed tourData)
         (Run.events (finalizeTour tourId selectedOptions env st)).
Proof.
  intro Hload.
  assert (Hev : Forall (wellFormed tourData)
                       (Run.events (initializeShipHero env st))).
  { eapply Forall_impl; [|apply emits_session_initializeShipHero].
    intros [] He; cbn in *; tauto. }
  destruct (Run.outcome (initializeShipHero env st)) as [error|[]] eqn:Hinit.
  - now rewrite (finalizeTour_session_fails tourId selectedOptions env st
                   Hinit).
  - rewrite (finalizeTour_unfold tourId selectedOptions env st Hinit Hload).
    cbn [Run.events].
    apply Forall_app. split; [exact Hev|].
    apply Forall_app. split.
    + pose proof (@emits_wellFormed_logicBlocks tourData selectedOptions env
                    (atHandlers env st)) as H.
      now rewrite logicBlocks_run in H.
    + unfold statusRequest.
      destruct (reload tourId env st); repeat constructor.
Qed.

Lemma orders_well_formed_witness :
  Run.outcome (getTourDetails "tour-1" (bulkEnv (failsAt 7) None) newService)
  = Fulfilled bulkTour /\
  Forall (wellFormed bulkTour)
         (Run.events (finalizeTour "tour-1" executionOrder
                        (bulkEnv (failsAt 7) None) newService)).
Proof.
  split; [reflexivity|].
  apply (@orders_well_formed "tour-1" executionOrder
           (bulkEnv (failsAt 7) None) newService bulkTour eq_refl).
Defined.

(* ================================================================== *)
(** ** The handlers in a session *)

Lemma createStandardReceivingPO_run tourData workflowName env st token :
  State.shipHero st = Some token ->
  TourData.selected_skus tourData <> [] ->
  exists poLineItems draws,
    createStandardReceivingPO tourData workflowName env st
    = Run.mk (purchaseOutcome workflowName
                (settleResponse "purchase order"
                   (Env.orders_endpoint env (State.posts st))))
             (State.mk (Some token) (State.errors st) draws
                       (S (State.posts st)) (State.reads st))
             [PurchaseOrderRequest
                (standardReceivingPOData tourData (Env.clock env) workflowName
                                         poLineItems)].
Proof.
  intros Hs Hk. unfold createStandardReceivingPO.
  rewrite (noSkus_false _ Hk), bind_ask.
  assert (Hd : drawsOnly
                 (forEach (JS.slice0 6 (TourData.selected_skus tourData))
                    (fun sku => r <- randomBelow 10 ;; ret (sku, r + 5)))).
  { apply drawsOnly_forEach. intro sku.
    apply drawsOnly_bind; [apply drawsOnly_randomBelow | intro].
    apply drawsOnly_ret. }
  destruct (Hd env st) as (items & d & R).
  exists items, d.
  erewrite bind_returns by exact R. rewrite after_nil.
  erewrite bind_returns
    by (apply createPurchaseOrderViaAPI_run with (token := token); exact Hs).
  cbn [State.posts State.shipHero State.errors State.draws].
  unfold purchaseOutcome, after.
  destruct (settleResponse "purchase order" _) as [error|data]; cbn [await].
  - reflexivity.
  - rewrite bind_ret.
    destruct (OrdersJson.purchase_order data); reflexivity.
Qed.

Lemma salesOrders_app (evs evs' : list Event) :
  salesOrders (evs ++ evs')%list = (salesOrders evs ++ salesOrders evs')%list.
Proof. unfold salesOrders. apply flat_map_app. Qed.

Lemma salesOrders_map {A} (build : A -> SalesOrder.t) (xs : list A) :
  salesOrders (map (fun x => SalesOrderRequest (build x)) xs) = map build xs.
Proof.
  unfold salesOrders. induction xs as [|x rest IH]; [reflexivity|].
  cbn [map flat_map List.app]. now rewrite IH.
Qed.

Lemma indexed_numbers {A} (f : nat -> string) (xs : list A) :
  map (fun p : nat * A => f (fst p)) (indexed xs)
  = map f (seq 0 (length xs)).
Proof.
  unfold indexed. generalize 0.
  induction xs as [|x rest IH]; intro a; [reflexivity|].
  cbn [length seq combine map fst]. now rewrite IH.
Qed.

(** X7.  In a session, with SKUs selected and every answer ok with a
    purchase order, the pack-to-light handler returns and sends, in this
    order: one order per participant, numbered P2L-PARTICIPANT-1, 2, ...;
    then, exactly when no participant order came back created (no
    participant, or no answer carrying an order), the three host demo
    orders P2L-HOST-1..3; then one purchase order, numbered
    P2L-<host name>-<today>. *)
Theorem pack_to_light_falls_back_to_host_orders env st token tourData :
  State.shipHero st = Some token ->
  TourData.selected_skus tourData <> [] ->
  answersOk env ->
  let run := createPackToLightWorkflowOrders tourData env st in
  exists created poData,
    Run.outcome (createParticipantOrders tourData "P2L" env st)
    = Fulfilled created /\
    Run.outcome run = Fulfilled tt /\
    Run.events run
    = (map SalesOrderRequest (salesOrders (Run.events run))
       ++ [PurchaseOrderRequest poData])%list /\
    map SalesOrder.order_number (salesOrders (Run.events run))
    = (map (fun i => ("P2L-PARTICIPANT-" ++ JS.toString (i + 1))%string)
           (seq 0 (length (TourData.participants tourData)))
       ++ (if Nat.eqb (length created) 0
           then ["P2L-HOST-1"; "P2L-HOST-2"; "P2L-HOST-3"]
           else []))%list /\
    PurchaseOrder.po_number poData
    = "P2L-" ++ template (Host.name (TourData.host tourData)) ++ "-"
        ++ today (Env.clock env).
Proof.
  intros Hs Hk Hall run. subst run.
  assert (R1 : exists created st1,
             createParticipantOrders tourData "P2L" env st
             = Run.mk (Fulfilled created) st1
                 (map (fun p : nat * Participant.t =>
                         SalesOrderRequest
                           (participantOrderData tourData (Env.clock env) "P2L"
                                                 (fst p) (snd p)))
                      (indexed (TourData.participants tourData))) /\
             State.shipHero st1 = Some token).
  { destruct (TourData.participants tourData) as [|p ps] eqn:E.
    - exists [], st. unfold createParticipantOrders. rewrite E.
      split; [reflexivity | exact Hs].
    - assert (Hne : TourData.participants tourData <> [])
        by (rewrite E; discriminate).
      pose proof (@createParticipantOrders_run tourData "P2L" env st token
                    Hs Hk Hne) as R.
      rewrite E in R.
      destruct (@batchOutcome_ok env Hall (length (p :: ps)) st)
        as (created & B).
      rewrite B in R.
      eexists; eexists. split; [exact R | reflexivity]. }
  destruct R1 as (created & st1 & R1 & Hs1).
  assert (R2 : exists st2 orders,
             (if Nat.eqb (length created) 0
              then createHostDemoOrders tourData "P2L-HOST" 3 ;; ret tt
              else ret tt) env st1
             = Run.mk (Fulfilled tt) st2 (map SalesOrderRequest orders) /\
             State.shipHero st2 = Some token /\
             map SalesOrder.order_number orders
             = (if Nat.eqb (length created) 0
                then ["P2L-HOST-1"; "P2L-HOST-2"; "P2L-HOST-3"]
                else [])).
  { destruct (Nat.eqb (length created) 0).
    - pose proof (@createHostDemoOrders_run tourData "P2L-HOST" 3 env st1
                    token Hs1 Hk) as R.
      destruct (@batchOutcome_ok env Hall 3 st1) as (created' & B).
      rewrite B in R.
      eexists.
      exists (salesOrders
                (singleLineRequests
                   (hostDemoOrderData tourData (Env.clock env) "P2L-HOST")
                   env st1 3)).
      erewrite bind_returns by exact R.
      split.
      { unfold after, ret. cbn [Run.outcome Run.final Run.events].
        rewrite app_nil_r.
        rewrite salesOrders_singleLineRequests, map_map. reflexivity. }
      split; [reflexivity|].
      rewrite salesOrders_singleLineRequests, map_map. reflexivity.
    - exists st1, []. repeat split. exact Hs1. }
  destruct R2 as (st2 & orders & R2 & Hs2 & Hn).
  destruct (@createStandardReceivingPO_run tourData "P2L" env st2 token Hs2 Hk)
    as (items & d & R3).
  destruct (Hall (State.posts st2)) as (response & po & Ha & Hok & Hpo).
  rewrite Ha in R3. cbn [settleResponse] in R3. rewrite Hok in R3.
  cbn [negb purchaseOutcome] in R3. rewrite Hpo in R3.
  exists created,
    (standardReceivingPOData tourData (Env.clock env) "P2L" items).
  rewrite R1. cbn [Run.outcome]. split; [reflexivity|].
  unfold createPackToLightWorkflowOrders.
  erewrite bind_returns by exact R1.
  erewrite bind_returns by exact R2.
  rewrite R3. unfold after. cbn [Run.outcome Run.events].
  split; [reflexivity|].
  rewrite !salesOrders_app.
  rewrite (salesOrders_map
             (fun p : nat * Participant.t =>
                participantOrderData tourData (Env.clock env) "P2L"
                                     (fst p) (snd p))).
  rewrite (salesOrders_map (fun d : SalesOrder.t => d)), map_id.
  cbn [salesOrders flat_map List.app]. rewrite app_nil_r.
  split.
  { rewrite map_app, map_map, <- app_assoc. reflexivity. }
  split; [|reflexivity].
  rewrite map_app, map_map, Hn. f_equal.
  cbn [participantOrderData SalesOrder.order_number].
  apply (indexed_numbers
           (fun i => "P2L" ++ "-PARTICIPANT-" ++ JS.toString (i + 1))).
Qed.

Lemma pack_to_light_falls_back_to_host_orders_witness :
  State.shipHero inSession = Some "access" /\
  TourData.selected_skus bulkTour <> [] /\
  answersOk (bulkEnv onlyPurchaseOrders None) /\
  map SalesOrder.order_number
      (salesOrders
         (Run.events
            (createPackToLightWorkflowOrders bulkTour
               (bulkEnv onlyPurchaseOrders None) inSession)))
  = ["P2L-PARTICIPANT-1"; "P2L-PARTICIPANT-2";
     "P2L-HOST-1"; "P2L-HOST-2"; "P2L-HOST-3"].
Proof.
  assert (Hall : answersOk (bulkEnv onlyPurchaseOrders None)).
  { intro n. eexists. eexists. repeat split. }
  split; [reflexivity|]. split; [discriminate|]. split; [exact Hall|].
  destruct (@pack_to_light_falls_back_to_host_orders
              (bulkEnv onlyPurchaseOrders None) inSession "access" bulkTour
              eq_refl)
    as (created & poData & Hc & _ & _ & Hn & _);
    [discriminate | exact Hall |].
  rewrite Hn.
  assert (E : created = []) by (vm_compute in Hc; now injection Hc).
  rewrite E. reflexivity.
Defined.

(* ================================================================== *)
(** ** Which SKUs the demo orders take *)

Lemma salesOrders_Forall (P : SalesOrder.t -> Prop) (evs : list Event) :
  Forall (salesSatisfy P) evs -> Forall P (salesOrders evs).
Proof.
  unfold salesOrders. induction 1 as [|e evs He _ IH]; [constructor|].
  destruct e; cbn [flat_map List.app]; try exact IH.
  constructor; assumption.
Qed.

(** X8.  In a session with SKUs selected, demo order [k] of a batch is
    numbered <prefix>-(k+1) and its one line takes the selected SKU at
    position [k] modulo the number of selected SKUs.  Hence a batch of at
    least as many orders as there are selected SKUs has an order for
    every selected SKU. *)
Theorem demo_orders_rotate_over_selected_skus
  env st token tourData orderPrefix count :
  State.shipHero st = Some token ->
  TourData.selected_skus tourData <> [] ->
  let orders :=
    salesOrders
      (Run.events (createDemoOrders tourData orderPrefix count env st)) in
  map (fun d => (SalesOrder.order_number d, lineSkus d)) orders
  = map (fun k =>
           (orderPrefix ++ "-" ++ JS.toString (k + 1),
            [skuAt tourData (k mod length (TourData.selected_skus tourData))]))
        (seq 0 count) /\
  (length (TourData.selected_skus tourData) <= count ->
   forall sku, In sku (TourData.selected_skus tourData) ->
               exists d, In d orders /\ lineSkus d = [sku]).
Proof.
  intros Hs Hk orders. subst orders.
  rewrite (@createDemoOrders_run tourData orderPrefix count env st token Hs Hk).
  cbn [Run.events]. rewrite salesOrders_singleLineRequests.
  split; [rewrite map_map; apply map_ext; intro k; reflexivity|].
  intros Hc sku Hin.
  destruct (In_nth _ _ "undefined" Hin) as (k & Hlt & Hnth).
  exists (demoOrderData tourData env orderPrefix k
            (celebrityAt (Env.getCelebrityNames env count) k)
            (draw3 env st (2 * k)) (draw3 env st (2 * k + 1))).
  split.
  - apply in_map_iff. exists k. split; [reflexivity|].
    apply in_seq. lia.
  - unfold lineSkus, demoOrderData, singleLineOrderData, singleLineItem.
    cbn [SalesOrder.line_items map LineItem.sku].
    rewrite Nat.mod_small by exact Hlt.
    unfold skuAt. now rewrite Hnth.
Qed.

Lemma demo_orders_rotate_over_selected_skus_witness :
  State.shipHero inSession = Some "access" /\
  TourData.selected_skus bulkTour <> [] /\
  map lineSkus
      (salesOrders
         (Run.events (createDemoOrders bulkTour "SINGLE-DEMO" 5
                        (bulkEnv alwaysCreated None) inSession)))
  = [["A"]; ["B"]; ["C"]; ["A"]; ["B"]].
Proof.
  split; [reflexivity|]. split; [discriminate|].
  destruct (@demo_orders_rotate_over_selected_skus
              (bulkEnv alwaysCreated None) inSession "access" bulkTour
              "SINGLE-DEMO" 5 eq_refl)
    as (Hn & _); [discriminate|].
  apply (f_equal (map snd)) in Hn. rewrite !map_map in Hn.
  cbn [snd] in Hn. exact Hn.
Defined.

(* ================================================================== *)
(** ** Multi-item demo orders *)

Lemma mod_add_inj (len i j j' : nat) :
  j < len -> j' < len ->
  (i + j) mod len = (i + j') mod len -> j = j'.
Proof.
  intros Hj Hj' H.
  assert (Hlen : len <> 0) by lia.
  pose proof (Nat.div_mod_eq (i + j) len) as E1.
  pose proof (Nat.div_mod_eq (i + j') len) as E2.
  pose proof (Nat.mod_upper_bound (i + j) len Hlen) as B1.
  rewrite <- H in E2.
  set (q := (i + j) / len) in *. set (q' := (i + j') / len) in *.
  set (m := (i + j) mod len) in *.
  assert (q = q') by nia. subst q'. lia.
Qed.

Lemma roundFrom_NoDup tourData i n :
  NoDup (TourData.selected_skus tourData) ->
  n <= length (TourData.selected_skus tourData) ->
  NoDup (roundFrom tourData i n).
Proof.
  intros Hnd Hn. unfold roundFrom.
  apply NoDup_map_NoDup_ForallPairs; [|apply seq_NoDup].
  intros x y Hx Hy Hxy.
  apply in_seq in Hx. apply in_seq in Hy.
  assert (Hlen : length (TourData.selected_skus tourData) <> 0) by lia.
  unfold skuAt in Hxy.
  apply (proj1 (NoDup_nth _ "undefined") Hnd) in Hxy;
    try (apply Nat.mod_upper_bound; exact Hlen).
  apply (@mod_add_inj (length (TourData.selected_skus tourData)) i); lia.
Qed.

Lemma lineSkus_roundFrom tourData i n lineItems :
  Forall2 (fun j item =>
             LineItem.sku item
             = skuAt tourData
                 ((i + j) mod length (TourData.selected_skus tourData)) /\
             LineItem.price item = "12.00")
          (seq 0 n) lineItems ->
  map LineItem.sku lineItems = roundFrom tourData i (length lineItems) /\
  Forall (fun item => LineItem.price item = "12.00") lineItems /\
  length lineItems = n.
Proof.
  intro H. pose proof (Forall2_length H) as L. rewrite length_seq in L.
  rewrite <- L. unfold roundFrom. split; [|split; [|reflexivity]].
  - clear L. induction H as [|j item js items (Hs & _) _ IH]; [reflexivity|].
    cbn [map]. now rewrite Hs, IH.
  - clear L. induction H as [|j item js items (_ & Hp) _ IH]; constructor;
      assumption.
Qed.

Lemma emits_multiItemShape tourData orderPrefix count :
  emits (salesSatisfy (multiItemShape tourData orderPrefix))
        (createMultiItemDemoOrders tourData orderPrefix count).
Proof.
  unfold createMultiItemDemoOrders.
  destruct (noSkus tourData) eqn:E; [apply emits_throw|].
  apply noSkus_false_inv in E.
  apply emits_bind; [apply emits_ask | intro env].
  apply emits_bind; [|intro; apply emits_collectBatch].
  apply emits_forEach. intro i.
  apply emits_bind_returns with (Q := fun r => r < 3);
    [apply emits_randomBelow | apply returns_randomBelow; lia | intros r Hr].
  apply emits_bind_returns
    with (Q := Forall2
                 (fun j item =>
                    LineItem.sku item
                    = skuAt tourData
                        ((i + j) mod length (TourData.selected_skus tourData)) /\
                    LineItem.price item = "12.00")
                 (seq 0 (Nat.min (r + 2)
                           (length (TourData.selected_skus tourData))))).
  - apply emits_forEach. intro j. emits_tac.
  - apply returns_forEach2. intro j.
    apply returns_bind with (Q := fun _ => True);
      [intros ? ? ? ?; exact I | intros q _].
    apply returns_bind with (Q := fun _ => True);
      [intros ? ? ? ?; exact I | intros p _].
    apply returns_ret. split; reflexivity.
  - intros lineItems Hl. apply emits_createSalesOrderViaAPI.
    destruct (@lineSkus_roundFrom _ _ _ _ Hl) as (Hskus & Hprice & Hlen).
    unfold salesSatisfy, multiItemShape, lineCount, lineSkus.
    cbn [multiItemOrderData SalesOrder.line_items SalesOrder.order_number].
    rewrite Hlen at 1 2.
    split; [lia|]. split; [lia|]. split; [exact Hprice|].
    exists i. split; [reflexivity | exact Hskus].
Qed.

(** X9.  Whatever the endpoint answers, every multi-item demo order is
    numbered <prefix>-(i+1), has two to four lines (fewer when fewer SKUs
    are selected, so a single line for a single SKU), each at 12.00, for
    consecutive selected SKUs counted round from position [i]; when the
    selection lists no SKU twice, no order does. *)
Theorem multi_item_orders_take_consecutive_skus
  env st tourData orderPrefix count :
  let orders :=
    salesOrders
      (Run.events
         (createMultiItemDemoOrders tourData orderPrefix count env st)) in
  Forall (multiItemShape tourData orderPrefix) orders /\
  (NoDup (TourData.selected_skus tourData) ->
   Forall (fun d => NoDup (lineSkus d)) orders).
Proof.
  intro orders. subst orders.
  pose proof (@salesOrders_Forall _ _
                (@emits_multiItemShape tourData orderPrefix count env st))
    as H.
  split; [exact H|].
  intro Hnd. eapply Forall_impl; [|exact H].
  intros d (_ & Hmax & _ & i & _ & Hskus).
  rewrite Hskus. apply roundFrom_NoDup; [exact Hnd | lia].
Qed.

Lemma multi_item_orders_take_consecutive_skus_witness :
  NoDup (TourData.selected_skus bulkTour) /\
  map lineSkus
      (salesOrders
         (Run.events
            (createMultiItemDemoOrders bulkTour "MULTI-DEMO" 5
               (bulkEnv alwaysCreated None) inSession)))
  = [["A"; "B"]; ["B"; "C"; "A"]; ["C"; "A"]; ["A"; "B"; "C"]; ["B"; "C"]] /\
  Forall (fun d => NoDup (lineSkus d))
         (salesOrders
            (Run.events
               (createMultiItemDemoOrders bulkTour "MULTI-DEMO" 5
                  (bulkEnv alwaysCreated None) inSession))).
Proof.
  assert (Hnd : NoDup (TourData.selected_skus bulkTour)).
  { repeat constructor; cbn; intuition discriminate. }
  split; [exact Hnd|]. split; [reflexivity|].
  apply (proj2 (@multi_item_orders_take_consecutive_skus
                  (bulkEnv alwaysCreated None) inSession bulkTour
                  "MULTI-DEMO" 5) Hnd).
Defined.

(* ================================================================== *)
(** ** The session and the shipping address *)

(** X10.  [initializeShipHero] asks for a token only in a browser and
    with a refresh token stored, the empty string counting as none:
    otherwise it throws, sends nothing and leaves the service as it was.
    With a token stored it sends exactly one request, carrying that
    token; it returns exactly when the answer is ok, and then the session
    holds the access token of the answer, whatever it held before. *)
Theorem session_needs_stored_refresh_token env st :
  let run := initializeShipHero env st in
  (Env.window_defined env = false \/
   JS.truthy (Env.shiphero_refresh_token env) = false ->
   (exists error, Run.outcome run = Rejected error) /\
   Run.events run = [] /\ Run.final run = st) /\
  (forall refreshToken,
      Env.window_defined env = true ->
      Env.shiphero_refresh_token env = Some refreshToken ->
      refreshToken <> "" ->
      Run.events run = [RefreshTokenRequest refreshToken] /\
      match Env.refresh_token_endpoint env with
      | Rejected error => Run.outcome run = Rejected error /\ Run.final run = st
      | Fulfilled tokenResponse =>
          if TokenResponse.ok tokenResponse then
            Run.outcome run = Fulfilled tt /\
            Run.final run
            = State.mk (Some (TokenResponse.access_token tokenResponse))
                       (State.errors st) (State.draws st) (State.posts st) (State.reads st)
          else
            (exists error, Run.outcome run = Rejected error) /\
            Run.final run = st
      end).
Proof.
  intro run. subst run. unfold initializeShipHero. rewrite bind_ask.
  split.
  - intros [Hw | Ht].
    + rewrite Hw. cbn. eauto.
    + destruct (Env.window_defined env); cbn [negb]; [|cbn; eauto].
      rewrite Ht. cbn. eauto.
  - intros refreshToken Hw Ht Hne. rewrite Hw, Ht.
    assert (Htruthy : JS.truthy (Some refreshToken) = true).
    { destruct refreshToken; [congruence | reflexivity]. }
    rewrite Htruthy. cbn [negb]. rewrite bind_emit.
    unfold JS.orElse. rewrite Htruthy.
    destruct (Env.refresh_token_endpoint env) as [error|tokenResponse];
      cbn [await].
    + cbn. repeat split.
    + rewrite bind_ret.
      destruct (TokenResponse.ok tokenResponse); cbn [negb].
      * rewrite bind_get. cbn. repeat split.
      * cbn. repeat split. eauto.
Qed.

Lemma session_needs_stored_refresh_token_witness :
  JS.truthy (Env.shiphero_refresh_token
               (sampleEnv (Some "") (sampleSupabase [] [] [] None)
                          alwaysCreated))
  = false /\
  Run.events (initializeShipHero
                (sampleEnv (Some "") (sampleSupabase [] [] [] None)
                           alwaysCreated) inSession)
  = [] /\
  Run.final (initializeShipHero
               (sampleEnv (Some "") (sampleSupabase [] [] [] None)
                          alwaysCreated) inSession)
  = inSession.
Proof.
  split; [reflexivity|].
  apply (proj1 (@session_needs_stored_refresh_token
                  (sampleEnv (Some "") (sampleSupabase [] [] [] None)
                             alwaysCreated) inSession)).
  right. reflexivity.
Defined.

Lemma orElse_filled (o : option string) (d : string) :
  d <> "" -> JS.orElse o d <> "".
Proof.
  intro Hd. unfold JS.orElse, JS.truthy.
  destruct o as [[|c s]|]; [exact Hd | discriminate | exact Hd].
Qed.

Lemma orElse_takes (o : option string) (d : string) :
  takes o d (JS.orElse o d).
Proof.
  unfold takes, blank, JS.orElse, JS.truthy. split.
  - intros s -> Hs. destruct s; [congruence | reflexivity].
  - intros [-> | ->]; reflexivity.
Qed.

Lemma or_takes (a b : option string) (d : string) :
  takes a (JS.orElse b d) (JS.orElse (JS.or a b) d).
Proof.
  unfold takes, blank, JS.or. split.
  - intros s -> Hs.
    assert (T : JS.truthy (Some s) = true)
      by (destruct s; [congruence | reflexivity]).
    rewrite T. unfold JS.orElse. now rewrite T.
  - intros [-> | ->]; reflexivity.
Qed.

(** X11.  Whatever the warehouse row holds, the shipping address the
    orders use is for "Warehouse Demo" and has a street, city, state,
    zip, country and phone.  Each of city, state, zip, country and phone
    is the column of the row when it holds a non-empty string, and its
    default (Demo City, CA, 90210, US, 555-0123) when the column is
    missing, null or empty.  The street is [address1] when that is not
    blank, else [address] when that is not blank, else 123 Warehouse St.
    The second address line is the column, or empty.  Without an address
    on the row the address is the demo one. *)
Theorem shipping_address_always_complete tourData :
  let shipTo := getWarehouseShippingAddress tourData in
  complete shipTo /\
  ShipTo.first_name shipTo = "Warehouse" /\
  ShipTo.last_name shipTo = "Demo" /\
  (Warehouse.address (TourData.warehouse tourData) = None ->
   shipTo = ShipTo.mk "Warehouse" "Demo" "123 Warehouse St" "" "Demo City"
                      "CA" "90210" "US" "555-0123") /\
  (forall a,
      Warehouse.address (TourData.warehouse tourData) = Some a ->
      (exists fallback,
          takes (WarehouseAddress.address a) "123 Warehouse St" fallback /\
          takes (WarehouseAddress.address1 a) fallback
                (ShipTo.address1 shipTo)) /\
      takes (WarehouseAddress.address2 a) "" (ShipTo.address2 shipTo) /\
      takes (WarehouseAddress.city a) "Demo City" (ShipTo.city shipTo) /\
      takes (WarehouseAddress.state a) "CA" (ShipTo.state shipTo) /\
      takes (WarehouseAddress.zip a) "90210" (ShipTo.zip shipTo) /\
      takes (WarehouseAddress.country a) "US" (ShipTo.country shipTo) /\
      takes (WarehouseAddress.phone a) "555-0123" (ShipTo.phone shipTo)) /\
  (forall a street,
      Warehouse.address (TourData.warehouse tourData) = Some a ->
      JS.truthy (WarehouseAddress.address1 a) = false ->
      WarehouseAddress.address a = Some street ->
      street <> "" ->
      ShipTo.address1 shipTo = street).
Proof.
  intro shipTo. subst shipTo. unfold getWarehouseShippingAddress.
  split; [|split; [reflexivity|split; [reflexivity|split; [|split]]]].
  - unfold complete.
    cbn [ShipTo.address1 ShipTo.city ShipTo.state ShipTo.zip ShipTo.country
         ShipTo.phone].
    repeat split; apply orElse_filled; discriminate.
  - intro H. rewrite H. reflexivity.
  - intros a H. rewrite H.
    cbn [ShipTo.address1 ShipTo.address2 ShipTo.city ShipTo.state ShipTo.zip
         ShipTo.country ShipTo.phone key].
    split.
    { exists (JS.orElse (WarehouseAddress.address a) "123 Warehouse St").
      split; [apply orElse_takes | apply or_takes]. }
    repeat split; apply orElse_takes.
  - intros a street H H1 Hs Hne. rewrite H.
    cbn [ShipTo.address1 key]. unfold JS.or. rewrite H1, Hs.
    destruct street; [congruence | reflexivity].
Qed.

Lemma shipping_address_always_complete_witness :
  Warehouse.address (TourData.warehouse blankAddressTour) = Some blankAddress /\
  complete (getWarehouseShippingAddress blankAddressTour) /\
  getWarehouseShippingAddress blankAddressTour
  = getWarehouseShippingAddress bulkTour.
Proof.
  split; [reflexivity|].
  split; [|reflexivity].
  apply (proj1 (shipping_address_always_complete blankAddressTour)).
Defined.

(** The street of the row is used, and [address1] goes before
    [address]. *)
Example address1_goes_before_address :
  ShipTo.address1
    (getWarehouseShippingAddress
       (TourData.mk "tour-1" sampleHost sampleParticipants
          (Warehouse.mk "w1" "Main Warehouse"
             (Some (WarehouseAddress.mk (Some "1 Dock Rd") (Some "2 Back Ln")
                      None (Some "Reno") None None None None))
             "V2FyZWhvdXNlOjE=")
          ["bulk_shipping"] sampleSkus))
  = "1 Dock Rd" /\
  ShipTo.city
    (getWarehouseShippingAddress
       (TourData.mk "tour-1" sampleHost sampleParticipants
          (Warehouse.mk "w1" "Main Warehouse"
             (Some (WarehouseAddress.mk (Some "1 Dock Rd") (Some "2 Back Ln")
                      None (Some "Reno") None None None None))
             "V2FyZWhvdXNlOjE=")
          ["bulk_shipping"] sampleSkus))
  = "Reno".
Proof. split; reflexivity. Qed.

(* ================================================================== *)
(** ** Order numbers never repeat *)

Lemma Subseq_refl {A} (l : list A) : Subseq l l.
Proof. induction l; constructor; assumption. Qed.

Lemma Subseq_nil_l {A} (L : list A) : Subseq [] L.
Proof. induction L; constructor; assumption. Qed.

Lemma Subseq_app {A} (l1 L1 l2 L2 : list A) :
  Subseq l1 L1 -> Subseq l2 L2 -> Subseq (l1 ++ l2)%list (L1 ++ L2)%list.
Proof.
  intros H1 H2. induction H1; cbn [List.app]; try (constructor; assumption).
  exact H2.
Qed.

Lemma Subseq_In {A} (l L : list A) (x : A) : Subseq l L -> In x l -> In x L.
Proof.
  induction 1 as [|y l L _ IH|y l L _ IH]; cbn; [tauto | auto |].
  intros [->|H]; auto.
Qed.

Lemma Subseq_NoDup {A} (l L : list A) : Subseq l L -> NoDup L -> NoDup l.
Proof.
  induction 1 as [|y l L H IH|y l L H IH]; intro Hnd.
  - constructor.
  - inversion Hnd; subst. auto.
  - inversion Hnd; subst. constructor; [|auto].
    intro Hin. eapply Subseq_In in Hin; [|exact H]. contradiction.
Qed.

Section Within.
Variable env : Env.t.
Variable key : Event -> list string.

Lemma within_quiet {A} (c : M A) (L : list string) :
  (forall st, Run.events (c env st) = []) -> within env key L c.
Proof. intros H st. rewrite H. apply Subseq_nil_l. Qed.

Lemma within_ret {A} (a : A) L : within env key L (ret a).
Proof. now apply within_quiet. Qed.

Lemma within_throw {A} (error : Thrown) L : within env key L (@throw A error).
Proof. now apply within_quiet. Qed.

Lemma within_bind {A B} (c : M A) (k : A -> M B) L1 L2 :
  within env key L1 c -> (forall a, within env key L2 (k a)) ->
  within env key (L1 ++ L2)%list (bind c k).
Proof.
  intros Hc Hk st. unfold bind.
  specialize (Hc st).
  destruct (c env st) as [[error|a] st' evs];
    cbv zeta; cbn [Run.events Run.outcome Run.final] in *.
  - rewrite <- (app_nil_r (flat_map key evs)).
    apply Subseq_app; [exact Hc | apply Subseq_nil_l].
  - rewrite flat_map_app. apply Subseq_app; [exact Hc | apply Hk].
Qed.

Lemma within_bind_l {A B} (c : M A) (k : A -> M B) L :
  within env key L c -> (forall a, within env key [] (k a)) ->
  within env key L (bind c k).
Proof.
  intros Hc Hk. rewrite <- (app_nil_r L). now apply within_bind.
Qed.

Lemma within_bind_r {A B} (c : M A) (k : A -> M B) L :
  within env key [] c -> (forall a, within env key L (k a)) ->
  within env key L (bind c k).
Proof. intros Hc Hk. now apply (@within_bind _ _ c k [] L). Qed.

Lemma within_ask {B} (k : Env.t -> M B) L :
  within env key L (k env) -> within env key L (bind ask k).
Proof. intros H st. rewrite bind_ask. apply H. Qed.

Lemma within_try_catch {A} (c : M A) (handler : Thrown -> M A) L :
  within env key L c -> (forall error, within env key [] (handler error)) ->
  within env key L (try_catch c handler).
Proof.
  intros Hc Hh st. unfold try_catch.
  specialize (Hc st).
  destruct (c env st) as [[error|a] st' evs];
    cbv zeta; cbn [Run.events Run.outcome Run.final] in *; [|exact Hc].
  specialize (Hh error st').
  destruct (handler error env st') as [o st'' evs'];
    cbn [Run.events Run.outcome Run.final] in *.
  rewrite flat_map_app, <- (app_nil_r L).
  apply Subseq_app; assumption.
Qed.

Lemma within_forEach {A B} (f : A -> string) (xs : list A) (body : A -> M B) :
  (forall x, within env key [f x] (body x)) ->
  within env key (map f xs) (forEach xs body).
Proof.
  intro Hb. induction xs as [|x rest IH]; cbn [forEach map].
  - apply within_ret.
  - apply (@within_bind _ _ (body x) _ [f x] (map f rest)); [apply Hb|].
    intro b. apply within_bind_l; [exact IH | intro; apply within_ret].
Qed.

Lemma within_forEach_quiet {A B} (xs : list A) (body : A -> M B) :
  (forall x, within env key [] (body x)) -> within env key [] (forEach xs body).
Proof.
  intro Hb. induction xs as [|x rest IH]; cbn [forEach].
  - apply within_ret.
  - apply within_bind_r; [apply Hb|].
    intro b. apply within_bind_r; [exact IH | intro; apply within_ret].
Qed.

Lemma within_randomBelow n L : within env key L (randomBelow n).
Proof. now apply within_quiet. Qed.

Lemma within_pushError errorMsg L : within env key L (pushError errorMsg).
Proof. now apply within_quiet. Qed.

Lemma within_await {A} (p : Settled A) L : within env key L (await p).
Proof. apply within_quiet. intro st. destruct p; reflexivity. Qed.

Lemma within_collectBatch (orderPromises : list (Settled OrdersJson.t)) L :
  within env key L (collectBatch orderPromises).
Proof.
  apply within_quiet. intro st. now rewrite collectBatch_outcome.
Qed.

Lemma within_createSalesOrderViaAPI orderData :
  within env key (key (SalesOrderRequest orderData))
         (createSalesOrderViaAPI orderData).
Proof.
  intro st. unfold createSalesOrderViaAPI. rewrite bind_get.
  destruct (State.shipHero st); [|apply Subseq_nil_l].
  cbn. rewrite !app_nil_r. apply Subseq_refl.
Qed.

Lemma within_createPurchaseOrderViaAPI poData :
  within env key (key (PurchaseOrderRequest poData))
         (createPurchaseOrderViaAPI poData).
Proof.
  intro st. unfold createPurchaseOrderViaAPI. rewrite bind_get.
  destruct (State.shipHero st); [|apply Subseq_nil_l].
  cbn. rewrite !app_nil_r. apply Subseq_refl.
Qed.

Lemma within_logicBlock selectedOptions w label (handler : M unit) L :
  within env key L handler ->
  within env key L (logicBlock selectedOptions w label handler).
Proof.
  intro Hh. unfold logicBlock.
  destruct (selects selectedOptions w); [|apply within_ret].
  apply within_try_catch; [exact Hh | intro; apply within_pushError].
Qed.

Lemma within_of_emits {A} (c : M A) L :
  emits (fun e => key e = []) c -> within env key L c.
Proof.
  intros H st. specialize (H env st).
  induction H as [|e evs He _ IH]; [apply Subseq_nil_l|].
  cbn [flat_map]. rewrite He. exact IH.
Qed.

End Within.

(** The sales-order numbers of each handler. *)
Section Numbers.
Variable env : Env.t.
Variable tourData : TourData.t.

Lemma sales_createStandardReceivingPO workflowName :
  within env salesNumber [] (createStandardReceivingPO tourData workflowName).
Proof.
  apply within_of_emits.
  unfold createStandardReceivingPO. emits_tac. reflexivity.
Qed.

Lemma sales_createParticipantOrders orderPrefix :
  within env salesNumber (participantNumbers tourData orderPrefix)
         (createParticipantOrders tourData orderPrefix).
Proof.
  unfold createParticipantOrders.
  destruct (Nat.eqb _ 0); [apply within_ret|].
  destruct (noSkus tourData); [apply within_throw|].
  apply within_ask.
  apply within_bind_l; [|intro; apply within_collectBatch].
  unfold participantNumbers.
  rewrite <- (indexed_numbers
                (fun i => orderPrefix ++ "-PARTICIPANT-" ++ JS.toString (i + 1))
                (TourData.participants tourData)).
  apply within_forEach. intro p.
  apply (within_createSalesOrderViaAPI env salesNumber).
Qed.

Lemma sales_singleLine build orderPrefix count :
  (forall i q p,
      SalesOrder.order_number (build i q p)
      = orderPrefix ++ "-" ++ JS.toString (i + 1)) ->
  within env salesNumber (demoNumbers orderPrefix count)
         (bind (forEach (seq 0 count) (singleLineBody build)) collectBatch).
Proof.
  intro Hb.
  apply within_bind_l; [|intro; apply within_collectBatch].
  unfold demoNumbers. apply within_forEach. intro i. unfold singleLineBody.
  apply within_bind_r; [apply within_randomBelow | intro q].
  apply within_bind_r; [apply within_randomBelow | intro p].
  rewrite <- (Hb i (q + 1) (p + 1)).
  apply (within_createSalesOrderViaAPI env salesNumber).
Qed.

Lemma sales_createDemoOrders orderPrefix count :
  within env salesNumber (demoNumbers orderPrefix count)
         (createDemoOrders tourData orderPrefix count).
Proof.
  unfold createDemoOrders.
  destruct (noSkus tourData); [apply within_throw|].
  apply within_ask.
  apply (@sales_singleLine
           (fun i => demoOrderData tourData env orderPrefix i
                       (celebrityAt (Env.getCelebrityNames env count) i))).
  reflexivity.
Qed.

Lemma sales_createHostDemoOrders orderPrefix count :
  within env salesNumber (demoNumbers orderPrefix count)
         (createHostDemoOrders tourData orderPrefix count).
Proof.
  unfold createHostDemoOrders.
  destruct (noSkus tourData); [apply within_throw|].
  apply within_ask.
  apply (@sales_singleLine
           (hostDemoOrderData tourData (Env.clock env) orderPrefix)).
  reflexivity.
Qed.

Lemma sales_createMultiItemDemoOrders orderPrefix count :
  within env salesNumber (demoNumbers orderPrefix count)
         (createMultiItemDemoOrders tourData orderPrefix count).
Proof.
  unfold createMultiItemDemoOrders.
  destruct (noSkus tourData); [apply within_throw|].
  apply within_ask.
  apply within_bind_l; [|intro; apply within_collectBatch].
  unfold demoNumbers. apply within_forEach. intro i.
  apply within_bind_r; [apply within_randomBelow | intro r].
  apply within_bind_r.
  { apply within_forEach_quiet. intro j.
    apply within_bind_r; [apply within_randomBelow | intro].
    apply within_bind_r; [apply within_randomBelow | intro].
    apply within_ret. }
  intro lineItems.
  apply (within_createSalesOrderViaAPI env salesNumber).
Qed.

Lemma sales_logicBlocks selectedOptions :
  within env salesNumber (salesNumbers tourData)
         (logicBlocks tourData selectedOptions).
Proof.
  unfold logicBlocks, salesNumbers.
  apply within_bind_r; [|intro].
  { apply within_logicBlock.
    apply sales_createStandardReceivingPO. }
  rewrite (app_assoc (participantNumbers tourData "P2L")).
  apply within_bind; [|intro].
  { apply within_logicBlock.
    unfold createPackToLightWorkflowOrders.
    apply within_bind; [apply sales_createParticipantOrders | intro orders].
    apply within_bind_l; [|intro; apply sales_createStandardReceivingPO].
    destruct (Nat.eqb _ 0); [|apply within_ret].
    apply within_bind_l; [apply sales_createHostDemoOrders|].
    intro. apply within_ret. }
  apply within_bind_r; [|intro].
  { apply within_logicBlock.
    apply sales_createStandardReceivingPO. }
  rewrite (app_assoc (participantNumbers tourData "BULK")).
  apply within_bind; [|intro].
  { apply within_logicBlock. unfold createBulkShippingSOs.
    apply within_bind; [apply sales_createParticipantOrders | intro].
    apply within_bind_l; [apply sales_createDemoOrders|].
    intro. apply within_ret. }
  rewrite (app_assoc (participantNumbers tourData "SINGLE")).
  apply within_bind; [|intro].
  { apply within_logicBlock. unfold createSingleItemBatchSOs.
    apply within_bind; [apply sales_createParticipantOrders | intro].
    apply within_bind_l; [apply sales_createDemoOrders|].
    intro. apply within_ret. }
  apply within_logicBlock. unfold createMultiItemBatchSOs.
  apply within_bind; [apply sales_createParticipantOrders | intro].
  apply within_bind_l; [apply sales_createMultiItemDemoOrders|].
  intro. apply within_ret.
Qed.

(** The purchase-order numbers of each handler. *)
Lemma purchase_createStandardReceivingPO workflowName :
  within env purchaseNumber
         [purchaseNumberOf tourData (Env.clock env) workflowName]
         (createStandardReceivingPO tourData workflowName).
Proof.
  unfold createStandardReceivingPO.
  destruct (noSkus tourData); [apply within_throw|].
  apply within_ask.
  apply within_bind_r.
  { apply within_forEach_quiet. intro sku.
    apply within_bind_r; [apply within_randomBelow | intro; apply within_ret]. }
  intro items.
  apply within_bind_l.
  { exact (@within_createPurchaseOrderViaAPI env purchaseNumber
             (standardReceivingPOData tourData (Env.clock env) workflowName
                                      items)). }
  intro promise.
  apply within_bind_r; [apply within_await|].
  intro data. destruct (OrdersJson.purchase_order data);
    [apply within_ret | apply within_throw].
Qed.

Lemma purchase_createParticipantOrders orderPrefix :
  within env purchaseNumber [] (createParticipantOrders tourData orderPrefix).
Proof.
  apply within_of_emits.
  unfold createParticipantOrders. emits_tac. reflexivity.
Qed.

Lemma purchase_createDemoOrders orderPrefix count :
  within env purchaseNumber [] (createDemoOrders tourData orderPrefix count).
Proof.
  apply within_of_emits.
  unfold createDemoOrders. emits_tac. reflexivity.
Qed.

Lemma purchase_createHostDemoOrders orderPrefix count :
  within env purchaseNumber []
         (createHostDemoOrders tourData orderPrefix count).
Proof.
  apply within_of_emits.
  unfold createHostDemoOrders. emits_tac. reflexivity.
Qed.

Lemma purchase_createMultiItemDemoOrders orderPrefix count :
  within env purchaseNumber []
         (createMultiItemDemoOrders tourData orderPrefix count).
Proof.
  apply within_of_emits.
  unfold createMultiItemDemoOrders. emits_tac. reflexivity.
Qed.

Lemma purchase_logicBlocks selectedOptions :
  within env purchaseNumber (purchaseNumbers tourData (Env.clock env))
         (logicBlocks tourData selectedOptions).
Proof.
  unfold logicBlocks, purchaseNumbers. cbn [map].
  apply (@within_bind env purchaseNumber _ _ _ _
           [purchaseNumberOf tourData (Env.clock env) "R2L"]
           [purchaseNumberOf tourData (Env.clock env) "P2L";
            purchaseNumberOf tourData (Env.clock env) "STANDARD-RECEIVING"]);
    [|intro].
  { apply within_logicBlock.
    apply purchase_createStandardReceivingPO. }
  apply (@within_bind env purchaseNumber _ _ _ _
           [purchaseNumberOf tourData (Env.clock env) "P2L"]
           [purchaseNumberOf tourData (Env.clock env) "STANDARD-RECEIVING"]);
    [|intro].
  { apply within_logicBlock.
    unfold createPackToLightWorkflowOrders.
    apply within_bind_r; [apply purchase_createParticipantOrders | intro orders].
    apply within_bind_r; [|intro; apply purchase_createStandardReceivingPO].
    destruct (Nat.eqb _ 0); [|apply within_ret].
    apply within_bind_r; [apply purchase_createHostDemoOrders|].
    intro. apply within_ret. }
  apply within_bind_l; [|intro].
  { apply within_logicBlock.
    apply purchase_createStandardReceivingPO. }
  apply within_bind_r; [|intro].
  { apply within_logicBlock. unfold createBulkShippingSOs.
    apply within_bind_r; [apply purchase_createParticipantOrders | intro].
    apply within_bind_r; [apply purchase_createDemoOrders|].
    intro. apply within_ret. }
  apply within_bind_r; [|intro].
  { apply within_logicBlock. unfold createSingleItemBatchSOs.
    apply within_bind_r; [apply purchase_createParticipantOrders | intro].
    apply within_bind_r; [apply purchase_createDemoOrders|].
    intro. apply within_ret. }
  apply within_logicBlock. unfold createMultiItemBatchSOs.
  apply within_bind_r; [apply purchase_createParticipantOrders | intro].
  apply within_bind_r; [apply purchase_createMultiItemDemoOrders|].
  intro. apply within_ret.
Qed.

End Numbers.

(** The lists of numbers have no repetition. *)
Lemma toString_inj (n m : nat) : JS.toString n = JS.toString m -> n = m.
Proof.
  intro H. apply (f_equal digits) in H.
  rewrite !digits_toString in H. congruence.
Qed.

Lemma append_inj (s a b : string) : s ++ a = s ++ b -> a = b.
Proof.
  induction s as [|c s IH]; cbn [String.append]; [tauto|].
  intro H. injection H as H. auto.
Qed.

Lemma demoNumbers_NoDup orderPrefix count :
  NoDup (demoNumbers orderPrefix count).
Proof.
  unfold demoNumbers.
  apply NoDup_map_NoDup_ForallPairs; [|apply seq_NoDup].
  intros x y _ _ H.
  apply append_inj, (append_inj "-"), toString_inj in H. lia.
Qed.

Lemma participantNumbers_NoDup tourData orderPrefix :
  NoDup (participantNumbers tourData orderPrefix).
Proof.
  unfold participantNumbers.
  apply NoDup_map_NoDup_ForallPairs; [|apply seq_NoDup].
  intros x y _ _ H.
  apply append_inj, (append_inj "-PARTICIPANT-"), toString_inj in H. lia.
Qed.

Ltac numbered_clash :=
  repeat match goal with
         | H : In _ (_ ++ _)%list |- _ =>
             apply in_app_or in H; destruct H as [H|H]
         | H : In _ (participantNumbers _ _) |- _ =>
             unfold participantNumbers in H
         | H : In _ (demoNumbers _ _) |- _ => unfold demoNumbers in H
         | H : In _ (map _ _) |- _ =>
             apply in_map_iff in H; destruct H as (? & H & _)
         end;
  subst; cbn [String.append] in *; congruence.

Lemma salesNumbers_NoDup tourData : NoDup (salesNumbers tourData).
Proof.
  unfold salesNumbers.
  repeat (apply NoDup_app;
          [first [apply participantNumbers_NoDup | apply demoNumbers_NoDup]
          | | intros number H1 H2; numbered_clash]).
  apply demoNumbers_NoDup.
Qed.

Lemma purchaseNumbers_NoDup tourData clock :
  NoDup (purchaseNumbers tourData clock).
Proof.
  unfold purchaseNumbers, purchaseNumberOf. cbn [map String.append].
  repeat constructor; cbn [In]; intuition congruence.
Qed.

Lemma salesNumber_orders (evs : list Event) :
  flat_map salesNumber evs = map SalesOrder.order_number (salesOrders evs).
Proof.
  unfold salesOrders. induction evs as [|e evs IH]; [reflexivity|].
  destruct e; cbn [flat_map salesNumber List.app map]; now rewrite ?IH.
Qed.

Lemma purchaseNumber_orders (evs : list Event) :
  flat_map purchaseNumber evs
  = map PurchaseOrder.po_number (purchaseOrders evs).
Proof.
  unfold purchaseOrders. induction evs as [|e evs IH]; [reflexivity|].
  destruct e; cbn [flat_map purchaseNumber List.app map]; now rewrite ?IH.
Qed.

Lemma Subseq_length {A} (l L : list A) : Subseq l L -> length l <= length L.
Proof. induction 1; cbn [length]; lia. Qed.

(** The numbers of the orders of a finalization, by what was loaded. *)
Lemma finalizeTour_numbers tourId selectedOptions env st :
  let events := Run.events (finalizeTour tourId selectedOptions env st) in
  (salesOrders events = [] /\ purchaseOrders events = [] /\
   forall tourData,
     Run.outcome (initializeShipHero env st) = Fulfilled tt ->
     Run.outcome (getTourDetails tourId env st) <> Fulfilled tourData) \/
  (exists tourData,
      Run.outcome (getTourDetails tourId env st) = Fulfilled tourData /\
      Subseq (map SalesOrder.order_number (salesOrders events))
             (salesNumbers tourData) /\
      Subseq (map PurchaseOrder.po_number (purchaseOrders events))
             (purchaseNumbers tourData (Env.clock env))).
Proof.
  intro events. subst events.
  destruct (sessionEvents_only (emits_session_initializeShipHero env st))
    as (_ & Hs0 & Hp0).
  destruct (Run.outcome (initializeShipHero env st)) as [error|[]] eqn:Hinit.
  { left.
    rewrite (finalizeTour_session_fails tourId selectedOptions env st Hinit).
    cbn [Run.events]. rewrite Hs0, Hp0.
    repeat split. intros tourData H. discriminate. }
  destruct (Run.outcome (getTourDetails tourId env st)) as [error|tourData]
    eqn:Hload.
  { left.
    rewrite (finalizeTour_loading_fails tourId selectedOptions env st
               Hinit Hload).
    cbn [Run.events]. rewrite Hs0, Hp0.
    repeat split. intros tourData _. discriminate. }
  right. exists tourData. split; [reflexivity|].
  rewrite (finalizeTour_unfold tourId selectedOptions env st Hinit Hload).
  cbn [Run.events].
  pose proof (logicBlocks_run tourData selectedOptions env (atHandlers env st))
    as R.
  apply (f_equal Run.events) in R. cbn [Run.events] in R. rewrite <- R.
  rewrite <- salesNumber_orders, <- purchaseNumber_orders.
  rewrite !flat_map_app.
  rewrite (salesNumber_orders (Run.events (initializeShipHero env st))),
    (purchaseNumber_orders (Run.events (initializeShipHero env st))), Hs0, Hp0.
  assert (T : flat_map salesNumber (statusRequest tourId (reload tourId env st))
              = [] /\
              flat_map purchaseNumber
                       (statusRequest tourId (reload tourId env st)) = []).
  { unfold statusRequest. destruct (reload tourId env st); now split. }
  destruct T as [-> ->].
  cbn [map List.app]. rewrite !app_nil_r.
  split; [apply sales_logicBlocks | apply purchase_logicBlocks].
Qed.

(** X12.  Whatever is selected and whatever the endpoint answers, no two
    sales orders of a finalization carry the same order number, and no
    two purchase orders the same PO number; at most three purchase orders
    are sent.  The sales-order numbers are, in order, among
    P2L-PARTICIPANT-i, P2L-HOST-1..3, BULK-PARTICIPANT-i, BULK-DEMO-1..10,
    SINGLE-PARTICIPANT-i, SINGLE-DEMO-1..5, MULTI-PARTICIPANT-i and
    MULTI-DEMO-1..5, with i counting the participants of the tour
    loaded. *)
Theorem order_numbers_never_repeat tourId selectedOptions env st :
  let events := Run.events (finalizeTour tourId selectedOptions env st) in
  NoDup (map SalesOrder.order_number (salesOrders events)) /\
  NoDup (map PurchaseOrder.po_number (purchaseOrders events)) /\
  length (purchaseOrders events) <= 3 /\
  (forall tourData,
      Run.outcome (getTourDetails tourId env st) = Fulfilled tourData ->
      Subseq (map SalesOrder.order_number (salesOrders events))
             (salesNumbers tourData)).
Proof.
  intro events. subst events.
  destruct (finalizeTour_numbers tourId selectedOptions env st)
    as [(Hs & Hp & Hno) | (tourData & Hload & Hs & Hp)].
  - rewrite Hs, Hp. cbn [map length].
    repeat split; try constructor; try lia.
    intros tourData _. apply Subseq_nil_l.
  - split; [exact (Subseq_NoDup Hs (salesNumbers_NoDup tourData))|].
    split; [exact (Subseq_NoDup Hp (purchaseNumbers_NoDup tourData _))|].
    split.
    + apply Subseq_length in Hp. now rewrite length_map in Hp.
    + intros tourData' Hload'. rewrite Hload in Hload'.
      injection Hload' as <-. exact Hs.
Qed.

Lemma order_numbers_never_repeat_witness :
  Run.outcome (getTourDetails "tour-1" (bulkEnv alwaysCreated None) newService)
  = Fulfilled bulkTour /\
  length (salesOrders
            (Run.events (finalizeTour "tour-1" executionOrder
                           (bulkEnv alwaysCreated None) newService)))
  = 28 /\
  Subseq (map SalesOrder.order_number
              (salesOrders
                 (Run.events (finalizeTour "tour-1" executionOrder
                                (bulkEnv alwaysCreated None) newService))))
         (salesNumbers bulkTour).
Proof.
  split; [reflexivity|]. split; [reflexivity|].
  apply (proj2 (proj2 (proj2
           (@order_numbers_never_repeat "tour-1" executionOrder
              (bulkEnv alwaysCreated None) newService))) bulkTour eq_refl).
Defined.

(* ================================================================== *)
(** ** The pages of the list of tours *)

Lemma firstn_plus {A} (a b : nat) (l : list A) :
  firstn (a + b) l = (firstn a l ++ firstn b (skipn a l))%list.
Proof.
  revert l. induction a as [|a IH]; intro l; [reflexivity|].
  destruct l as [|x l]; cbn [Nat.add firstn skipn List.app].
  - now rewrite firstn_nil.
  - now rewrite IH.
Qed.

Lemma currentTours_eq {T} (filteredTours : list T) (currentPage : nat) :
  currentTours filteredTours currentPage
  = firstn ITEMS_PER_PAGE
           (skipn ((currentPage - 1) * ITEMS_PER_PAGE) filteredTours).
Proof.
  unfold currentTours, slice, endIndex, startIndex. f_equal. lia.
Qed.

Lemma pages_prefix {T} (filteredTours : list T) (k : nat) :
  concat (map (currentTours filteredTours) (seq 1 k))
  = firstn (k * ITEMS_PER_PAGE) filteredTours.
Proof.
  induction k as [|k IH]; [reflexivity|].
  rewrite seq_S, map_app, concat_app, IH.
  cbn [map concat]. rewrite app_nil_r, currentTours_eq.
  replace (1 + k - 1) with k by lia.
  replace (S k * ITEMS_PER_PAGE) with (k * ITEMS_PER_PAGE + ITEMS_PER_PAGE)
    by lia.
  now rewrite firstn_plus.
Qed.

Lemma totalPages_bounds {T} (filteredTours : list T) :
  length filteredTours <= totalPages filteredTours * ITEMS_PER_PAGE /\
  totalPages filteredTours * ITEMS_PER_PAGE
  < length filteredTours + ITEMS_PER_PAGE.
Proof.
  unfold totalPages, ITEMS_PER_PAGE.
  pose proof (Nat.div_mod_eq (length filteredTours + (10 - 1)) 10) as E.
  pose proof (Nat.mod_upper_bound (length filteredTours + (10 - 1)) 10) as B.
  lia.
Qed.

Lemma currentTours_length {T} (filteredTours : list T) (currentPage : nat) :
  length (currentTours filteredTours currentPage)
  = Nat.min ITEMS_PER_PAGE
            (length filteredTours - (currentPage - 1) * ITEMS_PER_PAGE).
Proof. now rewrite currentTours_eq, length_firstn, length_skipn. Qed.

Lemma page_sizes {T} (filteredTours : list T) (currentPage : nat) :
  1 <= currentPage <= totalPages filteredTours ->
  1 <= length (currentTours filteredTours currentPage) <= ITEMS_PER_PAGE /\
  showingFrom currentPage + length (currentTours filteredTours currentPage)
  = showingTo filteredTours currentPage + 1.
Proof.
  pose proof (totalPages_bounds filteredTours) as (Hlo & Hhi).
  intro Hp. rewrite currentTours_length.
  unfold showingFrom, showingTo, endIndex, startIndex, ITEMS_PER_PAGE in *.
  lia.
Qed.

Lemma totalPages_zero {T} (filteredTours : list T) :
  totalPages filteredTours = 0 <-> filteredTours = [].
Proof.
  pose proof (totalPages_bounds filteredTours) as (Hlo & Hhi).
  rewrite <- length_zero_iff_nil. unfold ITEMS_PER_PAGE in *. lia.
Qed.

(** X13.  The pages 1 to [totalPages] of the list of tours, one after
    the other, are the filtered tours: no tour is left out or shown
    twice.  Each of these pages has between one and ten tours, as many as
    the line [Showing a to b] announces; a page after the last is empty;
    and there is no page exactly when there is no tour. *)
Theorem pages_partition_the_tours {T} (filteredTours : list T) :
  concat (map (currentTours filteredTours)
              (seq 1 (totalPages filteredTours)))
  = filteredTours /\
  (forall currentPage,
      1 <= currentPage <= totalPages filteredTours ->
      1 <= length (currentTours filteredTours currentPage) <= ITEMS_PER_PAGE /\
      showingFrom currentPage + length (currentTours filteredTours currentPage)
      = showingTo filteredTours currentPage + 1) /\
  (forall currentPage,
      totalPages filteredTours < currentPage ->
      currentTours filteredTours currentPage = []) /\
  (totalPages filteredTours = 0 <-> filteredTours = []).
Proof.
  pose proof (totalPages_bounds filteredTours) as (Hlo & Hhi).
  split; [|split; [|split]].
  - rewrite pages_prefix. now apply firstn_all2.
  - intros currentPage Hp. now apply page_sizes.
  - intros currentPage Hp.
    apply length_zero_iff_nil. rewrite currentTours_length.
    unfold ITEMS_PER_PAGE in *. lia.
  - apply totalPages_zero.
Qed.

Lemma pages_partition_the_tours_witness :
  1 <= 3 <= totalPages (seq 0 25) /\
  currentTours (seq 0 25) 3 = [20; 21; 22; 23; 24] /\
  showingFrom 3 + length (currentTours (seq 0 25) 3)
  = showingTo (seq 0 25) 3 + 1.
Proof.
  assert (H : 1 <= 3 <= totalPages (seq 0 25)) by (vm_compute; lia).
  split; [exact H|]. split; [reflexivity|].
  apply (proj1 (proj2 (pages_partition_the_tours (seq 0 25))) 3 H).
Defined.

Lemma click_keeps_page {T} (filteredTours : list T) (currentPage : nat)
  (c : Click) :
  1 <= currentPage <= Nat.max 1 (totalPages filteredTours) ->
  1 <= click filteredTours currentPage c
  <= Nat.max 1 (totalPages filteredTours).
Proof.
  intro H. unfold click, enabled.
  destruct (Nat.ltb 1 (totalPages filteredTours)) eqn:Hshown;
    cbn [andb]; [|exact H].
  apply Nat.ltb_lt in Hshown.
  destruct c as [| |page].
  - destruct (Nat.eqb currentPage 1) eqn:E; cbn [negb]; [exact H|].
    apply Nat.eqb_neq in E. lia.
  - destruct (Nat.eqb currentPage (totalPages filteredTours)) eqn:E;
      cbn [negb]; [exact H|].
    apply Nat.eqb_neq in E. lia.
  - destruct (Nat.leb 1 page) eqn:E1; cbn [andb]; [|exact H].
    destruct (Nat.leb page (totalPages filteredTours)) eqn:E2; [|exact H].
    apply Nat.leb_le in E1. apply Nat.leb_le in E2. lia.
Qed.

Lemma click_without_bar {T} (filteredTours : list T) (currentPage : nat)
  (c : Click) :
  totalPages filteredTours <= 1 ->
  click filteredTours currentPage c = currentPage.
Proof.
  intro H. unfold click, enabled.
  destruct (Nat.ltb 1 (totalPages filteredTours)) eqn:E; [|reflexivity].
  apply Nat.ltb_lt in E. lia.
Qed.

(** X14.  From page 1, whatever buttons of the pagination bar are
    clicked, the current page is at least 1 and at most the larger of 1
    and [totalPages].  With at most one page, and so with no tour, where
    [totalPages] is 0, there is no bar and the page stays 1.  With at
    least one tour in the list the page stays between 1 and
    [totalPages], and the page shown is never empty. *)
Theorem clicks_stay_on_a_page {T} (filteredTours : list T)
  (clicks : list Click) :
  let currentPage := fold_left (click filteredTours) clicks 1 in
  1 <= currentPage <= Nat.max 1 (totalPages filteredTours) /\
  (totalPages filteredTours <= 1 -> currentPage = 1) /\
  (filteredTours <> [] ->
   1 <= currentPage <= totalPages filteredTours /\
   currentTours filteredTours currentPage <> []).
Proof.
  intro currentPage. subst currentPage.
  assert (Hinv : forall page,
             1 <= page <= Nat.max 1 (totalPages filteredTours) ->
             1 <= fold_left (click filteredTours) clicks page
             <= Nat.max 1 (totalPages filteredTours)).
  { induction clicks as [|c rest IH]; intros page Hp; [exact Hp|].
    cbn [fold_left]. apply IH. now apply click_keeps_page. }
  specialize (Hinv 1 ltac:(lia)).
  split; [exact Hinv|].
  split.
  - intro Hle. clear Hinv.
    assert (Hstay : forall page,
               fold_left (click filteredTours) clicks page = page).
    { induction clicks as [|c rest IH]; intro page; [reflexivity|].
      cbn [fold_left]. rewrite (click_without_bar _ _ _ Hle). apply IH. }
    apply Hstay.
  - intro Hne.
    pose proof (totalPages_zero filteredTours) as Hzero.
    assert (Htp : totalPages filteredTours <> 0) by tauto.
    assert (Hin : 1 <= fold_left (click filteredTours) clicks 1
                  <= totalPages filteredTours) by lia.
    split; [exact Hin|].
    intro Hempty.
    destruct (@page_sizes _ filteredTours
                (fold_left (click filteredTours) clicks 1) Hin)
      as ((H1 & _) & _).
    rewrite Hempty in H1. cbn in H1. lia.
Qed.

Lemma clicks_stay_on_a_page_witness :
  seq 0 25 <> [] /\
  fold_left (click (seq 0 25)) [Next; Next; Next; Previous; PageButton 7] 1 = 2 /\
  currentTours (seq 0 25)
    (fold_left (click (seq 0 25)) [Next; Next; Next; Previous; PageButton 7] 1)
  <> [].
Proof.
  assert (H : seq 0 25 <> []) by discriminate.
  split; [exact H|]. split; [reflexivity|].
  apply (proj2 (proj2 (clicks_stay_on_a_page (seq 0 25)
                         [Next; Next; Next; Previous; PageButton 7])) H).
Defined.

(** With no tour the current page is 1 while [totalPages] is 0. *)
Example no_tour_no_page :
  totalPages (@nil nat) = 0 /\
  fold_left (click (@nil nat)) [Next; PageButton 3] 1 = 1 /\
  currentTours (@nil nat) 1 = [].
Proof. repeat split. Qed.

(* ================================================================== *)
(** ** The order-details route *)

(** X15.  The order-details route answers 401 exactly when the request
    carries no usable token, and 400 without calling upstream when the
    token is there but [order_id] is missing or empty.  Otherwise it
    calls the GraphQL endpoint exactly once, with the token as bearer.
    Its status is always 200, 400, 401 or 500, and it is 200 only when
    upstream answered ok with a body that has no errors and has data,
    whose order it then returns. *)
Theorem order_details_replies request fetch :
  let accessToken :=
    option_map (replaceFirst "Bearer " "") (Request.authorization request) in
  let reply := fst (GET request fetch) in
  let calls := snd (GET request fetch) in
  In (Reply.status reply) [200; 400; 401; 500] /\
  (Reply.status reply = 401 <-> JS.truthy accessToken = false) /\
  (calls = [] <->
   JS.truthy accessToken = false \/
   JS.truthy (Request.order_id request) = false) /\
  (calls <> [] ->
   calls = [GraphQLCall.mk "https://public-api.shiphero.com/graphql"
              ("Bearer " ++ JS.orElse accessToken "")
              (orderQuery (JS.orElse (Request.order_id request) ""))]) /\
  (Reply.status reply = 200 ->
   exists call response result order,
     calls = [call] /\
     fetch call = Fulfilled response /\
     Upstream.ok response = true /\
     Upstream.json response = Fulfilled result /\
     (GraphQLResult.errors result = None \/
      GraphQLResult.errors result = Some []) /\
     GraphQLResult.data result = Present order /\
     Reply.body reply = OrderBody order).
Proof.
  intros accessToken reply calls. subst reply calls. unfold GET.
  fold accessToken.
  destruct (JS.truthy accessToken) eqn:Ht; cbn [negb fst snd Reply.status].
  2:{ repeat split; try tauto; try discriminate; cbn; tauto. }
  destruct (JS.truthy (Request.order_id request)) eqn:Ho;
    cbn [negb fst snd Reply.status].
  2:{ repeat split; try tauto; try discriminate; cbn; tauto. }
  set (call := GraphQLCall.mk _ _ _).
  assert (Hcalls : ([call] = [] <-> true = false \/ true = false))
    by (split; [discriminate | intros [H|H]; discriminate]).
  destruct (fetch call) as [error|response] eqn:Hf.
  { cbn. repeat split; try tauto; try discriminate; try apply Hcalls. }
  destruct (Upstream.ok response) eqn:Hok; cbn [negb].
  2:{ cbn. repeat split; try tauto; try discriminate; try apply Hcalls. }
  destruct (Upstream.json response) as [error|result] eqn:Hj.
  { cbn. repeat split; try tauto; try discriminate; try apply Hcalls. }
  destruct (GraphQLResult.errors result) as [[|first rest]|] eqn:He;
    try (cbn; repeat split; try tauto; try discriminate; try apply Hcalls);
    destruct (GraphQLResult.data result) as [| |order] eqn:Hd;
    cbn; repeat split; try tauto; try discriminate; try apply Hcalls;
    intros _; exists call, response, result, order; repeat split; auto.
Qed.

Lemma order_details_replies_witness :
  Reply.status (fst (GET sampleRequest orderFound)) = 200 /\
  exists order,
    Reply.body (fst (GET sampleRequest orderFound)) = OrderBody order.
Proof.
  split; [reflexivity|].
  destruct (order_details_replies sampleRequest orderFound)
    as (_ & _ & _ & _ & H).
  destruct (H eq_refl) as (_ & _ & _ & order & _ & _ & _ & _ & _ & _ & Hb).
  now exists order.
Defined.

Lemma stripTrailing_app (s t : string) :
  t <> "" -> stripTrailing t = t -> stripTrailing (s ++ t) = s ++ t.
Proof.
  intros Hne Ht. induction s as [|c s IH]; [exact Ht|].
  cbn [append stripTrailing]. rewrite IH.
  destruct (s ++ t) eqn:E; [|reflexivity].
  destruct s; [cbn in E; congruence | discriminate].
Qed.

(** X16.  A request whose authorization header is [Bearer t], [t] not
    empty and not ending in white space, with an order id, makes the
    route call upstream with the same bearer and the query for that
    order.  Without the header, or with a header that is empty or white
    space only, the route answers 401 and calls nothing.  The header
    [Bearer ] is read without its last space, as [Bearer]: the route
    takes this word for the token, does not answer 401, and calls
    upstream with [Bearer Bearer]. *)
Theorem bearer_token_is_forwarded token orderId fetch :
  token <> "" ->
  stripTrailing token = token ->
  orderId <> "" ->
  snd (GET (Request.mk (Some ("Bearer " ++ token)) (Some orderId)) fetch)
  = [GraphQLCall.mk "https://public-api.shiphero.com/graphql"
       ("Bearer " ++ token) (orderQuery orderId)] /\
  (forall value,
      normalize value = "" ->
      GET (Request.mk (Some value) (Some orderId)) fetch
      = (Reply.mk (ErrorBody "Access token required") 401, [])) /\
  GET (Request.mk None (Some orderId)) fetch
  = (Reply.mk (ErrorBody "Access token required") 401, []) /\
  Request.authorization (Request.mk (Some "Bearer ") (Some orderId))
  = Some "Bearer" /\
  snd (GET (Request.mk (Some "Bearer ") (Some orderId)) fetch)
  = [GraphQLCall.mk "https://public-api.shiphero.com/graphql"
       "Bearer Bearer" (orderQuery orderId)] /\
  Reply.status (fst (GET (Request.mk (Some "Bearer ") (Some orderId)) fetch))
  <> 401.
Proof.
  intros Ht Hs Ho.
  assert (Otruthy : JS.truthy (Some orderId) = true)
    by (destruct orderId; [congruence | reflexivity]).
  split; [|split; [|split; [reflexivity|split; [reflexivity|]]]].
  - unfold GET, Request.authorization, normalize.
    cbn [Request.Authorization Request.order_id option_map].
    change (stripLeading ("Bearer " ++ token)) with ("Bearer " ++ token).
    rewrite (stripTrailing_app "Bearer " Ht Hs).
    assert (E : replaceFirst "Bearer " "" ("Bearer " ++ token) = token).
    { destruct token; reflexivity. }
    rewrite E.
    assert (Htruthy : JS.truthy (Some token) = true)
      by (destruct token; [congruence | reflexivity]).
    rewrite Htruthy, Otruthy. cbn [negb snd].
    unfold JS.orElse. now rewrite Htruthy, Otruthy.
  - intros value Hv. unfold GET, Request.authorization.
    cbn [Request.Authorization option_map]. rewrite Hv. reflexivity.
  - assert (R : GET (Request.mk (Some "Bearer ") (Some orderId)) fetch
                = GET (Request.mk (Some "Bearer") (Some orderId)) fetch)
      by reflexivity.
    rewrite R. unfold GET, Request.authorization.
    cbn [Request.Authorization Request.order_id option_map].
    change (replaceFirst "Bearer " "" (normalize "Bearer")) with "Bearer".
    change (JS.truthy (Some "Bearer")) with true.
    rewrite Otruthy. cbn [negb snd fst].
    unfold JS.orElse at 1 2. rewrite Otruthy.
    split; [reflexivity|].
    destruct (fetch _) as [error|response]; [discriminate|].
    destruct (negb (Upstream.ok response)); [discriminate|].
    destruct (Upstream.json response) as [error|result]; [discriminate|].
    destruct (GraphQLResult.errors result) as [[|first rest]|];
      try discriminate;
      destruct (GraphQLResult.data result); discriminate.
Qed.

Lemma bearer_token_is_forwarded_witness :
  "secret" <> "" /\ stripTrailing "secret" = "secret" /\
  "T3JkZXI6MQ==" <> "" /\
  map GraphQLCall.Authorization (snd (GET sampleRequest orderFound))
  = ["Bearer secret"] /\
  Reply.status (fst (GET sampleRequest orderFound)) = 200.
Proof.
  split; [discriminate|]. split; [reflexivity|]. split; [discriminate|].
  split; [|reflexivity].
  destruct (@bearer_token_is_forwarded "secret" "T3JkZXI6MQ==" orderFound)
    as (H & _); [discriminate | reflexivity | discriminate |].
  change (snd (GET sampleRequest orderFound))
    with (snd (GET (Request.mk (Some ("Bearer " ++ "secret"))
                               (Some "T3JkZXI6MQ==")) orderFound)).
  rewrite H. reflexivity.
Defined.

(** The header [Bearer ] alone is answered like any token that the
    upstream accepts. *)
Example bare_bearer_is_forwarded :
  GET (Request.mk (Some "Bearer ") (Some "T3JkZXI6MQ==")) orderFound
  = (Reply.mk (OrderBody (Some "order")) 200,
     [GraphQLCall.mk "https://public-api.shiphero.com/graphql"
        "Bearer Bearer" (orderQuery "T3JkZXI6MQ==")]).
Proof. reflexivity. Qed.

(* ================================================================== *)
(** ** A finalization starts afresh *)

Lemma initializeShipHero_run env :
  exists o evs token,
  forall st,
    initializeShipHero env st
    = Run.mk o
        (match o with
         | Rejected _ => st
         | Fulfilled _ =>
             State.mk (Some token) (State.errors st) (State.draws st)
                      (State.posts st) (State.reads st)
         end) evs.
Proof.
  destruct (Env.window_defined env) eqn:Hw.
  2:{ exists (Rejected (Error "Tour finalization service must be used in browser environment.")),
        [], "".
      intro st. unfold initializeShipHero. rewrite bind_ask, Hw. reflexivity. }
  destruct (JS.truthy (Env.shiphero_refresh_token env)) eqn:Ht.
  2:{ exists (Rejected (Error "ShipHero refresh token is required. Please configure it in Settings → ShipHero tab.")),
        [], "".
      intro st. unfold initializeShipHero. rewrite bind_ask, Hw, Ht.
      reflexivity. }
  destruct (Env.refresh_token_endpoint env) as [error|tokenResponse] eqn:He.
  { exists (Rejected error),
      [RefreshTokenRequest (JS.orElse (Env.shiphero_refresh_token env) "")], "".
    intro st. unfold initializeShipHero.
    rewrite bind_ask, Hw, Ht. cbn [negb]. rewrite bind_emit, He.
    reflexivity. }
  destruct (TokenResponse.ok tokenResponse) eqn:Hok.
  - exists (Fulfilled tt),
      [RefreshTokenRequest (JS.orElse (Env.shiphero_refresh_token env) "")],
      (TokenResponse.access_token tokenResponse).
    intro st. unfold initializeShipHero.
    rewrite bind_ask, Hw, Ht. cbn [negb]. rewrite bind_emit, He.
    cbn [await]. rewrite bind_ret, Hok. cbn [negb]. rewrite bind_get.
    reflexivity.
  - exists (Rejected (Error "Failed to get ShipHero access token. Please check your refresh token in Settings.")),
      [RefreshTokenRequest (JS.orElse (Env.shiphero_refresh_token env) "")], "".
    intro st. unfold initializeShipHero.
    rewrite bind_ask, Hw, Ht. cbn [negb]. rewrite bind_emit, He.
    cbn [await]. rewrite bind_ret, Hok. reflexivity.
Qed.

Lemma session_starts_afresh {A} (k : unit -> M A) (handler : Thrown -> M A)
  env st st' :
  State.draws st = State.draws st' ->
  State.posts st = State.posts st' ->
  State.reads st = State.reads st' ->
  (forall error s s',
      State.errors s = State.errors s' ->
      Run.outcome (handler error env s) = Run.outcome (handler error env s') /\
      Run.events (handler error env s) = Run.events (handler error env s')) ->
  let run s :=
    bind newErrors
         (fun _ => try_catch (bind initializeShipHero k) handler) env s in
  Run.outcome (run st) = Run.outcome (run st') /\
  Run.events (run st) = Run.events (run st').
Proof.
  intros Hd Hp Hr Hh run. subst run. cbv beta.
  destruct (initializeShipHero_run env) as (o & evs & token & Hrun).
  unfold newErrors. rewrite !bind_assoc, !bind_get, !bind_put.
  unfold try_catch, bind.
  rewrite !Hrun. cbn [Run.outcome Run.final Run.events State.errors
                      State.draws State.posts].
  rewrite Hd, Hp, Hr.
  destruct o as [error|[]]; cbn [Run.outcome Run.final Run.events].
  - destruct (Hh error
                (State.mk (State.shipHero st) [] (State.draws st')
                          (State.posts st') (State.reads st'))
                (State.mk (State.shipHero st') [] (State.draws st')
                          (State.posts st') (State.reads st')) eq_refl) as (-> & ->).
    now split.
  - now split.
Qed.

(** X17.  A finalization does not depend on what an earlier one left in
    the service object: the error list is emptied and the session token
    replaced before anything else, so the result and the requests are
    the same whatever errors and token the object held, as long as the
    random generator, the orders endpoint and the tables answer the
    same. *)
Theorem finalization_starts_afresh tourId selectedOptions env st st' :
  State.draws st = State.draws st' ->
  State.posts st = State.posts st' ->
  State.reads st = State.reads st' ->
  Run.outcome (finalizeTour tourId selectedOptions env st)
  = Run.outcome (finalizeTour tourId selectedOptions env st') /\
  Run.events (finalizeTour tourId selectedOptions env st)
  = Run.events (finalizeTour tourId selectedOptions env st').
Proof.
  intros Hd Hp Hr. unfold finalizeTour.
  apply session_starts_afresh; [exact Hd | exact Hp | exact Hr |].
  intros error s s' He. cbn. rewrite He. now split.
Qed.

Lemma finalization_starts_afresh_witness :
  State.draws newService
  = State.draws (State.mk (Some "stale") ["Bulk Shipping SOs failed: old"] 0 0 0) /\
  State.posts newService
  = State.posts (State.mk (Some "stale") ["Bulk Shipping SOs failed: old"] 0 0 0) /\
  State.reads newService
  = State.reads (State.mk (Some "stale") ["Bulk Shipping SOs failed: old"] 0 0 0) /\
  Run.outcome (finalizeTour "tour-1" [bulk_shipping]
                 (bulkEnv alwaysCreated None) newService)
  = Run.outcome (finalizeTour "tour-1" [bulk_shipping]
                   (bulkEnv alwaysCreated None)
                   (State.mk (Some "stale") ["Bulk Shipping SOs failed: old"]
                             0 0 0)).
Proof.
  split; [reflexivity|]. split; [reflexivity|]. split; [reflexivity|].
  apply (@finalization_starts_afresh "tour-1" [bulk_shipping]
           (bulkEnv alwaysCreated None) newService
           (State.mk (Some "stale") ["Bulk Shipping SOs failed: old"] 0 0 0)
           eq_refl eq_refl eq_refl).
Defined.

(* ================================================================== *)
(** ** A rejected create call *)

(** X18.  In a session, the sales orders of a batch are all submitted
    before any answer is awaited: when an answer to one of the
    participant orders of the bulk-shipping handler is a rejection, every
    participant order has still been sent, the handler throws, and none
    of the ten demo orders is sent. *)
Theorem rejected_batch_has_sent_every_request env st token tourData error :
  State.shipHero st = Some token ->
  TourData.selected_skus tourData <> [] ->
  TourData.participants tourData <> [] ->
  In (Rejected error)
     (batchAnswers env st (length (TourData.participants tourData))) ->
  let run := createBulkShippingSOs tourData env st in
  (exists error', Run.outcome run = Rejected error') /\
  Run.events run
  = map (fun p : nat * Participant.t =>
           SalesOrderRequest
             (participantOrderData tourData (Env.clock env) "BULK"
                                   (fst p) (snd p)))
        (indexed (TourData.participants tourData)) /\
  length (salesOrders (Run.events run))
  = length (TourData.participants tourData).
Proof.
  intros Hs Hk Hp Hin run. subst run.
  pose proof (@createParticipantOrders_run tourData "BULK" env st token
                Hs Hk Hp) as R.
  destruct (@Promise_all_rejected _
              (Env.race env
                 (State.posts st + length (TourData.participants tourData)))
              _ error Hin) as (error' & Hall & _).
  unfold batchOf, batchOutcome in R. rewrite Hall in R.
  unfold createBulkShippingSOs.
  erewrite bind_throws by exact R.
  cbn [Run.outcome Run.events].
  split; [now exists error'|]. split; [reflexivity|].
  rewrite (salesOrders_map
             (fun p : nat * Participant.t =>
                participantOrderData tourData (Env.clock env) "BULK"
                                     (fst p) (snd p))).
  rewrite length_map. unfold indexed.
  now rewrite length_combine, length_seq, Nat.min_id.
Qed.

Lemma rejected_batch_has_sent_every_request_witness :
  State.shipHero inSession = Some "access" /\
  TourData.selected_skus bulkTour <> [] /\
  TourData.participants bulkTour <> [] /\
  In (Rejected (Error "Failed to create sales order: 500 Internal Server Error"))
     (batchAnswers (bulkEnv (failsAt 0) None) inSession
        (length (TourData.participants bulkTour))) /\
  length (Run.events
            (createBulkShippingSOs bulkTour (bulkEnv (failsAt 0) None)
               inSession))
  = 2.
Proof.
  assert (Hin : In (Rejected (Error "Failed to create sales order: 500 Internal Server Error"))
                   (batchAnswers (bulkEnv (failsAt 0) None) inSession
                      (length (TourData.participants bulkTour))))
    by (left; reflexivity).
  split; [reflexivity|]. split; [discriminate|]. split; [discriminate|].
  split; [exact Hin|].
  destruct (@rejected_batch_has_sent_every_request
              (bulkEnv (failsAt 0) None) inSession "access" bulkTour
              (Error "Failed to create sales order: 500 Internal Server Error")
              eq_refl)
    as (_ & Hev & _); [discriminate | discriminate | exact Hin |].
  rewrite Hev. reflexivity.
Defined.
